(** * heavensabove: timestamp reconstruction and pass-timeline assembly

    A shallow embedding of [heavensabove/__init__.py]: the helper
    [_make_timestamp], the [Position] and [SatellitePass] classes, the
    per-row body of [Satellite.passes] and [SatellitePass.get_details].

    Conventions of the embedding.
    - Python exceptions are values of [exn]; a computation that may raise
      has type [result A].
    - Text is a [string] (a sequence of bytes holding UTF-8).  The regular
      expression classes [\d], [\w] and [\s] are modelled on the ASCII
      range, which is what the upstream tables contain.
    - A [datetime] is the tuple of fields of Python's [datetime]; all
      datetimes of the program carry the UTC zone, so comparison is the
      comparison of the field tuples, as in [datetime._cmp].
    - The wall clock ([_utc_now()]) is an explicit argument [now]; one
      reading is used for the whole of one operation.
    - Objects that the program mutates in place ([Position]) live in a
      store indexed by references, so that aliasing is visible. *)

From Stdlib Require Import ZArith Lia Ascii String List Bool DecimalString.
From stdpp Require Import gmap strings.

Open Scope Z_scope.

(** ** Exceptions and the error monad *)

Inductive exn : Type :=
| ValueError
| OverflowError
| IndexError
| AttributeError
| TypeError.

Inductive result (A : Type) : Type :=
| Ok (a : A)
| Raise (e : exn).

Arguments Ok {A} a.
Arguments Raise {A} e.

Global Instance result_ret : MRet result := fun A a => Ok a.

Global Instance result_bind : MBind result := fun A B f m =>
  match m with
  | Ok a => f a
  | Raise e => Raise e
  end.

Definition is_ok {A : Type} (m : result A) : bool :=
  match m with Ok _ => true | Raise _ => false end.

Lemma bind_Ok {A B : Type} (m : result A) (f : A -> result B) (b : B) :
  m ≫= f = Ok b -> exists a, m = Ok a /\ f a = Ok b.
Proof. destruct m as [a|e]; simpl; intros H; [eauto | discriminate]. Qed.

Lemma bind_Raise {A B : Type} (m : result A) (f : A -> result B) (e : exn) :
  m ≫= f = Raise e ->
  m = Raise e \/ exists a, m = Ok a /\ f a = Raise e.
Proof. destruct m as [a|e']; simpl; intros H; [eauto | left; congruence]. Qed.

(** ** The proleptic Gregorian calendar of [datetime] *)

Module Calendar.

Definition MINYEAR : Z := 1.
Definition MAXYEAR : Z := 9999.

(** [_is_leap(year)] *)
Definition _is_leap (y : Z) : bool :=
  (y mod 4 =? 0) && (negb (y mod 100 =? 0) || (y mod 400 =? 0)).

(** [_DAYS_IN_MONTH], index 0 being the placeholder [-1]. *)
Definition _DAYS_IN_MONTH : list Z :=
  [-1; 31; 28; 31; 30; 31; 30; 31; 31; 30; 31; 30; 31].

(** [_DAYS_BEFORE_MONTH], the running sums of [_DAYS_IN_MONTH]. *)
Definition _DAYS_BEFORE_MONTH : list Z :=
  [-1; 0; 31; 59; 90; 120; 151; 181; 212; 243; 273; 304; 334].

(** [_days_in_month(year, month)] *)
Definition _days_in_month (y m : Z) : Z :=
  if (m =? 2) && _is_leap y then 29
  else nth (Z.to_nat m) _DAYS_IN_MONTH 0.

(** [_days_before_year(year)] *)
Definition _days_before_year (y : Z) : Z :=
  let y' := y - 1 in
  y' * 365 + y' / 4 - y' / 100 + y' / 400.

(** [_days_before_month(year, month)] *)
Definition _days_before_month (y m : Z) : Z :=
  nth (Z.to_nat m) _DAYS_BEFORE_MONTH 0
  + (if (2 <? m) && _is_leap y then 1 else 0).

(** [_ymd2ord(year, month, day)]: 0001-01-01 is day 1. *)
Definition _ymd2ord (y m d : Z) : Z :=
  _days_before_year y + _days_before_month y m + d.

(** What [_check_date_fields] accepts. *)
Definition valid_date (y m d : Z) : bool :=
  (MINYEAR <=? y) && (y <=? MAXYEAR)
  && (1 <=? m) && (m <=? 12)
  && (1 <=? d) && (d <=? _days_in_month y m).

(** What [_check_time_fields] accepts. *)
Definition valid_time (h mi s us : Z) : bool :=
  (0 <=? h) && (h <=? 23) && (0 <=? mi) && (mi <=? 59)
  && (0 <=? s) && (s <=? 59) && (0 <=? us) && (us <=? 999999).

End Calendar.

Import Calendar.

(** ** [datetime] *)

Record datetime : Type := mkdt {
  year : Z; month : Z; day : Z;
  hour : Z; minute : Z; second : Z; microsecond : Z
}.

Definition valid_dt (t : datetime) : bool :=
  valid_date (year t) (month t) (day t)
  && valid_time (hour t) (minute t) (second t) (microsecond t).

(** The constructor [datetime(y, m, d, H, M, S, us)]: out-of-range
    fields raise [ValueError]. *)
Definition datetime_new (y m d h mi s us : Z) : result datetime :=
  if valid_date y m d && valid_time h mi s us
  then Ok (mkdt y m d h mi s us)
  else Raise ValueError.

(** Comparison of tuples, as Python compares them. *)
Fixpoint tuple_cmp (a b : list Z) : comparison :=
  match a, b with
  | [], [] => Eq
  | [], _ :: _ => Lt
  | _ :: _, [] => Gt
  | x :: a', y :: b' =>
      match x ?= y with
      | Eq => tuple_cmp a' b'
      | c => c
      end
  end.

(** The tuple [datetime._cmp] compares. *)
Definition dt_fields (t : datetime) : list Z :=
  [year t; month t; day t; hour t; minute t; second t; microsecond t].

Definition dt_cmp (a b : datetime) : comparison :=
  tuple_cmp (dt_fields a) (dt_fields b).

(** [a < b], [a > b], [a <= b] on datetimes. *)
Definition dt_ltb (a b : datetime) : bool :=
  match dt_cmp a b with Lt => true | _ => false end.
Definition dt_gtb (a b : datetime) : bool := dt_ltb b a.
Definition dt_leb (a b : datetime) : bool := negb (dt_ltb b a).

(** [t.toordinal()] and the exact number of microseconds since
    0001-01-01T00:00:00, that is [(t - EPOCH)] as a [timedelta]. *)
Definition toordinal (t : datetime) : Z := _ymd2ord (year t) (month t) (day t).

Definition US_PER_DAY : Z := 86400 * 1000000.

Definition since_epoch_us (t : datetime) : Z :=
  (toordinal t - 1) * US_PER_DAY
  + ((hour t * 60 + minute t) * 60 + second t) * 1000000 + microsecond t.

(** [t + timedelta(days=1)]: the same time of day on the following
    calendar date; [OverflowError] past 9999-12-31. *)
Definition add_one_day (t : datetime) : result datetime :=
  let '(y, m, d) :=
    if day t <? _days_in_month (year t) (month t)
    then (year t, month t, day t + 1)
    else if month t <? 12 then (year t, month t + 1, 1)
    else (year t + 1, 1, 1) in
  if y <=? MAXYEAR
  then Ok (mkdt y m d (hour t) (minute t) (second t) (microsecond t))
  else Raise OverflowError.

(** [t - timedelta(days=1)]: the same time of day on the preceding
    calendar date; [OverflowError] before 0001-01-01. *)
Definition sub_one_day (t : datetime) : result datetime :=
  let '(y, m, d) :=
    if 1 <? day t then (year t, month t, day t - 1)
    else if 1 <? month t
         then (year t, month t - 1, _days_in_month (year t) (month t - 1))
         else (year t - 1, 12, 31) in
  if MINYEAR <=? y
  then Ok (mkdt y m d (hour t) (minute t) (second t) (microsecond t))
  else Raise OverflowError.

(** [t.replace(year=y)] *)
Definition replace_year (t : datetime) (y : Z) : result datetime :=
  datetime_new y (month t) (day t) (hour t) (minute t) (second t) (microsecond t).

(** The arguments of [replace] are read as C ints before anything is
    checked: one that does not fit in 32 bits raises [OverflowError]. *)
Definition c_int (n : Z) : bool := (- 2 ^ 31 <=? n) && (n <? 2 ^ 31).

(** [t.replace(hour=h, minute=mi, second=s)] *)
Definition replace_hms (t : datetime) (h mi s : Z) : result datetime :=
  if c_int h && c_int mi && c_int s
  then datetime_new (year t) (month t) (day t) h mi s (microsecond t)
  else Raise OverflowError.

(** ** Text: character classes, [str] methods, [int()] and [float()] *)

Module Text.

Open Scope string_scope.

Definition code (c : ascii) : N := N_of_ascii c.

Definition in_range (lo hi : N) (c : ascii) : bool :=
  ((lo <=? code c) && (code c <=? hi))%N.

(** [\d] and [[0-9]] *)
Definition is_digit (c : ascii) : bool := in_range 48 57 c.

(** [\s]: TAB, LF, VT, FF, CR, FS, GS, RS, US and the space. *)
Definition is_space (c : ascii) : bool :=
  in_range 9 13 c || in_range 28 32 c.

(** The white space [int()] and [float()] skip around a number: TAB,
    LF, VT, FF, CR and the space. *)
Definition is_c_space (c : ascii) : bool :=
  in_range 9 13 c || Ascii.eqb c " ".

Definition is_upper (c : ascii) : bool := in_range 65 90 c.
Definition is_lower (c : ascii) : bool := in_range 97 122 c.

(** [\w] *)
Definition is_word (c : ascii) : bool :=
  is_digit c || is_upper c || is_lower c || Ascii.eqb c "_".

(** [c.lower()] *)
Definition lower (c : ascii) : ascii :=
  if is_upper c then ascii_of_N (code c + 32) else c.

Fixpoint str_lower (s : string) : string :=
  match s with
  | EmptyString => EmptyString
  | String c s' => String (lower c) (str_lower s')
  end.

Fixpoint str_filter (p : ascii -> bool) (s : string) : string :=
  match s with
  | EmptyString => EmptyString
  | String c s' => if p c then String c (str_filter p s') else str_filter p s'
  end.

Fixpoint str_forall (p : ascii -> bool) (s : string) : bool :=
  match s with
  | EmptyString => true
  | String c s' => p c && str_forall p s'
  end.

Fixpoint str_rev_onto (s acc : string) : string :=
  match s with
  | EmptyString => acc
  | String c s' => str_rev_onto s' (String c acc)
  end.

Definition str_rev (s : string) : string := str_rev_onto s EmptyString.

Fixpoint lstrip (s : string) : string :=
  match s with
  | String c s' => if is_c_space c then lstrip s' else s
  | EmptyString => EmptyString
  end.

(** The text without the white space around it. *)
Definition strip (s : string) : string :=
  str_rev (lstrip (str_rev (lstrip s))).

(** [s.split(sep)] for a one-character separator: every occurrence
    splits, so the result has one more piece than there are
    separators. *)
Fixpoint split (sep : ascii) (s : string) : list string :=
  match s with
  | EmptyString => [EmptyString]
  | String c s' =>
      if Ascii.eqb c sep then EmptyString :: split sep s'
      else match split sep s' with
           | p :: ps => String c p :: ps
           | [] => [String c EmptyString]
           end
  end.

(** [re.sub('[^...]', "", s)]: delete every character outside the
    class [keep]. *)
Definition re_sub_delete_outside (keep : ascii -> bool) (s : string) : string :=
  str_filter keep s.

Definition digit_val (c : ascii) : Z := Z.of_N (code c) - 48.

(** The value of a string of digits, most significant first. *)
Fixpoint digits_val (acc : Z) (s : string) : Z :=
  match s with
  | EmptyString => acc
  | String c s' => digits_val (10 * acc + digit_val c) s'
  end.

(** [digitpart ::= digit (["_"] digit)*]: the digits read (without the
    underscores) and the rest of the text.  No digit read: the text
    does not start with a digit. *)
Fixpoint take_digitpart (s : string) : string * string :=
  match s with
  | String c s' =>
      if is_digit c then
        match s' with
        | String u (String c2 _ as s2) =>
            if Ascii.eqb u "_" && is_digit c2 then
              let '(ds, r) := take_digitpart s2 in (String c ds, r)
            else
              let '(ds, r) := take_digitpart s' in (String c ds, r)
        | _ => let '(ds, r) := take_digitpart s' in (String c ds, r)
        end
      else (EmptyString, s)
  | EmptyString => (EmptyString, EmptyString)
  end.

(** An optional sign: [true] for a minus. *)
Definition take_sign (s : string) : bool * string :=
  match s with
  | String "-" s' => (true, s')
  | String "+" s' => (false, s')
  | _ => (false, s)
  end.

Definition signed (neg : bool) (n : Z) : Z := if neg then - n else n.

(** [sys.get_int_max_str_digits()] as CPython sets it: [int()] refuses
    a text of more digits (leading zeros count, underscores do not). *)
Definition INT_MAX_STR_DIGITS : N := 4300.

Definition digit_count (ds : string) : N := N.of_nat (String.length ds).

(** [int(s)] for text: white space around, an optional sign, decimal
    digits with single underscores between them, at most
    [INT_MAX_STR_DIGITS] of them. *)
Definition py_int (s : string) : result Z :=
  let '(neg, body) := take_sign (strip s) in
  match take_digitpart body with
  | (String c ds, EmptyString) =>
      if (digit_count (String c ds) <=? INT_MAX_STR_DIGITS)%N
      then Ok (signed neg (digits_val 0 (String c ds)))
      else Raise ValueError
  | _ => Raise ValueError
  end.

(** The value of a float: the decimal number [m * 10^e] the literal
    denotes (its rounding to binary64 is not modelled), an infinity,
    or a NaN. *)
Inductive pyfloat : Type :=
| FNum (m e : Z)
| FInf (neg : bool)
| FNan.

(** [exponent ::= ("e" | "E") [sign] digitpart], then the end. *)
Definition take_exponent (s : string) : option Z :=
  match s with
  | EmptyString => Some 0
  | String c s' =>
      if Ascii.eqb (lower c) "e" then
        let '(neg, body) := take_sign s' in
        match take_digitpart body with
        | (String d ds, EmptyString) =>
            Some (signed neg (digits_val 0 (String d ds)))
        | _ => None
        end
      else None
  end.

(** [floatnumber ::= number [exponent]] where
    [number ::= [digitpart] "." digitpart | digitpart ["."]]. *)
Definition float_number (neg : bool) (s : string) : result pyfloat :=
  let '(ip, r1) := take_digitpart s in
  let '(fp, r2) :=
    match r1 with
    | String "." r => take_digitpart r
    | _ => (EmptyString, r1)
    end in
  match ip ++ fp with
  | EmptyString => Raise ValueError
  | ds =>
      match take_exponent r2 with
      | Some e =>
          Ok (FNum (signed neg (digits_val 0 ds))
                   (e - Z.of_nat (String.length fp)))
      | None => Raise ValueError
      end
  end.

(** [float(s)] for text. *)
Definition py_float (s : string) : result pyfloat :=
  let '(neg, body) := take_sign (strip s) in
  let l := str_lower body in
  if String.eqb l "inf" || String.eqb l "infinity" then Ok (FInf neg)
  else if String.eqb l "nan" then Ok FNan
  else float_number neg body.

(** Truth value of a [str]: the empty text is false. *)
Definition truthy (s : string) : bool :=
  match s with EmptyString => false | _ => true end.

End Text.

Import Text.

(** ** Regular expressions: a backtracking matcher with groups *)

Module Regex.

Open Scope string_scope.

Inductive regex : Type :=
| Chr (p : ascii -> bool)          (* one character of a class *)
| Seq (r1 r2 : regex)
| Alt (r1 r2 : regex)              (* ordered alternation [r1|r2] *)
| Plus (p : ascii -> bool)         (* greedy [c+] over a class *)
| Group (name : string) (r : regex).

(** The groups that matched, most recent first. *)
Definition groups : Type := list (string * string).

Fixpoint group (name : string) (g : groups) : option string :=
  match g with
  | [] => None
  | (n, v) :: g' => if String.eqb n name then Some v else group name g'
  end.

(** What follows a match: the text left and the groups so far. *)
Definition cont : Type := string -> groups -> option (string * groups).

(** Greedy [c*]: as many characters as possible first, one fewer on
    each failure of what follows. *)
Fixpoint star (p : ascii -> bool) (s : string) (g : groups) (k : cont)
  : option (string * groups) :=
  match s with
  | String c s' =>
      if p c then
        match star p s' g k with
        | Some r => Some r
        | None => k s g
        end
      else k s g
  | EmptyString => k s g
  end.

(** The text [s] consumed to reach its suffix [rest]. *)
Definition consumed (s rest : string) : string :=
  substring 0 (String.length s - String.length rest) s.

Fixpoint rmatch (r : regex) (s : string) (g : groups) (k : cont)
  : option (string * groups) :=
  match r with
  | Chr p =>
      match s with
      | String c s' => if p c then k s' g else None
      | EmptyString => None
      end
  | Seq r1 r2 => rmatch r1 s g (fun s' g' => rmatch r2 s' g' k)
  | Alt r1 r2 =>
      match rmatch r1 s g k with
      | Some r => Some r
      | None => rmatch r2 s g k
      end
  | Plus p =>
      match s with
      | String c s' => if p c then star p s' g k else None
      | EmptyString => None
      end
  | Group name r1 =>
      rmatch r1 s g (fun s' g' => k s' ((name, consumed s s') :: g'))
  end.

Definition accept : cont := fun s g => Some (s, g).

(** [re.match(r, s)]: a match at the start of [s]; the text after the
    match and the groups. *)
Definition re_match (r : regex) (s : string) : option (string * groups) :=
  rmatch r s [] accept.

(** [re.search(r, s)]: the leftmost match. *)
Fixpoint re_search (r : regex) (s : string) : option (string * groups) :=
  match re_match r s with
  | Some m => Some m
  | None =>
      match s with
      | String _ s' => re_search r s'
      | EmptyString => None
      end
  end.

(** A literal character, and the same under [re.IGNORECASE]. *)
Definition lit (c : ascii) : regex := Chr (Ascii.eqb c).
Definition lit_i (c : ascii) : regex := Chr (fun x => Ascii.eqb (lower x) (lower c)).

Definition one_of (cs : string) : regex :=
  Chr (fun x => existsb (Ascii.eqb x) (list_ascii_of_string cs)).

(** A literal word; the empty word is not used. *)
Fixpoint word (mk : ascii -> regex) (w : string) : regex :=
  match w with
  | String c EmptyString => mk c
  | String c w' => Seq (mk c) (word mk w')
  | EmptyString => Chr (fun _ => false)
  end.

(** [w1|w2|...] *)
Fixpoint any_word (mk : ascii -> regex) (ws : list string) : regex :=
  match ws with
  | [] => Chr (fun _ => false)
  | [w] => word mk w
  | w :: ws' => Alt (word mk w) (any_word mk ws')
  end.

Definition digit : regex := Chr is_digit.
Definition range (lo hi : ascii) : regex := Chr (in_range (code lo) (code hi)).

End Regex.

Import Regex.

(** ** [datetime.strptime] for the format of [_make_timestamp] *)

Module Strptime.

Open Scope string_scope.

(** [LocaleTime.a_month[1:]], lower-cased (the C locale). *)
Definition a_month : list string :=
  ["jan"; "feb"; "mar"; "apr"; "may"; "jun";
   "jul"; "aug"; "sep"; "oct"; "nov"; "dec"].

Definition cat (rs : list regex) (last : regex) : regex :=
  fold_right Seq last rs.

(** The directives of [TimeRE]; the whole pattern is compiled with
    [re.IGNORECASE], which matters for the names only. *)
Definition re_b : regex := Group "b" (any_word lit_i a_month).
Definition re_d : regex :=
  Group "d"
    (Alt (Seq (lit "3") (range "0" "1"))
    (Alt (Seq (range "1" "2") digit)
    (Alt (Seq (lit "0") (range "1" "9"))
    (Alt (range "1" "9")
         (Seq (lit " ") (range "1" "9")))))).
Definition re_Y : regex := Group "Y" (cat [digit; digit; digit] digit).
Definition re_H : regex :=
  Group "H"
    (Alt (Seq (lit "2") (range "0" "3"))
    (Alt (Seq (range "0" "1") digit)
         digit)).
Definition re_M : regex :=
  Group "M" (Alt (Seq (range "0" "5") digit) digit).
Definition re_S : regex :=
  Group "S"
    (Alt (Seq (lit "6") (range "0" "1"))
    (Alt (Seq (range "0" "5") digit)
         digit)).
(** [%Z]: [utc], [gmt] (the names of the local zone, which the
    pattern also lists, are left out: the text parsed here always
    ends in [UTC]). *)
Definition re_Z : regex := Group "Z" (any_word lit_i ["utc"; "gmt"]).
(** White space in the format stands for [\s+]. *)
Definition ws : regex := Plus is_space.

(** ["%b %d %Y"] and [" %H:%M:%S %Z"] *)
Definition DATE_RE : regex := cat [re_b; ws; re_d; ws] re_Y.
Definition TIME_RE : regex :=
  cat [ws; re_H; lit ":"; re_M; lit ":"; re_S; ws] re_Z.

(** ["%b %d %Y %H:%M:%S %Z"] *)
Definition FORMAT_RE : regex := Seq DATE_RE TIME_RE.

Fixpoint index_from (i : Z) (x : string) (l : list string) : option Z :=
  match l with
  | [] => None
  | y :: l' => if String.eqb x y then Some i else index_from (i + 1) x l'
  end.

Definition int_group (name : string) (g : groups) : result Z :=
  match group name g with
  | Some v => py_int v
  | None => Raise ValueError
  end.

(** The fields of the groups found, then the constructor. *)
Definition of_groups (g : groups) : result datetime :=
  y ← int_group "Y" g;
  m ← match group "b" g with
      | Some v =>
          match index_from 1 (str_lower v) a_month with
          | Some i => Ok i
          | None => Raise ValueError
          end
      | None => Raise ValueError
      end;
  d ← int_group "d" g;
  h ← int_group "H" g;
  mi ← int_group "M" g;
  s ← int_group "S" g;
  datetime_new y m d h mi s 0.

(** [datetime.strptime(data, "%b %d %Y %H:%M:%S %Z")]: the pattern
    must match at the start of the text ("time data does not match
    format") and the match must reach its end ("unconverted data
    remains"); both are [ValueError]. *)
Definition strptime (data : string) : result datetime :=
  match re_match FORMAT_RE data with
  | None => Raise ValueError
  | Some (EmptyString, g) => of_groups g
  | Some (String _ _, _) => Raise ValueError
  end.

End Strptime.

Import Strptime.

(** ** [_make_timestamp] *)

Open Scope string_scope.

(** [str(n)] for an integer. *)
Definition py_str_int (n : Z) : string := NilZero.string_of_int (Z.to_int n).

(** ["{} {} {} {} UTC".format(month, day, year, timestamp)] *)
Definition format_fragment (month day : string) (y : Z) (timestamp : string) : string :=
  month ++ " " ++ day ++ " " ++ py_str_int y ++ " " ++ timestamp ++ " UTC".

(** The timestamp built from the fragment in the year of the clock
    (lines 52-60); [pytz.utc.localize] attaches the zone and changes no
    field. *)
Definition constructed (day month timestamp : string) (now : datetime)
  : result datetime :=
  strptime (format_fragment month day (year now) timestamp).

(** [_make_timestamp(day, month, timestamp, newer_than)] under the
    clock reading [now].  A datetime is always true, so [newer_than and
    ...] tests only that it was passed. *)
Definition _make_timestamp (day month timestamp : string)
    (newer_than : option datetime) (now : datetime) : result datetime :=
  ts ← constructed day month timestamp now;
  yesterday ← sub_one_day now;
  if match newer_than with
     | Some anchor => dt_ltb ts anchor
     | None => false
     end
  then add_one_day ts
  else if dt_ltb ts yesterday
  then replace_year ts (year ts + 1)
  else Ok ts.

(** ** Objects: [Position], [Satellite], [SatellitePass] *)

(** The five subclasses of [Position]; they add nothing but their name. *)
Inductive position_class : Type :=
| RisesPosition
| StartsPosition
| HighestPosition
| EndsPosition
| SetsPosition.

(** The attributes of a [Position].  The four attributes that the
    class body initialises to [None] hold text once they are set. *)
Record Position : Type := mkPosition {
  _class : position_class;
  _timestamp : datetime;
  _altitude : Z;
  _direction : string;
  _direction_degrees : option string;
  _distance : option string;
  _brightness : option string;
  _sun_altitude : option string
}.

(** [Position.__init__(timestamp, altitude, direction)] *)
Definition Position_init (c : position_class) (timestamp : datetime)
    (altitude : Z) (direction : string) : Position :=
  mkPosition c timestamp altitude direction None None None None.

(** [if x: return float(x)], the body of the [brightness] and
    [sun_altitude] properties: [None] and the empty text give [None]. *)
Definition float_if_set (x : option string) : result (option pyfloat) :=
  match x with
  | Some s => if truthy s then f ← py_float s; Ok (Some f) else Ok None
  | None => Ok None
  end.

Module position.
Definition timestamp (p : Position) : datetime := _timestamp p.
Definition altitude (p : Position) : Z := _altitude p.
Definition direction (p : Position) : string := _direction p.
Definition direction_degrees (p : Position) : option string := _direction_degrees p.
Definition distance (p : Position) : option string := _distance p.
Definition brightness (p : Position) : result (option pyfloat) :=
  float_if_set (_brightness p).
Definition sun_altitude (p : Position) : result (option pyfloat) :=
  float_if_set (_sun_altitude p).
End position.

Record Satellite : Type := mkSatellite {
  _satellite_id : Z;
  _name : string;
  _cospar_id : option string;
  _catalog_name : option string;
  _category : option string
}.

(** A reference to a [Position] object, and the store of them. *)
Abbreviation ref := nat.
Abbreviation store := (gmap nat Position).

(** The attributes of a [SatellitePass]; the positions are references
    into the store. *)
Record SatellitePass : Type := mkSatellitePass {
  _satellite : Satellite;
  _latitude : pyfloat;
  _longitude : pyfloat;
  _pass_brightness : option string;
  _rises : option ref;
  _starts : ref;
  _highest : ref;
  _ends : ref;
  _sets : option ref;
  _pass_type : string;
  _link : string
}.

(** [SatellitePass.brightness] *)
Definition pass_brightness (p : SatellitePass) : result (option pyfloat) :=
  float_if_set (_pass_brightness p).

(** ** Programs: errors over a state that survives them *)

Definition prog (S A : Type) : Type := S -> result A * S.

Global Instance prog_ret {S : Type} : MRet (prog S) := fun A a s => (Ok a, s).

Global Instance prog_bind {S : Type} : MBind (prog S) := fun A B f m s =>
  match m s with
  | (Ok a, s') => f a s'
  | (Raise e, s') => (Raise e, s')
  end.

Definition lift {S A : Type} (m : result A) : prog S A := fun s => (m, s).
Definition gets {S A : Type} (f : S -> A) : prog S A := fun s => (Ok (f s), s).
Definition modify {S : Type} (f : S -> S) : prog S unit := fun s => (Ok tt, f s).

(** [l[i]] *)
Definition item {A : Type} (l : list A) (i : nat) : result A :=
  match l !! i with
  | Some x => Ok x
  | None => Raise IndexError
  end.

(** [C(...)]: a new object in the store. *)
Definition alloc (p : Position) : prog store ref :=
  fun h => let r := fresh (dom h) in (Ok r, <[r := p]> h).

(** [r.attr]: the object behind a reference. *)
Definition deref (r : ref) : prog store Position :=
  fun h => match h !! r with
           | Some p => (Ok p, h)
           | None => (Raise AttributeError, h)
           end.

(** [r.attr = v]: an update in place of the object behind [r]. *)
Definition update (r : ref) (f : Position -> Position) : prog store unit :=
  fun h => match h !! r with
           | Some p => (Ok tt, <[r := f p]> h)
           | None => (Raise AttributeError, h)
           end.

(** ** [Satellite.passes]: one row of the summary table *)

(** [\d+], the whole match being group 0. *)
Definition DIGITS_RE : regex := Group "0" (Plus is_digit).

(** [re.search(r'\d+', text)[0]]: subscripting [None] is a [TypeError]. *)
Definition first_number (text : string) : result string :=
  match re_search DIGITS_RE text with
  | Some (_, g) =>
      match group "0" g with
      | Some v => Ok v
      | None => Raise TypeError
      end
  | None => Raise TypeError
  end.

(** A clickable row: the [href] of the link in its first cell, and the
    text of its cells. *)
Record summary_row : Type := mkRow {
  row_href : string;
  row_td : list string
}.

(** The body of the loop of [Satellite.passes] (lines 285-367) for one
    row, under the clock reading [now]. *)
Definition pass_of_row (self : Satellite) (latitude longitude : pyfloat)
    (now : datetime) (row : summary_row) : prog store SatellitePass :=
  let td := row_td row in
  td0 ← lift (item td 0);
  let link := row_href row in
  '(day, month) ← lift (match split " " td0 with
                        | [d; m] => Ok (d, m)
                        | _ => Raise ValueError
                        end);
  brightness ← lift (item td 1);
  let brightness := if String.eqb brightness "-" then None else Some brightness in
  start_time ← lift (item td 2);
  start_alt ← lift (item td 3 ≫= first_number);
  start_az ← lift (item td 4);
  start ← lift (_make_timestamp day month start_time None now);
  start_alt ← lift (py_int start_alt);
  start_position ← alloc (Position_init StartsPosition start start_alt start_az);
  highest_time ← lift (item td 5);
  highest_alt ← lift (item td 6 ≫= first_number);
  highest_az ← lift (item td 7);
  highest ← lift (_make_timestamp day month highest_time (Some start) now);
  highest_alt ← lift (py_int highest_alt);
  highest_position ← alloc (Position_init HighestPosition highest highest_alt highest_az);
  end_time ← lift (item td 8);
  end_alt ← lift (item td 9 ≫= first_number);
  end_az ← lift (item td 10);
  end_ ← lift (_make_timestamp day month end_time (Some highest) now);
  end_alt ← lift (py_int end_alt);
  end_position ← alloc (Position_init EndsPosition end_ end_alt end_az);
  pass_type ← lift (item td 11);
  mret (mkSatellitePass self latitude longitude brightness
          None start_position highest_position end_position None
          pass_type link).

(** The loop itself: the passes of the rows, in order. *)
Fixpoint passes_of_rows (self : Satellite) (latitude longitude : pyfloat)
    (now : datetime) (rows : list summary_row) : prog store (list SatellitePass) :=
  match rows with
  | [] => mret []
  | row :: rows' =>
      p ← pass_of_row self latitude longitude now row;
      ps ← passes_of_rows self latitude longitude now rows';
      mret (p :: ps)
  end.

(** ** [SatellitePass.get_details] *)

(** The degree sign, U+00B0, in UTF-8. *)
Definition DEGREE : string :=
  String (ascii_of_nat 194) (String (ascii_of_nat 176) EmptyString).

(** [(\d+)° \((\w+)\)] *)
Definition AZIMUTH_RE : regex :=
  cat [Group "1" (Plus is_digit); word lit (DEGREE ++ " (");
       Group "2" (Plus is_word)]
      (lit ")").

(** [re.search(r'(\d+)° \((\w+)\)', text).groups()]: no match gives
    [None], whose [groups] is an [AttributeError]. *)
Definition azimuth_groups (text : string) : result (string * string) :=
  match re_search AZIMUTH_RE text with
  | Some (_, g) =>
      match group "1" g, group "2" g with
      | Some degrees, Some direction => Ok (degrees, direction)
      | _, _ => Raise AttributeError
      end
  | None => Raise AttributeError
  end.

(** [[^0-9]] and [[^0-9\-\.]] keep these characters. *)
Definition distance_char (c : ascii) : bool := is_digit c.
Definition sun_altitude_char (c : ascii) : bool :=
  is_digit c || Ascii.eqb c "-" || Ascii.eqb c ".".

(** What is read from one row of the detail table. *)
Record detail : Type := mkDetail {
  d_degrees : string;
  d_direction : string;
  d_distance : string;
  d_brightness : string;
  d_sun_altitude : string
}.

(** The four statements that parse a row (for instance lines 537-540). *)
Definition parse_detail (row : list string) : result detail :=
  '(degrees, direction) ← item row 3 ≫= azimuth_groups;
  distance ← item row 4;
  let distance := re_sub_delete_outside distance_char distance in
  brightness ← item row 5;
  sun_altitude ← item row 6;
  let sun_altitude := re_sub_delete_outside sun_altitude_char sun_altitude in
  Ok (mkDetail degrees direction distance brightness sun_altitude).

(** The four assignments that fill a position (for instance lines
    557-560). *)
Definition set_detail (d : detail) (p : Position) : Position :=
  mkPosition (_class p) (_timestamp p) (_altitude p) (_direction p)
    (Some (d_degrees d)) (Some (d_distance d))
    (Some (d_brightness d)) (Some (d_sun_altitude d)).

(** [t.replace(hour=int(x[0]), minute=int(x[1]), second=int(x[2]))] for
    the pieces [x] of a time of day. *)
Definition replace_time (t : datetime) (x : list string) : result datetime :=
  h ← item x 0 ≫= py_int;
  mi ← item x 1 ≫= py_int;
  s ← item x 2 ≫= py_int;
  replace_hms t h mi s.

(** The state of a call: the store and the pass [self]. *)
Record world : Type := mkWorld {
  heap : store;
  this : SatellitePass
}.

Definition on_heap {A : Type} (m : prog store A) : prog world A :=
  fun w => let '(r, h) := m (heap w) in (r, mkWorld h (this w)).

Definition set_rises (r : ref) (p : SatellitePass) : SatellitePass :=
  mkSatellitePass (_satellite p) (_latitude p) (_longitude p)
    (_pass_brightness p) (Some r) (_starts p) (_highest p) (_ends p)
    (_sets p) (_pass_type p) (_link p).

Definition set_sets (r : ref) (p : SatellitePass) : SatellitePass :=
  mkSatellitePass (_satellite p) (_latitude p) (_longitude p)
    (_pass_brightness p) (_rises p) (_starts p) (_highest p) (_ends p)
    (Some r) (_pass_type p) (_link p).

Definition set_this (f : SatellitePass -> SatellitePass) : prog world unit :=
  modify (fun w => mkWorld (heap w) (f (this w))).

(** [self.starts.timestamp] and the like. *)
Definition timestamp_of (field : SatellitePass -> ref) : prog world datetime :=
  r ← gets (fun w => field (this w));
  p ← on_heap (deref r);
  mret (_timestamp p).

(** [self._starts._x = ...] (four times) and the like. *)
Definition fill (field : SatellitePass -> ref) (d : detail) : prog world unit :=
  r ← gets (fun w => field (this w));
  on_heap (update r (set_detail d)).

(** [self._rises = RisesPosition(...)] followed by the four
    assignments through [self._rises], and the like for [_sets]. *)
Definition create (c : position_class) (ts : datetime) (d : detail)
    (set : ref -> SatellitePass -> SatellitePass) : prog world unit :=
  r ← on_heap (alloc (Position_init c ts 0 (d_direction d)));
  _ ← set_this (set r);
  on_heap (update r (set_detail d)).

(** Lines 512-534: the timestamps of the rise and of the set, from the
    second cell of their rows and the timestamps of [self.starts] and
    [self.ends].  Nothing is assigned here. *)
Definition rise_set_timestamps (rises sets : list string)
  : prog world (datetime * datetime) :=
  rises_1 ← lift (item rises 1);
  let rises_time := split ":" rises_1 in
  sets_1 ← lift (item sets 1);
  let sets_time := split ":" sets_1 in
  starts_ts ← timestamp_of _starts;
  rises_ts ← lift (replace_time starts_ts rises_time);
  starts_ts ← timestamp_of _starts;
  sets_ts ← lift (replace_time starts_ts sets_time);
  starts_ts ← timestamp_of _starts;
  rises_ts ← lift (if dt_gtb rises_ts starts_ts
                   then add_one_day rises_ts else Ok rises_ts);
  ends_ts ← timestamp_of _ends;
  sets_ts ← lift (if dt_ltb sets_ts ends_ts
                  then sub_one_day sets_ts else Ok sets_ts);
  mret (rises_ts, sets_ts).

(** The body of [get_details] from the parsed table on (lines 503-597);
    [table] holds the text of the cells of the rows of the first
    [tbody].  The method returns [None]. *)
Definition get_details (table : list (list string)) : prog world unit :=
  rises ← lift (item table 0);
  starts ← lift (item table 1);
  highest ← lift (item table 2);
  ends ← lift (item table 3);
  sets ← lift (item table 4);
  '(rises_ts, sets_ts) ← rise_set_timestamps rises sets;
  d ← lift (parse_detail rises);
  _ ← create RisesPosition rises_ts d set_rises;
  d ← lift (parse_detail starts);
  _ ← fill _starts d;
  d ← lift (parse_detail highest);
  _ ← fill _highest d;
  d ← lift (parse_detail ends);
  _ ← fill _ends d;
  d ← lift (parse_detail sets);
  create SetsPosition sets_ts d set_sets.

(** The properties of [SatellitePass] that return a position: the
    object behind the reference, [None] while it is not set. *)
Definition pass_position (field : SatellitePass -> option ref) (w : world)
  : option Position :=
  r ← field (this w); heap w !! r.

Module pass.
Definition rises : world -> option Position := pass_position _rises.
Definition starts : world -> option Position :=
  pass_position (fun p => Some (_starts p)).
Definition highest : world -> option Position :=
  pass_position (fun p => Some (_highest p)).
Definition ends : world -> option Position :=
  pass_position (fun p => Some (_ends p)).
Definition sets : world -> option Position := pass_position _sets.
End pass.

(** * Properties of the embedding *)

(** ** The order on datetimes *)

Definition dt_lt (a b : datetime) : Prop := dt_ltb a b = true.
Definition dt_le (a b : datetime) : Prop := dt_leb a b = true.

Infix "≺" := dt_lt (at level 70, no associativity).
Infix "≼" := dt_le (at level 70, no associativity).

(** The lexicographic order that [tuple_cmp] decides. *)
Fixpoint lex_lt (a b : list Z) : Prop :=
  match a, b with
  | x :: a', y :: b' => x < y \/ (x = y /\ lex_lt a' b')
  | [], _ :: _ => True
  | _, [] => False
  end.

Lemma tuple_cmp_Lt (a b : list Z) : tuple_cmp a b = Lt <-> lex_lt a b.
Proof.
  revert b; induction a as [|x a IH]; intros [|y b]; simpl; try easy.
  destruct (Z.compare_spec x y) as [E|L|G].
  - rewrite IH. intuition lia.
  - intuition.
  - split; [discriminate | lia].
Qed.

Lemma dt_ltb_lex (a b : datetime) :
  dt_ltb a b = true <-> lex_lt (dt_fields a) (dt_fields b).
Proof.
  unfold dt_ltb, dt_cmp. rewrite <- tuple_cmp_Lt.
  destruct (tuple_cmp _ _); split; congruence.
Qed.

Lemma dt_ltb_false_lex (a b : datetime) :
  dt_ltb a b = false <-> ~ lex_lt (dt_fields a) (dt_fields b).
Proof. rewrite <- dt_ltb_lex. destruct (dt_ltb a b); split; congruence. Qed.

Lemma dt_leb_lex (a b : datetime) :
  dt_leb a b = true <-> ~ lex_lt (dt_fields b) (dt_fields a).
Proof.
  unfold dt_leb. rewrite <- dt_ltb_lex.
  destruct (dt_ltb b a); simpl; split; congruence.
Qed.

(** Turns every comparison of datetimes in sight into linear
    arithmetic on their fields. *)
Ltac dt_arith :=
  unfold dt_lt, dt_le, dt_gtb in *;
  repeat match goal with
         | H : dt_ltb _ _ = true |- _ => apply dt_ltb_lex in H
         | H : dt_ltb _ _ = false |- _ => apply dt_ltb_false_lex in H
         | H : dt_leb _ _ = true |- _ => apply dt_leb_lex in H
         | |- dt_ltb _ _ = true => apply dt_ltb_lex
         | |- dt_ltb _ _ = false => apply dt_ltb_false_lex
         | |- dt_leb _ _ = true => apply dt_leb_lex
         end;
  unfold dt_fields in *; simpl in *; lia.

Lemma dt_lt_irrefl (a : datetime) : ~ a ≺ a.
Proof. intros H. dt_arith. Qed.

Lemma dt_lt_trans (a b c : datetime) : a ≺ b -> b ≺ c -> a ≺ c.
Proof. intros H1 H2. dt_arith. Qed.

Lemma dt_le_refl (a : datetime) : a ≼ a.
Proof. dt_arith. Qed.

Lemma dt_le_trans (a b c : datetime) : a ≼ b -> b ≼ c -> a ≼ c.
Proof. intros H1 H2. dt_arith. Qed.

Lemma dt_lt_le (a b : datetime) : a ≺ b -> a ≼ b.
Proof. intros H. dt_arith. Qed.

Lemma dt_le_lt_trans (a b c : datetime) : a ≼ b -> b ≺ c -> a ≺ c.
Proof. intros H1 H2. dt_arith. Qed.

Lemma dt_lt_le_trans (a b c : datetime) : a ≺ b -> b ≼ c -> a ≺ c.
Proof. intros H1 H2. dt_arith. Qed.

Lemma dt_not_lt_le (a b : datetime) : dt_ltb a b = false <-> b ≼ a.
Proof. unfold dt_le, dt_leb. destruct (dt_ltb a b); simpl; split; congruence. Qed.

Lemma dt_le_antisym (a b : datetime) : a ≼ b -> b ≼ a -> a = b.
Proof.
  intros H1 H2.
  destruct a as [y1 m1 d1 h1 mi1 s1 u1], b as [y2 m2 d2 h2 mi2 s2 u2].
  assert (E : y1 = y2 /\ m1 = m2 /\ d1 = d2 /\ h1 = h2
              /\ mi1 = mi2 /\ s1 = s2 /\ u1 = u2) by dt_arith.
  destruct E as (-> & -> & -> & -> & -> & -> & ->). reflexivity.
Qed.

(** ** The calendar *)

Lemma days_before_year_succ (y : Z) :
  _days_before_year (y + 1)
  = _days_before_year y + (if _is_leap y then 366 else 365).
Proof.
  unfold _days_before_year, _is_leap.
  replace (y + 1 - 1) with y by lia.
  destruct (Z.eqb_spec (y mod 4) 0), (Z.eqb_spec (y mod 100) 0),
           (Z.eqb_spec (y mod 400) 0);
    simpl; Z.div_mod_to_equations; lia.
Qed.

Lemma days_before_year_mono (y y' : Z) :
  y < y' -> _days_before_year (y + 1) <= _days_before_year y'.
Proof.
  intros H. unfold _days_before_year. Z.div_mod_to_equations. lia.
Qed.

Lemma month_cases (m : Z) :
  1 <= m <= 12 ->
  m = 1 \/ m = 2 \/ m = 3 \/ m = 4 \/ m = 5 \/ m = 6 \/ m = 7 \/ m = 8
  \/ m = 9 \/ m = 10 \/ m = 11 \/ m = 12.
Proof. lia. Qed.

Ltac by_month m H :=
  let C := fresh "C" in
  pose proof (month_cases m H) as C;
  repeat (destruct C as [C|C]; [subst m | ]); [ .. | subst m].

Lemma days_in_month_bounds (y m : Z) :
  1 <= m <= 12 -> 28 <= _days_in_month y m <= 31.
Proof.
  intros H. by_month m H; unfold _days_in_month; simpl;
    try lia; destruct (_is_leap y); simpl; lia.
Qed.

(** The table of running sums agrees with the lengths of the months. *)
Lemma days_before_month_succ (y m : Z) :
  1 <= m < 12 ->
  _days_before_month y (m + 1) = _days_before_month y m + _days_in_month y m.
Proof.
  intros H. assert (H' : 1 <= m <= 12) by lia.
  by_month m H'; try lia;
    unfold _days_before_month, _days_in_month; simpl;
    destruct (_is_leap y); simpl; lia.
Qed.

Lemma days_before_month_first (y : Z) : _days_before_month y 1 = 0.
Proof. reflexivity. Qed.

Lemma days_before_month_last (y : Z) :
  _days_before_month y 12 + _days_in_month y 12
  = if _is_leap y then 366 else 365.
Proof.
  unfold _days_before_month, _days_in_month; simpl.
  destruct (_is_leap y); simpl; lia.
Qed.

Lemma days_before_month_mono (y m m' : Z) :
  1 <= m -> m < m' -> m' <= 12 ->
  _days_before_month y m + _days_in_month y m <= _days_before_month y m'.
Proof.
  intros H1 H2 H3.
  assert (Hm : 1 <= m <= 12) by lia. assert (Hm' : 1 <= m' <= 12) by lia.
  by_month m Hm; by_month m' Hm'; try lia;
    unfold _days_before_month, _days_in_month; simpl;
    destruct (_is_leap y); simpl; lia.
Qed.

Lemma valid_date_iff (y m d : Z) :
  valid_date y m d = true
  <-> MINYEAR <= y <= MAXYEAR /\ 1 <= m <= 12 /\ 1 <= d <= _days_in_month y m.
Proof. unfold valid_date. rewrite !andb_true_iff, !Z.leb_le. tauto. Qed.

Lemma valid_time_iff (h mi s us : Z) :
  valid_time h mi s us = true
  <-> 0 <= h <= 23 /\ 0 <= mi <= 59 /\ 0 <= s <= 59 /\ 0 <= us <= 999999.
Proof. unfold valid_time. rewrite !andb_true_iff, !Z.leb_le. tauto. Qed.

Lemma valid_dt_iff (t : datetime) :
  valid_dt t = true
  <-> (MINYEAR <= year t <= MAXYEAR /\ 1 <= month t <= 12
       /\ 1 <= day t <= _days_in_month (year t) (month t))
      /\ 0 <= hour t <= 23 /\ 0 <= minute t <= 59 /\ 0 <= second t <= 59
         /\ 0 <= microsecond t <= 999999.
Proof.
  unfold valid_dt. rewrite andb_true_iff, valid_date_iff, valid_time_iff. tauto.
Qed.

(** The ordinal of a date lies in the span of its year. *)
Lemma ymd2ord_in_year (y m d : Z) :
  1 <= m <= 12 -> 1 <= d <= _days_in_month y m ->
  _days_before_year y < _ymd2ord y m d <= _days_before_year (y + 1).
Proof.
  intros Hm Hd. rewrite days_before_year_succ. unfold _ymd2ord.
  assert (0 <= _days_before_month y m
          /\ _days_before_month y m + _days_in_month y m
             <= if _is_leap y then 366 else 365).
  { by_month m Hm; unfold _days_before_month, _days_in_month; simpl;
      destruct (_is_leap y); simpl; lia. }
  lia.
Qed.

(** Ordinals grow with the date. *)
Lemma ymd2ord_lt (y m d y' m' d' : Z) :
  1 <= m <= 12 -> 1 <= d <= _days_in_month y m ->
  1 <= m' <= 12 -> 1 <= d' <= _days_in_month y' m' ->
  lex_lt [y; m; d] [y'; m'; d'] ->
  _ymd2ord y m d < _ymd2ord y' m' d'.
Proof.
  intros Hm Hd Hm' Hd' H. simpl in H.
  destruct H as [H|[-> H]].
  - pose proof (ymd2ord_in_year y m d Hm Hd).
    pose proof (ymd2ord_in_year y' m' d' Hm' Hd').
    pose proof (days_before_year_mono y y' H). lia.
  - destruct H as [H|[-> H]].
    + pose proof (days_before_month_mono y' m m' ltac:(lia) H ltac:(lia)).
      unfold _ymd2ord. lia.
    + unfold _ymd2ord. lia.
Qed.

(** On valid datetimes the order of the field tuples is the order of
    the instants. *)
Lemma since_epoch_us_lt (a b : datetime) :
  valid_dt a = true -> valid_dt b = true ->
  (a ≺ b <-> since_epoch_us a < since_epoch_us b).
Proof.
  intros Ha Hb. apply valid_dt_iff in Ha, Hb.
  destruct Ha as ((Hya & Hma & Hda) & Hta), Hb as ((Hyb & Hmb & Hdb) & Htb).
  unfold dt_lt. rewrite dt_ltb_lex. unfold since_epoch_us, toordinal, US_PER_DAY.
  assert (D : lex_lt [year a; month a; day a] [year b; month b; day b]
              -> _ymd2ord (year a) (month a) (day a)
                 < _ymd2ord (year b) (month b) (day b))
    by (apply ymd2ord_lt; assumption).
  assert (D' : lex_lt [year b; month b; day b] [year a; month a; day a]
              -> _ymd2ord (year b) (month b) (day b)
                 < _ymd2ord (year a) (month a) (day a))
    by (apply ymd2ord_lt; assumption).
  assert (E : year a = year b -> month a = month b -> day a = day b ->
              _ymd2ord (year a) (month a) (day a)
              = _ymd2ord (year b) (month b) (day b))
    by (intros -> -> ->; reflexivity).
  unfold dt_fields; simpl in *. lia.
Qed.

Lemma since_epoch_us_le (a b : datetime) :
  valid_dt a = true -> valid_dt b = true ->
  (a ≼ b <-> since_epoch_us a <= since_epoch_us b).
Proof.
  intros Ha Hb. pose proof (since_epoch_us_lt b a Hb Ha) as H.
  unfold dt_le, dt_leb, dt_lt in *. destruct (dt_ltb b a); simpl.
  - split; [discriminate | intros; assert (true = true) as E by reflexivity;
                           apply H in E; lia].
  - split; [intros _ | reflexivity].
    destruct (Z_lt_le_dec (since_epoch_us b) (since_epoch_us a)) as [L|L];
      [apply H in L; discriminate | exact L].
Qed.

(** ** Adding and subtracting a day *)

(** [t + timedelta(days=1)] is the next ordinal at the same time of
    day, hence exactly one day later. *)
Lemma add_one_day_spec (t t' : datetime) :
  valid_dt t = true -> add_one_day t = Ok t' ->
  valid_dt t' = true
  /\ toordinal t' = toordinal t + 1
  /\ hour t' = hour t /\ minute t' = minute t /\ second t' = second t
  /\ microsecond t' = microsecond t.
Proof.
  intros Hv H. apply valid_dt_iff in Hv. destruct Hv as ((Hy & Hm & Hd) & Ht).
  unfold add_one_day in H. unfold toordinal, _ymd2ord.
  destruct (Z.ltb_spec (day t) (_days_in_month (year t) (month t))) as [L|L].
  - destruct (Z.leb_spec (year t) MAXYEAR); [|discriminate].
    injection H as <-; simpl. rewrite valid_dt_iff; simpl. lia.
  - destruct (Z.ltb_spec (month t) 12) as [L'|L'].
    + destruct (Z.leb_spec (year t) MAXYEAR); [|discriminate].
      injection H as <-; simpl. rewrite valid_dt_iff; simpl.
      rewrite days_before_month_succ by lia.
      pose proof (days_in_month_bounds (year t) (month t + 1) ltac:(lia)). lia.
    + destruct (Z.leb_spec (year t + 1) MAXYEAR); [|discriminate].
      injection H as <-; simpl. rewrite valid_dt_iff; simpl.
      rewrite days_before_year_succ.
      assert (month t = 12) as E by lia.
      pose proof (days_before_month_last (year t)) as E'. rewrite E in *.
      unfold MINYEAR, MAXYEAR in *.
      change (_days_before_month (year t + 1) 1) with 0.
      change (_days_in_month (year t + 1) 1) with 31. lia.
Qed.

Lemma add_one_day_us (t t' : datetime) :
  valid_dt t = true -> add_one_day t = Ok t' ->
  since_epoch_us t' = since_epoch_us t + US_PER_DAY.
Proof.
  intros Hv H. destruct (add_one_day_spec t t' Hv H) as (_ & Ho & Hh & Hm & Hs & Hu).
  unfold since_epoch_us. rewrite Ho, Hh, Hm, Hs, Hu. lia.
Qed.

Lemma add_one_day_lt (t t' : datetime) : add_one_day t = Ok t' -> t ≺ t'.
Proof.
  unfold add_one_day. intros H.
  destruct (Z.ltb_spec (day t) (_days_in_month (year t) (month t)));
    [|destruct (Z.ltb_spec (month t) 12)];
    match type of H with (if ?c then _ else _) = _ => destruct c end;
    try discriminate; injection H as <-; dt_arith.
Qed.

(** Only on the last day of the calendar does the addition overflow. *)
Lemma add_one_day_ok (t : datetime) :
  valid_dt t = true -> year t < MAXYEAR -> exists t', add_one_day t = Ok t'.
Proof.
  intros Hv Hy. unfold add_one_day.
  destruct (Z.ltb_spec (day t) (_days_in_month (year t) (month t)));
    [|destruct (Z.ltb_spec (month t) 12)];
    match goal with |- context [if ?c then _ else _] =>
      destruct c eqn:E end; eauto;
    apply Z.leb_gt in E; lia.
Qed.



Lemma sub_one_day_ok (t : datetime) :
  valid_dt t = true -> MINYEAR < year t -> exists t', sub_one_day t = Ok t'.
Proof.
  intros Hv Hy. unfold sub_one_day.
  destruct (Z.ltb_spec 1 (day t)); [|destruct (Z.ltb_spec 1 (month t))];
    match goal with |- context [if ?c then _ else _] =>
      destruct c eqn:E end; eauto;
    apply Z.leb_gt in E; lia.
Qed.

(** ** Replacing fields *)

Lemma datetime_new_Ok (y m d h mi s us : Z) (t : datetime) :
  datetime_new y m d h mi s us = Ok t ->
  t = mkdt y m d h mi s us /\ valid_dt t = true.
Proof.
  unfold datetime_new. destruct (_ && _) eqn:E; [|discriminate].
  intros [= <-]. split; [reflexivity | exact E].
Qed.

Lemma replace_year_next_lt (t t' : datetime) :
  replace_year t (year t + 1) = Ok t' -> t ≺ t'.
Proof.
  intros H. apply datetime_new_Ok in H as [-> _]. dt_arith.
Qed.

Lemma days_in_month_next_year (y m : Z) :
  1 <= m <= 12 ->
  _days_in_month y m <= _days_in_month (y + 1) m
  \/ (m = 2 /\ _days_in_month y m = 29).
Proof.
  intros Hm. by_month m Hm; unfold _days_in_month; simpl;
    destruct (_is_leap y), (_is_leap (y + 1)); simpl; lia.
Qed.

(** Moving to the following year fails exactly on 29 February (and in
    the last year of the calendar). *)
Lemma replace_year_next_ok (t : datetime) :
  valid_dt t = true -> year t < MAXYEAR ->
  ~ (month t = 2 /\ day t = 29) ->
  replace_year t (year t + 1)
  = Ok (mkdt (year t + 1) (month t) (day t)
          (hour t) (minute t) (second t) (microsecond t)).
Proof.
  intros Hv Hy Hn. unfold replace_year, datetime_new.
  apply valid_dt_iff in Hv. destruct Hv as ((Hy' & Hm & Hd) & Ht).
  assert (E : valid_date (year t + 1) (month t) (day t) = true).
  { apply valid_date_iff. unfold MINYEAR, MAXYEAR in *.
    pose proof (days_in_month_next_year (year t) (month t) Hm).
    pose proof (days_in_month_bounds (year t + 1) (month t) Hm). lia. }
  rewrite E. simpl.
  assert (E' : valid_time (hour t) (minute t) (second t) (microsecond t) = true)
    by (apply valid_time_iff; lia).
  rewrite E'. reflexivity.
Qed.

Lemma replace_year_feb29 (t : datetime) :
  valid_dt t = true -> month t = 2 -> day t = 29 ->
  replace_year t (year t + 1) = Raise ValueError.
Proof.
  intros Hv Hm Hd. unfold replace_year, datetime_new.
  apply valid_dt_iff in Hv. destruct Hv as ((Hy' & _ & Hd') & Ht).
  rewrite Hm, Hd in *.
  assert (L : _is_leap (year t) = true).
  { unfold _days_in_month in Hd'. simpl in Hd'.
    destruct (_is_leap (year t)); [reflexivity | simpl in Hd'; lia]. }
  assert (L' : _is_leap (year t + 1) = false).
  { unfold _is_leap in *. apply andb_true_iff in L as [L _].
    apply Z.eqb_eq in L.
    destruct (Z.eqb_spec ((year t + 1) mod 4) 0) as [E|E]; [|reflexivity].
    exfalso. Z.div_mod_to_equations. lia. }
  unfold valid_date, _days_in_month. rewrite L'. simpl.
  rewrite !andb_false_r. reflexivity.
Qed.

(** ** What [strptime] returns *)

Lemma of_groups_valid (g : groups) (t : datetime) :
  of_groups g = Ok t -> valid_dt t = true /\ microsecond t = 0.
Proof.
  unfold of_groups. intros H.
  repeat (apply bind_Ok in H as (? & _ & H)).
  apply datetime_new_Ok in H as [-> Hv]. split; [exact Hv | reflexivity].
Qed.

Lemma strptime_valid (data : string) (t : datetime) :
  strptime data = Ok t -> valid_dt t = true /\ microsecond t = 0.
Proof.
  unfold strptime. destruct (re_match FORMAT_RE data) as [[[|c rest] g]|];
    try discriminate. apply of_groups_valid.
Qed.

Lemma constructed_valid (day month timestamp : string) (now ts : datetime) :
  constructed day month timestamp now = Ok ts ->
  valid_dt ts = true /\ microsecond ts = 0.
Proof. apply strptime_valid. Qed.

(** ** [_make_timestamp] *)

(** The fields of [t] with the following year. *)
Definition next_year (t : datetime) : datetime :=
  mkdt (year t + 1) (month t) (day t)
    (hour t) (minute t) (second t) (microsecond t).

(** What a successful call went through. *)
Lemma make_timestamp_Ok (day month timestamp : string)
    (newer_than : option datetime) (now r : datetime) :
  _make_timestamp day month timestamp newer_than now = Ok r ->
  exists ts yesterday,
    constructed day month timestamp now = Ok ts
    /\ sub_one_day now = Ok yesterday
    /\ match newer_than with
       | Some anchor =>
           if dt_ltb ts anchor then add_one_day ts = Ok r
           else if dt_ltb ts yesterday then r = next_year ts
           else r = ts
       | None => if dt_ltb ts yesterday then r = next_year ts else r = ts
       end.
Proof.
  unfold _make_timestamp. intros H.
  apply bind_Ok in H as (ts & Hts & H). apply bind_Ok in H as (y & Hy & H).
  exists ts, y. repeat split; try assumption.
  destruct newer_than as [anchor|].
  - destruct (dt_ltb ts anchor); [exact H|].
    destruct (dt_ltb ts y); [|congruence].
    apply datetime_new_Ok in H as [-> _]. reflexivity.
  - destruct (dt_ltb ts y); [|congruence].
    apply datetime_new_Ok in H as [-> _]. reflexivity.
Qed.

Lemma replace_year_last (t : datetime) :
  year t = MAXYEAR -> replace_year t (year t + 1) = Raise ValueError.
Proof.
  intros E. unfold replace_year, datetime_new, valid_date. rewrite E.
  reflexivity.
Qed.

(** C3, as amended.  Without an anchor, resolve returns the constructed
    timestamp unchanged when it is not strictly earlier than the clock
    minus one day.  When it is strictly earlier, resolve moves it to
    the following year if the date exists there, and raises
    [ValueError] if it does not: the constructed timestamp is a
    29 February, or lies in the last year of the calendar. *)
Theorem resolve_without_anchor (sday smonth stime : string)
    (now ts yesterday : datetime) :
  constructed sday smonth stime now = Ok ts ->
  sub_one_day now = Ok yesterday ->
  _make_timestamp sday smonth stime None now
  = if dt_ltb ts yesterday
    then if ((year ts =? MAXYEAR) || ((month ts =? 2) && (day ts =? 29)))%Z
         then Raise ValueError
         else Ok (next_year ts)
    else Ok ts.
Proof.
  intros Hts Hy. unfold _make_timestamp. rewrite Hts, Hy. simpl.
  destruct (dt_ltb ts yesterday); [|reflexivity].
  apply constructed_valid in Hts as [Hv _].
  destruct (Z.eqb_spec (year ts) MAXYEAR) as [Ey|Ey]; cbn [orb].
  { apply replace_year_last, Ey. }
  destruct (Z.eqb_spec (month ts) 2) as [Em|Em]; cbn [andb];
    [destruct (Z.eqb_spec (day ts) 29) as [Ed|Ed]|].
  - apply replace_year_feb29; assumption.
  - apply replace_year_next_ok; [exact Hv | | tauto].
    apply valid_dt_iff in Hv. lia.
  - apply replace_year_next_ok; [exact Hv | | tauto].
    apply valid_dt_iff in Hv. lia.
Qed.

(** The two instances of the claim, and a 29 February, under the clock
    2024-06-10T00:00:00. *)
Lemma resolve_without_anchor_witness :
  let now := mkdt 2024 6 10 0 0 0 0 in
  _make_timestamp "01" "Jun" "00:00:00" None now = Ok (mkdt 2025 6 1 0 0 0 0)
  /\ _make_timestamp "15" "Jun" "09:00:00" None now = Ok (mkdt 2024 6 15 9 0 0 0)
  /\ _make_timestamp "29" "Feb" "00:00:00" None now = Raise ValueError.
Proof.
  intros now. split; [|split].
  - exact (resolve_without_anchor "01" "Jun" "00:00:00" now
             (mkdt 2024 6 1 0 0 0 0) (mkdt 2024 6 9 0 0 0 0) eq_refl eq_refl).
  - exact (resolve_without_anchor "15" "Jun" "09:00:00" now
             (mkdt 2024 6 15 9 0 0 0) (mkdt 2024 6 9 0 0 0 0) eq_refl eq_refl).
  - exact (resolve_without_anchor "29" "Feb" "00:00:00" now
             (mkdt 2024 2 29 0 0 0 0) (mkdt 2024 6 9 0 0 0 0) eq_refl eq_refl).
Defined.

(** C3 as stated fails: a constructed 29 February that is more than a
    day old is not moved to the following year, the call raises. *)
Lemma resolve_without_anchor_counterexample :
  ~ (forall (sday smonth stime : string) (now ts yesterday : datetime),
        constructed sday smonth stime now = Ok ts ->
        sub_one_day now = Ok yesterday ->
        _make_timestamp sday smonth stime None now
        = Ok (if dt_ltb ts yesterday then next_year ts else ts)).
Proof.
  intros H.
  specialize (H "29" "Feb" "00:00:00" (mkdt 2024 6 10 0 0 0 0)
                (mkdt 2024 2 29 0 0 0 0) (mkdt 2024 6 9 0 0 0 0)
                eq_refl eq_refl).
  vm_compute in H. discriminate H.
Qed.

(** C1, as amended.  With an anchor, resolve adds exactly one day to a
    constructed timestamp that is strictly earlier than the anchor, so
    its result is not earlier than the anchor exactly when the anchor is
    at most one day after the constructed timestamp; the result is
    never earlier than the constructed timestamp. *)
Theorem resolve_with_anchor (sday smonth stime : string)
    (anchor now ts yesterday : datetime) :
  valid_dt anchor = true ->
  constructed sday smonth stime now = Ok ts ->
  sub_one_day now = Ok yesterday ->
  year ts < MAXYEAR ->
  ~ (anchor ≼ ts /\ ts ≺ yesterday /\ month ts = 2 /\ day ts = 29) ->
  exists r,
    _make_timestamp sday smonth stime (Some anchor) now = Ok r
    /\ ts ≼ r
    /\ (ts ≺ anchor -> since_epoch_us r = since_epoch_us ts + US_PER_DAY)
    /\ (anchor ≼ r
        <-> since_epoch_us anchor <= since_epoch_us ts + US_PER_DAY).
Proof.
  intros Ha Hts Hy Hmax Hn. unfold _make_timestamp. rewrite Hts, Hy. simpl.
  apply constructed_valid in Hts as [Hv _].
  destruct (dt_ltb ts anchor) eqn:E.
  - destruct (add_one_day_ok ts Hv Hmax) as [r Hr]. exists r.
    destruct (add_one_day_spec ts r Hv Hr) as (Hvr & _).
    pose proof (add_one_day_us ts r Hv Hr) as Hus.
    repeat split.
    + exact Hr.
    + apply dt_lt_le, (add_one_day_lt _ _ Hr).
    + intros _. exact Hus.
    + rewrite (since_epoch_us_le anchor r Ha Hvr). lia.
    + rewrite (since_epoch_us_le anchor r Ha Hvr). lia.
  - apply dt_not_lt_le in E.
    assert (Hus : since_epoch_us anchor <= since_epoch_us ts)
      by (apply since_epoch_us_le; assumption).
    assert (Hday : 0 <= US_PER_DAY) by (unfold US_PER_DAY; lia).
    destruct (dt_ltb ts yesterday) eqn:E'.
    + exists (next_year ts). unfold dt_lt in Hn.
      rewrite replace_year_next_ok by (try assumption; tauto).
      repeat split.
      * unfold next_year. dt_arith.
      * intros L. unfold next_year in *. dt_arith.
      * intros _. lia.
      * intros _. unfold next_year in *. dt_arith.
    + exists ts. repeat split.
      * apply dt_le_refl.
      * intros L. dt_arith.
      * intros _. lia.
      * intros _. exact E.
Qed.

(** A start at 23:58:00 as the anchor of a highest point at 00:02:00. *)
Lemma resolve_with_anchor_witness :
  exists r,
    _make_timestamp "15" "Jun" "00:02:00" (Some (mkdt 2024 6 15 23 58 0 0))
      (mkdt 2024 6 10 0 0 0 0) = Ok r
    /\ mkdt 2024 6 15 0 2 0 0 ≼ r
    /\ (mkdt 2024 6 15 0 2 0 0 ≺ mkdt 2024 6 15 23 58 0 0 ->
        since_epoch_us r
        = since_epoch_us (mkdt 2024 6 15 0 2 0 0) + US_PER_DAY)
    /\ (mkdt 2024 6 15 23 58 0 0 ≼ r
        <-> since_epoch_us (mkdt 2024 6 15 23 58 0 0)
            <= since_epoch_us (mkdt 2024 6 15 0 2 0 0) + US_PER_DAY).
Proof.
  apply (resolve_with_anchor "15" "Jun" "00:02:00"
           (mkdt 2024 6 15 23 58 0 0) (mkdt 2024 6 10 0 0 0 0)
           (mkdt 2024 6 15 0 2 0 0) (mkdt 2024 6 9 0 0 0 0));
    [reflexivity | reflexivity | reflexivity | reflexivity | ].
  intros (H & _); vm_compute in H; discriminate H.
Defined.

(** C1 as stated fails: an anchor four days after the constructed
    timestamp is not reached by the single day that is added. *)
Lemma resolve_with_anchor_counterexample :
  ~ (forall (sday smonth stime : string) (anchor now r : datetime),
        valid_dt anchor = true ->
        _make_timestamp sday smonth stime (Some anchor) now = Ok r ->
        anchor ≼ r).
Proof.
  intros H.
  specialize (H "01" "Jun" "00:00:00" (mkdt 2024 6 5 0 0 0 0)
                (mkdt 2024 6 10 0 0 0 0) (mkdt 2024 6 2 0 0 0 0)
                eq_refl eq_refl).
  vm_compute in H. discriminate H.
Qed.

(** ** Runs of programs *)

Section Runs.
Context {S : Type}.

Lemma run_bind {A B : Type} (m : prog S A) (f : A -> prog S B) (s : S) :
  (m ≫= f) s
  = match m s with
    | (Ok a, s') => f a s'
    | (Raise e, s') => (Raise e, s')
    end.
Proof. reflexivity. Qed.

Lemma run_bind_Ok {A B : Type} (m : prog S A) (f : A -> prog S B)
    (s s2 : S) (b : B) :
  (m ≫= f) s = (Ok b, s2) ->
  exists a s1, m s = (Ok a, s1) /\ f a s1 = (Ok b, s2).
Proof.
  rewrite run_bind. destruct (m s) as [[a|e] s1]; [eauto | discriminate].
Qed.

Lemma run_bind_Raise {A B : Type} (m : prog S A) (f : A -> prog S B)
    (s s2 : S) (e : exn) :
  (m ≫= f) s = (Raise e, s2) ->
  m s = (Raise e, s2)
  \/ exists a s1, m s = (Ok a, s1) /\ f a s1 = (Raise e, s2).
Proof.
  rewrite run_bind. destruct (m s) as [[a|e'] s1]; [eauto | left; congruence].
Qed.

Lemma run_lift {A : Type} (m : result A) (s s' : S) (r : result A) :
  lift m s = (r, s') -> r = m /\ s' = s.
Proof. unfold lift. intros [= <- <-]. split; reflexivity. Qed.

(** A relation between the state before and the state after that
    every run of a program respects, whether it raises or not. *)
Definition respects (R : S -> S -> Prop) {A : Type} (m : prog S A) : Prop :=
  forall s r s', m s = (r, s') -> R s s'.

Context (R : S -> S -> Prop) `{!Reflexive R} `{!Transitive R}.

Lemma respects_lift {A : Type} (m : result A) : respects R (lift m).
Proof. intros s r s' [_ ->]%run_lift. reflexivity. Qed.

Lemma respects_ret {A : Type} (a : A) : respects R (mret a).
Proof. intros s r s' [= _ <-]. reflexivity. Qed.

Lemma respects_gets {A : Type} (f : S -> A) : respects R (gets f).
Proof. intros s r s' [= _ <-]. reflexivity. Qed.

Lemma respects_bind {A B : Type} (m : prog S A) (f : A -> prog S B) :
  respects R m -> (forall a, respects R (f a)) -> respects R (m ≫= f).
Proof.
  intros Hm Hf s r s'. rewrite run_bind.
  destruct (m s) as [[a|e] s1] eqn:E.
  - intros H. transitivity s1; [exact (Hm _ _ _ E) | exact (Hf _ _ _ _ H)].
  - intros [= _ <-]. exact (Hm _ _ _ E).
Qed.

End Runs.

(** Reading never changes the state. *)
Lemma timestamp_of_run (field : SatellitePass -> ref) (w w' : world)
    (r : result datetime) :
  timestamp_of field w = (r, w') ->
  w' = w
  /\ r = match heap w !! field (this w) with
         | Some p => Ok (_timestamp p)
         | None => Raise AttributeError
         end.
Proof.
  unfold timestamp_of. rewrite run_bind. unfold gets. rewrite run_bind.
  unfold on_heap, deref. destruct w as [h p]; simpl.
  destruct (h !! field p); intros [= <- <-]; split; reflexivity.
Qed.

Lemma rise_set_timestamps_pure (rises sets : list string) :
  respects eq (rise_set_timestamps rises sets).
Proof.
  unfold rise_set_timestamps.
  repeat first [ apply respects_lift; apply _
               | apply respects_ret; apply _
               | intros w r w' [-> _]%timestamp_of_run; reflexivity
               | apply respects_bind; try apply _; [ | intros ?] ].
Qed.

(** ** What enrichment leaves alone *)

(** Two positions that differ at most in the four detail attributes. *)
Definition same_core (p p' : Position) : Prop :=
  _class p' = _class p /\ _timestamp p' = _timestamp p
  /\ _altitude p' = _altitude p /\ _direction p' = _direction p.

(** Every object of the store is still there with the same core, and
    the pass still refers to the same starts, highest and ends. *)
Definition frame (w w' : world) : Prop :=
  (forall r p, heap w !! r = Some p ->
     exists p', heap w' !! r = Some p' /\ same_core p p')
  /\ _starts (this w') = _starts (this w)
  /\ _highest (this w') = _highest (this w)
  /\ _ends (this w') = _ends (this w)
  /\ _pass_brightness (this w') = _pass_brightness (this w).

Global Instance frame_refl : Reflexive frame.
Proof.
  intros w. unfold frame, same_core. repeat split; try reflexivity.
  intros r p H. exists p. tauto.
Qed.

Global Instance frame_trans : Transitive frame.
Proof.
  intros w1 w2 w3 (H1 & E1) (H2 & E2). split.
  - intros r p H. destruct (H1 r p H) as (p' & H' & C1).
    destruct (H2 r p' H') as (p'' & H'' & C2). exists p''.
    split; [exact H''|]. unfold same_core in *. intuition congruence.
  - intuition congruence.
Qed.

Lemma fresh_not_in (h : store) : h !! fresh (dom h) = None.
Proof. apply not_elem_of_dom, is_fresh. Qed.

Lemma same_core_set_detail (d : detail) (p : Position) :
  same_core p (set_detail d p).
Proof. unfold same_core. simpl. tauto. Qed.

(** [create] always succeeds: a new object is put under a reference
    that was free, and the pass is made to refer to it. *)
Lemma create_run (c : position_class) (ts : datetime) (d : detail)
    (set : ref -> SatellitePass -> SatellitePass) (w : world) :
  create c ts d set w
  = (Ok tt,
     let r := fresh (dom (heap w)) in
     mkWorld (<[r := set_detail d (Position_init c ts 0 (d_direction d))]> (heap w))
             (set r (this w))).
Proof.
  unfold create. rewrite run_bind. destruct w as [h p]; simpl.
  rewrite run_bind; simpl. unfold on_heap, update; simpl.
  rewrite lookup_insert_eq, insert_insert_eq. reflexivity.
Qed.

(** [fill] updates in place the object that the pass refers to. *)
Lemma fill_run (field : SatellitePass -> ref) (d : detail) (w : world) :
  fill field d w
  = match heap w !! field (this w) with
    | Some p =>
        (Ok tt, mkWorld (<[field (this w) := set_detail d p]> (heap w)) (this w))
    | None => (Raise AttributeError, w)
    end.
Proof.
  unfold fill. rewrite run_bind. destruct w as [h p]; simpl.
  unfold on_heap, update; simpl. destruct (h !! field p); reflexivity.
Qed.

Lemma frame_create (c : position_class) (ts : datetime) (d : detail)
    (set : ref -> SatellitePass -> SatellitePass) :
  (forall r p, _starts (set r p) = _starts p /\ _highest (set r p) = _highest p
               /\ _ends (set r p) = _ends p
               /\ _pass_brightness (set r p) = _pass_brightness p) ->
  respects frame (create c ts d set).
Proof.
  intros Hset w r w'. rewrite create_run. intros [= _ <-]. split.
  - intros r0 p H. exists p. split; [|unfold same_core; tauto]. simpl.
    rewrite lookup_insert_ne; [exact H|].
    intros <-. rewrite fresh_not_in in H. discriminate.
  - simpl. apply Hset.
Qed.

Lemma frame_fill (field : SatellitePass -> ref) (d : detail) :
  respects frame (fill field d).
Proof.
  intros w r w'. rewrite fill_run.
  destruct (heap w !! field (this w)) as [p|] eqn:E.
  - intros [= _ <-]. split; [|simpl; tauto].
    intros r0 p0 H. simpl. destruct (decide (field (this w) = r0)) as [<-|N].
    + rewrite lookup_insert_eq. exists (set_detail d p). split; [reflexivity|].
      replace p0 with p by congruence. apply same_core_set_detail.
    + rewrite lookup_insert_ne by exact N. exists p0. split; [exact H|].
      unfold same_core; tauto.
  - intros [= _ <-]. reflexivity.
Qed.

Ltac respects_step :=
  first [ apply respects_lift; apply _
        | apply respects_ret; apply _
        | apply frame_fill
        | apply frame_create; intros; simpl; tauto
        | intros w r w' ->%rise_set_timestamps_pure; reflexivity
        | apply respects_bind; try apply _; [ | intros ?] ];
  try match goal with
      | |- respects _ (let '(_, _) := ?x in _) => destruct x
      end.

Lemma frame_get_details (table : list (list string)) :
  respects frame (get_details table).
Proof.
  unfold get_details. repeat respects_step.
Qed.

(** ** Successful runs of [get_details] *)




Lemma item_Ok {A : Type} (l : list A) (i : nat) (x : A) :
  item l i = Ok x <-> l !! i = Some x.
Proof. unfold item. destruct (l !! i); split; congruence. Qed.



(** What a successful run went through, and where it ends. *)
Lemma get_details_Ok (table : list (list string)) (w w' : world) :
  get_details table w = (Ok tt, w') ->
  exists rises starts highest ends sets rises_ts sets_ts d0 d4 w4,
    table !! 0%nat = Some rises /\ table !! 1%nat = Some starts
    /\ table !! 2%nat = Some highest /\ table !! 3%nat = Some ends
    /\ table !! 4%nat = Some sets
    /\ rise_set_timestamps rises sets w = (Ok (rises_ts, sets_ts), w)
    /\ parse_detail rises = Ok d0 /\ parse_detail sets = Ok d4
    /\ frame (snd (create RisesPosition rises_ts d0 set_rises w)) w4
    /\ this w4 = set_rises (fresh (dom (heap w))) (this w)
    /\ w' = snd (create SetsPosition sets_ts d4 set_sets w4).
Proof.
  unfold get_details. intros H.
  apply run_bind_Ok in H as (rises & ? & [E0 ->]%run_lift & H).
  apply run_bind_Ok in H as (starts & ? & [E1 ->]%run_lift & H).
  apply run_bind_Ok in H as (highest & ? & [E2 ->]%run_lift & H).
  apply run_bind_Ok in H as (ends & ? & [E3 ->]%run_lift & H).
  apply run_bind_Ok in H as (sets & ? & [E4 ->]%run_lift & H).
  apply run_bind_Ok in H as ([rises_ts sets_ts] & w0 & Hts & H).
  pose proof (rise_set_timestamps_pure _ _ _ _ _ Hts) as <-.
  apply run_bind_Ok in H as (d0 & ? & [P0 ->]%run_lift & H).
  apply run_bind_Ok in H as ([] & w1 & C1 & H).
  apply run_bind_Ok in H as (d1 & ? & [P1 ->]%run_lift & H).
  apply run_bind_Ok in H as ([] & w2 & F1 & H).
  apply run_bind_Ok in H as (d2 & ? & [P2 ->]%run_lift & H).
  apply run_bind_Ok in H as ([] & w3 & F2 & H).
  apply run_bind_Ok in H as (d3 & ? & [P3 ->]%run_lift & H).
  apply run_bind_Ok in H as ([] & w4 & F3 & H).
  apply run_bind_Ok in H as (d4 & ? & [P4 ->]%run_lift & H).
  exists rises, starts, highest, ends, sets, rises_ts, sets_ts, d0, d4, w4.
  symmetry in E0, E1, E2, E3, E4. apply item_Ok in E0, E1, E2, E3, E4.
  split_and!; try assumption; try congruence.
  - rewrite C1. simpl.
    transitivity w2; [exact (frame_fill _ _ _ _ _ F1)|].
    transitivity w3; [exact (frame_fill _ _ _ _ _ F2)|].
    exact (frame_fill _ _ _ _ _ F3).
  - rewrite fill_run in F1, F2, F3. rewrite create_run in C1.
    injection C1 as <-.
    destruct (heap _ !! _) in F1; [|discriminate]. injection F1 as <-.
    destruct (heap _ !! _) in F2; [|discriminate]. injection F2 as <-.
    destruct (heap _ !! _) in F3; [|discriminate]. injection F3 as <-.
    reflexivity.
  - rewrite H. reflexivity.
Qed.

(** C10.  A successful enrichment leaves the starts, highest and ends
    records of the pass in place, with the class, timestamp, altitude
    and direction they had: they change at most in their direction in
    degrees, distance, brightness and sun altitude. *)
Theorem enrichment_keeps_summary (table : list (list string)) (w w' : world) :
  get_details table w = (Ok tt, w') ->
  (forall p, pass.starts w = Some p ->
     exists p', pass.starts w' = Some p' /\ same_core p p')
  /\ (forall p, pass.highest w = Some p ->
        exists p', pass.highest w' = Some p' /\ same_core p p')
  /\ (forall p, pass.ends w = Some p ->
        exists p', pass.ends w' = Some p' /\ same_core p p').
Proof.
  intros H. destruct (frame_get_details _ _ _ _ H) as (Hh & Es & Eh & Ee & _).
  unfold pass.starts, pass.highest, pass.ends, pass_position. simpl.
  rewrite Es, Eh, Ee. repeat split; intros p Hp; exact (Hh _ _ Hp).
Qed.


(** ** Failing runs of [get_details] *)

Section Raising.
Context {S : Type} (R : S -> S -> Prop) `{!Reflexive R} `{!Transitive R}.

(** As [respects], for the runs that raise only. *)
Definition respects_raising {A : Type} (m : prog S A) : Prop :=
  forall s e s', m s = (Raise e, s') -> R s s'.

Lemma respects_raising_weaken {A : Type} (m : prog S A) :
  respects R m -> respects_raising m.
Proof. intros H s e s' E. exact (H _ _ _ E). Qed.

Lemma respects_raising_bind {A B : Type} (m : prog S A) (f : A -> prog S B) :
  respects R m -> (forall a, respects_raising (f a)) ->
  respects_raising (m ≫= f).
Proof.
  intros Hm Hf s e s' [H|(a & s1 & H1 & H2)]%run_bind_Raise.
  - exact (Hm _ _ _ H).
  - transitivity s1; [exact (Hm _ _ _ H1) | exact (Hf _ _ _ _ H2)].
Qed.
End Raising.

(** The frame, and the same rises and sets references. *)
Definition frame_refs (w w' : world) : Prop :=
  frame w w'
  /\ _rises (this w') = _rises (this w)
  /\ _sets (this w') = _sets (this w).

Global Instance frame_refs_refl : Reflexive frame_refs.
Proof. intros w. split; [reflexivity | tauto]. Qed.

Global Instance frame_refs_trans : Transitive frame_refs.
Proof.
  intros w1 w2 w3 (F1 & A1 & B1) (F2 & A2 & B2).
  split; [transitivity w2; assumption | split; congruence].
Qed.

Lemma frame_refs_fill (field : SatellitePass -> ref) (d : detail) :
  respects frame_refs (fill field d).
Proof.
  intros w r w' H. split; [exact (frame_fill _ _ _ _ _ H)|].
  rewrite fill_run in H. destruct (heap w !! field (this w));
    injection H as _ <-; simpl; tauto.
Qed.

Lemma create_never_raises (c : position_class) (ts : datetime) (d : detail)
    (set : ref -> SatellitePass -> SatellitePass)
    (R : world -> world -> Prop) :
  respects_raising R (create c ts d set).
Proof. intros w e w'. rewrite create_run. discriminate. Qed.

(** C5, as amended.  Enrichment is not undone when it fails.  A failing
    run leaves the pass either exactly as it was, or with a new rises
    record, made from the first row of the table, that was not there
    before; in both cases no object of the store has lost its class,
    timestamp, altitude or direction, the pass refers to the same
    starts, highest and ends, and sets is as it was. *)
Theorem enrichment_failure (table : list (list string)) (w w' : world)
    (e : exn) :
  get_details table w = (Raise e, w') ->
  frame w w'
  /\ _sets (this w') = _sets (this w)
  /\ (w' = w
      \/ exists rises d r p,
           table !! 0%nat = Some rises /\ parse_detail rises = Ok d
           /\ heap w !! r = None
           /\ _rises (this w') = Some r /\ heap w' !! r = Some p
           /\ _class p = RisesPosition /\ _altitude p = 0
           /\ _direction p = d_direction d).
Proof.
  intros H. split; [exact (frame_get_details _ _ _ _ H)|].
  unfold get_details in H.
  apply run_bind_Raise in H
    as [[_ ->]%run_lift | (rises & ? & [E0 ->]%run_lift & H)]; [tauto|].
  apply run_bind_Raise in H
    as [[_ ->]%run_lift | (starts & ? & [E1 ->]%run_lift & H)]; [tauto|].
  apply run_bind_Raise in H
    as [[_ ->]%run_lift | (highest & ? & [E2 ->]%run_lift & H)]; [tauto|].
  apply run_bind_Raise in H
    as [[_ ->]%run_lift | (ends & ? & [E3 ->]%run_lift & H)]; [tauto|].
  apply run_bind_Raise in H
    as [[_ ->]%run_lift | (sets & ? & [E4 ->]%run_lift & H)]; [tauto|].
  apply run_bind_Raise in H
    as [<-%rise_set_timestamps_pure
       | ([rises_ts sets_ts] & ? & <-%rise_set_timestamps_pure & H)]; [tauto|].
  apply run_bind_Raise in H
    as [[_ ->]%run_lift | (d & ? & [P0 ->]%run_lift & H)]; [tauto|].
  apply run_bind_Raise in H as [H | ([] & w1 & C & H)];
    [rewrite create_run in H; discriminate|].
  assert (T : frame_refs w1 w').
  { revert H. generalize w1 e w'.
    change (respects_raising frame_refs
      (d ← lift (parse_detail starts);
       _ ← fill _starts d;
       d ← lift (parse_detail highest);
       _ ← fill _highest d;
       d ← lift (parse_detail ends);
       _ ← fill _ends d;
       d ← lift (parse_detail sets);
       create SetsPosition sets_ts d set_sets)).
    repeat (apply respects_raising_bind; try apply _;
            [first [apply respects_lift; apply _ | apply frame_refs_fill]
            | intros ?]).
    apply create_never_raises. }
  rewrite create_run in C. injection C as <-.
  destruct T as ((Hh & _) & Er & Es). simpl in *.
  split; [exact Es|]. right.
  destruct (Hh (fresh (dom (heap w))) _ (lookup_insert_eq _ _ _))
    as (p & Hp & Ec & _ & Ea & Ed). simpl in *.
  exists rises, d, (fresh (dom (heap w))), p.
  symmetry in E0. apply item_Ok in E0.
  split_and!; try assumption; [congruence | apply fresh_not_in].
Qed.

(** ** A pass over midnight, as a running example *)

Module Example.

Definition now : datetime := mkdt 2024 6 10 0 0 0 0.
Definition iss : Satellite := mkSatellite 25544 "ISS" None None None.
Definition here : pyfloat := FNum 0 0.

Definition degrees (n : string) : string := n ++ DEGREE.
Definition azimuth (n label : string) : string :=
  n ++ DEGREE ++ " (" ++ label ++ ")".

(** A row of the summary table: start 23:58:00, highest point
    00:02:00, end 00:05:00. *)
Definition row : summary_row :=
  mkRow "PassDetails.aspx?satid=25544"
    ["15 Jun"; "-2.3";
     "23:58:00"; degrees "10"; "NW";
     "00:02:00"; degrees "45"; "NE";
     "00:05:00"; degrees "10"; "E";
     "visible"].

(** The detail table of the same pass: it rises at 23:56:30 and sets
    at 00:07:10. *)
Definition table : list (list string) :=
  [["Rises"; "23:56:30"; degrees "0"; azimuth "300" "WNW";
    "2,345 km"; "-"; degrees "-5.1"];
   ["Reaches altitude 10" ++ DEGREE; "23:58:00"; degrees "10";
    azimuth "310" "NW"; "1,500 km"; "-1.2"; degrees "-5.2"];
   ["Maximum altitude"; "00:02:00"; degrees "45"; azimuth "20" "NNE";
    "1,234 km"; "-2.3"; degrees "-5.9"];
   ["Drops below altitude 10" ++ DEGREE; "00:05:00"; degrees "10";
    azimuth "90" "E"; "1,500 km"; "-1.0"; degrees "-6.2"];
   ["Sets"; "00:07:10"; degrees "0"; azimuth "100" "E";
    "2,300 km"; "-"; degrees "-6.5"]].

(** The same table with an azimuth that cannot be read in the
    starts row. *)
Definition broken_table : list (list string) :=
  <[1%nat := ["Reaches altitude 10" ++ DEGREE; "23:58:00"; degrees "10";
              "north-west"; "1,500 km"; "-1.2"; degrees "-5.2"]]> table.

(** The pass that [Satellite.passes] makes of [row]. *)
Definition summary : world :=
  mkWorld
    (<[2%nat := Position_init EndsPosition (mkdt 2024 6 16 0 5 0 0) 10 "E"]>
     (<[1%nat := Position_init HighestPosition (mkdt 2024 6 16 0 2 0 0) 45 "NE"]>
      (<[0%nat := Position_init StartsPosition (mkdt 2024 6 15 23 58 0 0) 10 "NW"]>
       ∅)))
    (mkSatellitePass iss here here (Some "-2.3") None 0%nat 1%nat 2%nat None
       "visible" "PassDetails.aspx?satid=25544").

Lemma summary_of_row :
  pass_of_row iss here here now row ∅ = (Ok (this summary), heap summary).
Proof. vm_compute. reflexivity. Qed.

(** The pass after its enrichment from [table]. *)
Definition enriched : world := snd (get_details table summary).

Lemma enriched_run : get_details table summary = (Ok tt, enriched).
Proof. vm_compute. reflexivity. Qed.

(** The pass after the failed enrichment from [broken_table]. *)
Definition half_enriched : world := snd (get_details broken_table summary).

Lemma half_enriched_run :
  get_details broken_table summary = (Raise AttributeError, half_enriched).
Proof. vm_compute. reflexivity. Qed.

End Example.

Lemma enrichment_keeps_summary_witness :
  (forall p, pass.starts Example.summary = Some p ->
     exists p', pass.starts Example.enriched = Some p' /\ same_core p p')
  /\ (forall p, pass.highest Example.summary = Some p ->
        exists p', pass.highest Example.enriched = Some p' /\ same_core p p')
  /\ (forall p, pass.ends Example.summary = Some p ->
        exists p', pass.ends Example.enriched = Some p' /\ same_core p p').
Proof.
  apply (enrichment_keeps_summary Example.table Example.summary Example.enriched).
  vm_compute. reflexivity.
Defined.


Lemma enrichment_failure_witness :
  frame Example.summary Example.half_enriched
  /\ _sets (this Example.half_enriched) = _sets (this Example.summary)
  /\ (Example.half_enriched = Example.summary
      \/ exists rises d r p,
           Example.broken_table !! 0%nat = Some rises
           /\ parse_detail rises = Ok d
           /\ heap Example.summary !! r = None
           /\ _rises (this Example.half_enriched) = Some r
           /\ heap Example.half_enriched !! r = Some p
           /\ _class p = RisesPosition /\ _altitude p = 0
           /\ _direction p = d_direction d).
Proof.
  apply (enrichment_failure Example.broken_table Example.summary
           Example.half_enriched AttributeError).
  vm_compute. reflexivity.
Defined.

(** C5 as stated fails: the enrichment of [Example.summary] from
    [Example.broken_table] raises on the starts row, and the rises
    record made from the first row is still there afterwards. *)
Lemma enrichment_failure_counterexample :
  ~ (forall (table : list (list string)) (w w' : world) (e : exn),
        get_details table w = (Raise e, w') -> w' = w).
Proof.
  intros H.
  specialize (H _ _ _ _ Example.half_enriched_run).
  apply (f_equal (fun w => _rises (this w))) in H.
  vm_compute in H. discriminate H.
Qed.

(** C4: the timeline of [Example.row] after its enrichment from
    [Example.table].  The pass ends on 16 June at 00:05:00 and its set,
    at 00:07:10, is dated 14 June: the set candidate, built on the date
    of the start (15 June), is earlier than the end and is moved a day
    back.  Independently, a start that is rolled into the following
    year leaves the highest point and the end in the year of the clock. *)
Theorem timeline_order_broken :
  (_timestamp <$> pass.ends Example.enriched = Some (mkdt 2024 6 16 0 5 0 0)
   /\ _timestamp <$> pass.sets Example.enriched = Some (mkdt 2024 6 14 0 7 10 0)
   /\ mkdt 2024 6 14 0 7 10 0 ≺ mkdt 2024 6 16 0 5 0 0)
  /\ (let now := mkdt 2024 12 31 12 0 0 0 in
      let starts := mkdt 2025 1 1 21 0 0 0 in
      let highest := mkdt 2024 1 2 21 3 30 0 in
      _make_timestamp "01" "Jan" "21:00:00" None now = Ok starts
      /\ _make_timestamp "01" "Jan" "21:03:30" (Some starts) now = Ok highest
      /\ highest ≺ starts).
Proof. vm_compute. repeat split; reflexivity. Qed.

(** ** The text fields of a detail row *)

Lemma str_forall_filter (p : ascii -> bool) (s : string) :
  str_forall p (str_filter p s) = true.
Proof.
  induction s as [|c s IH]; simpl; [reflexivity|].
  destruct (p c) eqn:E; simpl; [rewrite E|]; exact IH.
Qed.

Lemma digit_val_bounds (c : ascii) :
  is_digit c = true -> 0 <= digit_val c <= 9.
Proof.
  unfold is_digit, in_range, digit_val.
  rewrite andb_true_iff, !N.leb_le. lia.
Qed.

Lemma digits_val_nonneg (s : string) (acc : Z) :
  str_forall is_digit s = true -> 0 <= acc -> 0 <= digits_val acc s.
Proof.
  revert acc; induction s as [|c s IH]; simpl; intros acc H Hacc; [exact Hacc|].
  apply andb_true_iff in H as [Hc Hs]. apply IH; [exact Hs|].
  pose proof (digit_val_bounds c Hc). lia.
Qed.

Lemma parse_detail_Ok (row : list string) (d : detail) :
  parse_detail row = Ok d ->
  exists c3 c4 c5 c6,
    row !! 3%nat = Some c3 /\ row !! 4%nat = Some c4
    /\ row !! 5%nat = Some c5 /\ row !! 6%nat = Some c6
    /\ azimuth_groups c3 = Ok (d_degrees d, d_direction d)
    /\ d_distance d = str_filter distance_char c4
    /\ d_brightness d = c5
    /\ d_sun_altitude d = str_filter sun_altitude_char c6.
Proof.
  unfold parse_detail. intros H.
  apply bind_Ok in H as ([degrees direction] & H3 & H).
  apply bind_Ok in H3 as (c3 & E3%item_Ok & A).
  apply bind_Ok in H as (c4 & E4%item_Ok & H).
  apply bind_Ok in H as (c5 & E5%item_Ok & H).
  apply bind_Ok in H as (c6 & E6%item_Ok & H).
  injection H as <-. exists c3, c4, c5, c6. simpl. tauto.
Qed.

(** C7.  The distance is never parsed as a number.  [get_details]
    drops from the text of the fifth cell of a row every character
    that is not a digit (a minus sign and a decimal point go too) and
    stores the text that is left; the [distance] property returns what
    is stored.  For ["1,234 km"] that is the text ["1234"], not the
    integer that the annotation [-> int] of the property announces,
    and for a cell without a digit it is the empty text.  The altitude
    of the same position, converted with [int()] when the pass was
    made, is an integer. *)
Theorem distance_not_parsed :
  (forall (row : list string) (d : detail),
      parse_detail row = Ok d ->
      exists raw,
        row !! 4%nat = Some raw
        /\ forall p, position.distance (set_detail d p)
                     = Some (str_filter is_digit raw))
  /\ (forall table w w' sets raw,
        get_details table w = (Ok tt, w') ->
        table !! 4%nat = Some sets -> sets !! 4%nat = Some raw ->
        position.distance <$> pass.sets w'
        = Some (Some (str_filter is_digit raw)))
  /\ Example.table !! 2%nat
     = Some ["Maximum altitude"; "00:02:00"; Example.degrees "45";
             Example.azimuth "20" "NNE"; "1,234 km"; "-2.3";
             Example.degrees "-5.9"]
  /\ position.distance <$> pass.highest Example.enriched = Some (Some "1234")
  /\ position.altitude <$> pass.highest Example.enriched = Some 45
  /\ parse_detail ["Maximum altitude"; "00:02:00"; Example.degrees "45";
                   Example.azimuth "20" "NNE"; "1,234.5 km"; "-2.3";
                   Example.degrees "-5.9"]
     = Ok (mkDetail "20" "NNE" "12345" "-2.3" "-5.9")
  /\ parse_detail ["Maximum altitude"; "00:02:00"; Example.degrees "45";
                   Example.azimuth "20" "NNE"; "n/a"; "-2.3";
                   Example.degrees "-5.9"]
     = Ok (mkDetail "20" "NNE" "" "-2.3" "-5.9").
Proof.
  split_and!; [ | | vm_compute; reflexivity ..].
  - intros row d (c3 & c4 & c5 & c6 & _ & E4 & _ & _ & _ & Ed & _)%parse_detail_Ok.
    exists c4. split; [exact E4|]. intros p.
    unfold position.distance. simpl. rewrite Ed. reflexivity.
  - intros table w w' sets raw H T4 S4.
    apply get_details_Ok in H
      as (rises & starts & highest & ends & sets' & rises_ts & sets_ts & d0
          & d4 & w4 & _ & _ & _ & _ & T4' & _ & _ & P4 & _ & _ & ->).
    assert (sets' = sets) as -> by congruence.
    apply parse_detail_Ok in P4
      as (c3 & c4 & c5 & c6 & _ & E4 & _ & _ & _ & Ed & _).
    assert (c4 = raw) as -> by congruence.
    rewrite create_run. unfold pass.sets, pass_position. simpl.
    rewrite lookup_insert_eq. simpl. unfold position.distance. simpl.
    rewrite Ed. reflexivity.
Qed.

(** ** Brightness *)

Lemma float_dash : py_float "-" = Raise ValueError.
Proof. reflexivity. Qed.

(** C8: what the two [brightness] properties give for a cell that
    reads ["-"].  The pass made of a summary row has no brightness; the
    sets position of an enriched pass raises [ValueError], since the
    text of the cell is stored as it is and [float("-")] is refused.
    A cell that reads ["-2.3"] gives that number in both places. *)
Theorem brightness_dash :
  (forall self lat lon now row h p h',
      pass_of_row self lat lon now row h = (Ok p, h') ->
      row_td row !! 1%nat = Some "-" ->
      pass_brightness p = Ok None)
  /\ (forall table w w' sets,
        get_details table w = (Ok tt, w') ->
        table !! 4%nat = Some sets -> sets !! 5%nat = Some "-" ->
        exists p, pass.sets w' = Some p
                  /\ position.brightness p = Raise ValueError)
  /\ pass_brightness (this Example.summary) = Ok (Some (FNum (-23) (-1)))
  /\ position.brightness <$> pass.highest Example.enriched
     = Some (Ok (Some (FNum (-23) (-1))))
  /\ position.brightness <$> pass.rises Example.enriched
     = Some (Raise ValueError).
Proof.
  split_and!; [ | | vm_compute; reflexivity ..].
  - intros self lat lon now row h p h' H E. unfold pass_of_row in H.
    apply run_bind_Ok in H as (td0 & ? & _ & H).
    apply run_bind_Ok in H as ([day month] & ? & _ & H).
    apply run_bind_Ok in H as (b & ? & [Eb _]%run_lift & H).
    symmetry in Eb. apply item_Ok in Eb.
    assert (b = "-") as -> by congruence.
    repeat (apply run_bind_Ok in H as (? & ? & _ & H)).
    injection H as <- _. reflexivity.
  - intros table w w' sets H T4 S5.
    apply get_details_Ok in H
      as (rises & starts & highest & ends & sets' & rises_ts & sets_ts & d0
          & d4 & w4 & _ & _ & _ & _ & T4' & _ & _ & P4 & _ & _ & ->).
    assert (sets' = sets) as -> by congruence.
    apply parse_detail_Ok in P4
      as (c3 & c4 & c5 & c6 & _ & _ & E5 & _ & _ & _ & Eb & _).
    assert (c5 = "-") as -> by congruence.
    rewrite create_run. unfold pass.sets, pass_position. simpl.
    rewrite lookup_insert_eq. eexists. split; [reflexivity|].
    unfold position.brightness. simpl. rewrite Eb. reflexivity.
Qed.

(** ** The groups of a match *)

(** The names of the groups of a pattern. *)
Fixpoint group_names (r : regex) : list string :=
  match r with
  | Chr _ | Plus _ => []
  | Seq r1 r2 | Alt r1 r2 => (group_names r1 ++ group_names r2)%list
  | Group name r1 => name :: group_names r1
  end.

Lemma star_Some (p : ascii -> bool) (s : string) (g : groups) (k : cont)
    (res : string * groups) :
  star p s g k = Some res -> exists s', k s' g = Some res.
Proof.
  induction s as [|c s IH]; simpl; [eauto|].
  destruct (p c); [|eauto].
  destruct (star p s g k) eqn:E; [|eauto].
  intros [= <-]. apply IH. reflexivity.
Qed.

(** A match only adds groups, on top of those it started with, and
    only groups of its pattern. *)
Lemma rmatch_Some (r : regex) :
  forall (s : string) (g : groups) (k : cont) (res : string * groups),
    rmatch r s g k = Some res ->
    exists s' new,
      k s' (new ++ g)%list = Some res
      /\ Forall (fun x => In (fst x) (group_names r)) new.
Proof.
  induction r as [p|r1 IH1 r2 IH2|r1 IH1 r2 IH2|p|name r1 IH1];
    intros s g k res H; simpl in H.
  - destruct s as [|c s]; [discriminate|]. destruct (p c); [|discriminate].
    exists s, []. split; [exact H | constructor].
  - apply IH1 in H as (s1 & new1 & H & F1).
    apply IH2 in H as (s2 & new2 & H & F2).
    exists s2, (new2 ++ new1)%list. rewrite <- app_assoc. split; [exact H|].
    apply Forall_app. split; eapply Forall_impl; try eassumption;
      simpl; intros x Hx; apply in_or_app; tauto.
  - destruct (rmatch r1 s g k) eqn:E.
    + injection H as ->. apply IH1 in E as (s1 & new1 & H & F1).
      exists s1, new1. split; [exact H|].
      eapply Forall_impl; [exact F1|].
      simpl; intros x Hx; apply in_or_app; tauto.
    + apply IH2 in H as (s2 & new2 & H & F2).
      exists s2, new2. split; [exact H|].
      eapply Forall_impl; [exact F2|].
      simpl; intros x Hx; apply in_or_app; tauto.
  - destruct s as [|c s]; [discriminate|]. destruct (p c); [|discriminate].
    apply star_Some in H as (s' & H). exists s', []. split; [exact H | constructor].
  - apply IH1 in H as (s1 & new1 & H & F1).
    exists s1, ((name, consumed s s1) :: new1). split; [exact H|].
    constructor; [simpl; tauto|].
    eapply Forall_impl; [exact F1|]. simpl; tauto.
Qed.

Lemma group_app_other (name : string) (new g : groups) :
  Forall (fun x => fst x <> name) new -> group name (new ++ g)%list = group name g.
Proof.
  induction 1 as [|[n v] new Hn _ IH]; simpl; [reflexivity|].
  destruct (String.eqb_spec n name) as [E|E]; [exact (False_ind _ (Hn E)) | exact IH].
Qed.

(** ** The date part of a well-formed fragment *)

(** What the external interface promises of a fragment: the month is a
    capitalised English abbreviation, the day is one or two digits. *)
Definition MONTHS : list string :=
  ["Jan"; "Feb"; "Mar"; "Apr"; "May"; "Jun";
   "Jul"; "Aug"; "Sep"; "Oct"; "Nov"; "Dec"].

Definition numeral (s : string) : bool :=
  str_forall is_digit s
  && (Nat.leb 1 (String.length s)) && (Nat.leb (String.length s) 2).

Definition well_formed (sday smonth : string) : Prop :=
  In smonth MONTHS /\ numeral sday = true.

(** The day that [%d] accepts in a numeral. *)
Definition day_ok (sday : string) : bool :=
  ((1 <=? digits_val 0 sday) && (digits_val 0 sday <=? 31))%Z.

Lemma digit_cases (c : ascii) :
  is_digit c = true ->
  In c (list_ascii_of_string "0123456789").
Proof.
  destruct c as [[] [] [] [] [] [] [] []]; vm_compute; intros H;
    try discriminate H; tauto.
Qed.

Lemma numeral_cases (s : string) :
  numeral s = true ->
  exists c, is_digit c = true
            /\ (s = String c EmptyString
                \/ exists c', is_digit c' = true /\ s = String c (String c' EmptyString)).
Proof.
  unfold numeral. destruct s as [|c [|c' [|c'' s]]]; simpl;
    rewrite ?andb_true_r, ?andb_false_r; try discriminate.
  - intros H. exists c. tauto.
  - intros [H1 H2]%andb_true_iff. exists c. split; [exact H1|]. right.
    exists c'. tauto.
Qed.

Lemma digit_not_space (c : ascii) : is_digit c = true -> is_space c = false.
Proof. intros H%digit_cases. simpl in H. intuition (subst; reflexivity). Qed.

Lemma consumed_refl (s : string) : consumed s s = EmptyString.
Proof.
  unfold consumed. rewrite Nat.sub_diag. destruct s; reflexivity.
Qed.

Lemma consumed_cons (c : ascii) (s rest : string) :
  (String.length rest <= String.length s)%nat ->
  consumed (String c s) rest = String c (consumed s rest).
Proof.
  unfold consumed. intros H. simpl String.length.
  rewrite Nat.sub_succ_l by exact H. reflexivity.
Qed.

Lemma consumed_app (p s : string) : consumed (p ++ s) s = p.
Proof.
  induction p as [|c p IH]; [apply consumed_refl|].
  change (String c p ++ s) with (String c (p ++ s)).
  rewrite consumed_cons, IH; [reflexivity|].
  clear IH. induction p as [|c' p IH]; simpl; [apply Nat.le_refl|].
  apply Nat.le_le_succ_r, IH.
Qed.

(** What follows in the pattern starts with [\s+]. *)
Definition needs_space (k : cont) : Prop :=
  forall c s g, is_space c = false -> k (String c s) g = None.

Lemma ws_needs_space (r : regex) (k : cont) :
  needs_space (fun s g => rmatch (Seq ws r) s g k).
Proof. intros c s g H. simpl. rewrite H. reflexivity. Qed.

(** One space, then something that is not white space. *)
Lemma ws_one (c : ascii) (s : string) (g : groups) (k : cont) :
  is_space c = false ->
  rmatch ws (String " " (String c s)) g k = k (String c s) g.
Proof. intros H. simpl. rewrite H. reflexivity. Qed.

Lemma rmatch_Group (name : string) (r : regex) (s : string) (g : groups)
    (k : cont) :
  rmatch (Group name r) s g k
  = rmatch r s g (fun s' g' => k s' ((name, consumed s s') :: g')).
Proof. reflexivity. Qed.

Lemma rmatch_Seq (r1 r2 : regex) (s : string) (g : groups) (k : cont) :
  rmatch (Seq r1 r2) s g k = rmatch r1 s g (fun s' g' => rmatch r2 s' g' k).
Proof. reflexivity. Qed.

Lemma month_alternatives (smonth s : string) (g : groups) (k : cont) :
  In smonth MONTHS ->
  rmatch (any_word lit_i a_month) (smonth ++ s) g k = k s g.
Proof.
  intros H. simpl in H.
  repeat (destruct H as [<-|H]; [vm_compute; destruct (k s g); reflexivity|]).
  destruct H.
Qed.

Lemma month_matches (smonth s : string) (g : groups) (k : cont) :
  In smonth MONTHS ->
  rmatch re_b (smonth ++ s) g k = k s (("b", smonth) :: g).
Proof.
  intros H. unfold re_b.
  rewrite rmatch_Group, month_alternatives by exact H.
  rewrite consumed_app. reflexivity.
Qed.

(** The alternatives of [%d] on a numeral that white space follows. *)
Lemma day_alternatives (sday s : string) (g : groups) (k : cont) :
  numeral sday = true -> needs_space k ->
  rmatch (Alt (Seq (lit "3") (range "0" "1"))
         (Alt (Seq (range "1" "2") digit)
         (Alt (Seq (lit "0") (range "1" "9"))
         (Alt (range "1" "9")
              (Seq (lit " ") (range "1" "9"))))))
    (sday ++ String " " s) g k
  = if day_ok sday then k (String " " s) g else None.
Proof.
  intros (c & Hc & H)%numeral_cases Hk.
  apply digit_cases in Hc. simpl in Hc.
  destruct H as [->|(c' & Hc' & ->)].
  - repeat (destruct Hc as [<-|Hc];
            [vm_compute; try reflexivity; destruct (k _ g); reflexivity|]).
    destruct Hc.
  - apply digit_cases in Hc'. simpl in Hc'.
    repeat (destruct Hc as [<-|Hc];
      [repeat (destruct Hc' as [<-|Hc'];
         [vm_compute;
          repeat match goal with
                 | |- context [k (String ?x ?y) ?z] =>
                     rewrite (Hk x y z eq_refl)
                 end;
          try reflexivity; destruct (k _ g); reflexivity|]);
       destruct Hc'|]).
    destruct Hc.
Qed.

Lemma day_matches (sday s : string) (g : groups) (k : cont) :
  numeral sday = true -> needs_space k ->
  rmatch re_d (sday ++ String " " s) g k
  = if day_ok sday then k (String " " s) (("d", sday) :: g) else None.
Proof.
  intros H Hk. unfold re_d. rewrite rmatch_Group, day_alternatives.
  - change (String " " s) with (" " ++ s) at 3.
    rewrite consumed_app. reflexivity.
  - exact H.
  - intros c s' g' Hc. apply Hk, Hc.
Qed.

(** A text of four digits, as [%Y] wants it. *)
Definition four_digits (s : string) : bool :=
  str_forall is_digit s && Nat.eqb (String.length s) 4.

Lemma year_digits (ytext s : string) (g : groups) (k : cont) :
  four_digits ytext = true ->
  rmatch (cat [digit; digit; digit] digit) (ytext ++ s) g k = k s g.
Proof.
  unfold four_digits.
  destruct ytext as [|y1 [|y2 [|y3 [|y4 [|y5 r]]]]]; simpl;
    rewrite ?andb_false_r; try discriminate.
  rewrite !andb_true_r, !andb_true_iff. intros (H1 & H2 & H3 & H4).
  change (String y1 (String y2 (String y3 (String y4 ""))) ++ s)
    with (String y1 (String y2 (String y3 (String y4 s)))).
  rewrite H1, H2, H3, H4. reflexivity.
Qed.

Lemma year_matches (ytext s : string) (g : groups) (k : cont) :
  four_digits ytext = true ->
  rmatch re_Y (ytext ++ s) g k = k s (("Y", ytext) :: g).
Proof.
  intros H. unfold re_Y.
  rewrite rmatch_Group, year_digits by exact H.
  rewrite consumed_app. reflexivity.
Qed.

Lemma four_digits_head (ytext : string) :
  four_digits ytext = true ->
  exists c r, ytext = String c r /\ is_space c = false.
Proof.
  unfold four_digits. destruct ytext as [|c r]; simpl; [discriminate|].
  intros [[H _]%andb_true_iff _]%andb_true_iff.
  exists c, r. split; [reflexivity | apply digit_not_space, H].
Qed.

Lemma numeral_head (sday : string) :
  numeral sday = true ->
  exists c r, sday = String c r /\ is_space c = false.
Proof.
  intros (c & Hc & [->|(c' & _ & ->)])%numeral_cases;
    eexists _, _; (split; [reflexivity | apply digit_not_space, Hc]).
Qed.

(** The groups that ["%b %d %Y"] finds in a well-formed date. *)
Definition date_groups (sday smonth ytext : string) : groups :=
  [("Y", ytext); ("d", sday); ("b", smonth)].

Lemma date_matches (sday smonth ytext s : string) (k : cont) :
  well_formed sday smonth -> four_digits ytext = true ->
  rmatch DATE_RE (smonth ++ " " ++ sday ++ " " ++ ytext ++ s) [] k
  = if day_ok sday then k s (date_groups sday smonth ytext) else None.
Proof.
  intros [Hm Hd] Hy. unfold DATE_RE, cat. simpl fold_right.
  rewrite rmatch_Seq, month_matches by exact Hm.
  destruct (numeral_head sday Hd) as (c & r & -> & Hc).
  destruct (four_digits_head ytext Hy) as (cy & ry & -> & Hcy).
  rewrite rmatch_Seq.
  change (" " ++ String c r ++ " " ++ String cy ry ++ s)
    with (String " " (String c (r ++ " " ++ String cy ry ++ s))).
  rewrite ws_one by exact Hc.
  rewrite rmatch_Seq.
  change (String c (r ++ " " ++ String cy ry ++ s))
    with (String c r ++ String " " (String cy (ry ++ s))).
  rewrite day_matches; [| exact Hd | apply ws_needs_space].
  destruct (day_ok (String c r)); [|reflexivity].
  rewrite rmatch_Seq, ws_one by exact Hcy.
  change (String cy (ry ++ s)) with (String cy ry ++ s).
  rewrite year_matches by exact Hy. reflexivity.
Qed.

(** The year of the clock, written out by [format], read back by [%Y]. *)
Definition year_text_ok (y : Z) : bool :=
  four_digits (py_str_int y)
  && match py_int (py_str_int y) with
     | Ok y' => (y' =? y)%Z
     | Raise _ => false
     end.

(** [f] holds of the [n] integers from [start] on. *)
Fixpoint all_from (f : Z -> bool) (start : Z) (n : nat) : bool :=
  match n with
  | O => true
  | S n' => f start && all_from f (start + 1) n'
  end.

Lemma all_from_spec (f : Z -> bool) (n : nat) :
  forall start y,
    all_from f start n = true ->
    (start <= y < start + Z.of_nat n)%Z -> f y = true.
Proof.
  induction n as [|n IH]; intros start y H Hy; simpl in H; [lia|].
  apply andb_true_iff in H as [H0 H].
  destruct (Z.eq_dec y start) as [->|N]; [exact H0|].
  apply (IH (start + 1)%Z); [exact H | lia].
Qed.

Lemma year_text_all : all_from year_text_ok 1000 (Z.to_nat 9000) = true.
Proof. vm_compute. reflexivity. Qed.

Lemma year_text (y : Z) :
  (1000 <= y <= 9999)%Z ->
  four_digits (py_str_int y) = true /\ py_int (py_str_int y) = Ok y.
Proof.
  intros H.
  assert (A : year_text_ok y = true).
  { apply (all_from_spec _ _ _ _ year_text_all).
    rewrite Z2Nat.id by lia. lia. }
  unfold year_text_ok in A.
  apply andb_true_iff in A as [I1 I2]. split; [exact I1|].
  destruct (py_int (py_str_int y)) as [y'|]; [|discriminate].
  apply Z.eqb_eq in I2. congruence.
Qed.

Lemma numeral_int (sday : string) :
  numeral sday = true -> py_int sday = Ok (digits_val 0 sday).
Proof.
  intros (c & Hc & H)%numeral_cases.
  apply digit_cases in Hc. simpl in Hc.
  destruct H as [->|(c' & Hc' & ->)].
  - repeat (destruct Hc as [<-|Hc]; [reflexivity|]). destruct Hc.
  - apply digit_cases in Hc'. simpl in Hc'.
    repeat (destruct Hc as [<-|Hc];
      [repeat (destruct Hc' as [<-|Hc']; [reflexivity|]); destruct Hc'|]).
    destruct Hc.
Qed.

(** The number of a month of [MONTHS]. *)
Definition month_number (smonth : string) : Z :=
  match index_from 1 (str_lower smonth) a_month with
  | Some i => i
  | None => 0
  end.

Lemma month_number_index (smonth : string) :
  In smonth MONTHS ->
  index_from 1 (str_lower smonth) a_month = Some (month_number smonth).
Proof.
  intros H. simpl in H.
  repeat (destruct H as [<-|H]; [reflexivity|]). destruct H.
Qed.

Lemma time_group_names : group_names TIME_RE = ["H"; "M"; "S"; "Z"].
Proof. reflexivity. Qed.

(** [strptime] on a well-formed date: the date groups are found
    whatever the time, and the time is matched after them. *)
Lemma strptime_well_formed (sday smonth stime : string) (y : Z)
    (ts : datetime) :
  well_formed sday smonth -> (1000 <= y <= 9999)%Z ->
  strptime (format_fragment smonth sday y stime) = Ok ts ->
  day_ok sday = true
  /\ year ts = y /\ month ts = month_number smonth
  /\ day ts = digits_val 0 sday.
Proof.
  intros Hwf Hy. destruct (year_text y Hy) as [Y4 Yint].
  unfold strptime, re_match, FORMAT_RE, format_fragment.
  rewrite rmatch_Seq, date_matches by assumption.
  destruct (day_ok sday); [|discriminate].
  destruct (rmatch TIME_RE _ _ accept) as [[rest g]|] eqn:E; [|discriminate].
  destruct rest; [|discriminate].
  apply rmatch_Some in E as (s' & new & [= _ <-] & Hn).
  rewrite time_group_names in Hn.
  assert (G : forall name, In name ["Y"; "d"; "b"] ->
               group name (new ++ date_groups sday smonth (py_str_int y))%list
               = group name (date_groups sday smonth (py_str_int y))).
  { intros name Hname. apply group_app_other.
    eapply Forall_impl; [exact Hn|]. cbv beta. intros x Hx <-.
    simpl in Hname, Hx. intuition congruence. }
  unfold of_groups, int_group. intros H. destruct Hwf as [Hm Hd].
  apply bind_Ok in H as (y0 & HY & H).
  rewrite (G "Y") in HY by (simpl; tauto).
  change (group "Y" _) with (Some (py_str_int y)) in HY. cbv iota in HY.
  apply bind_Ok in H as (m & HM & H).
  rewrite (G "b") in HM by (simpl; tauto).
  change (group "b" _) with (Some smonth) in HM. cbv iota in HM.
  rewrite (month_number_index _ Hm) in HM.
  apply bind_Ok in H as (d & HD & H).
  rewrite (G "d") in HD by (simpl; tauto).
  change (group "d" _) with (Some sday) in HD. cbv iota in HD.
  rewrite (numeral_int _ Hd) in HD.
  apply bind_Ok in H as (h & _ & H). apply bind_Ok in H as (mi & _ & H).
  apply bind_Ok in H as (s & _ & H).
  apply datetime_new_Ok in H as [-> _]. simpl.
  split_and!; congruence.
Qed.

Lemma constructed_date (sday smonth stime : string) (now ts : datetime) :
  well_formed sday smonth -> (1000 <= year now <= 9999)%Z ->
  constructed sday smonth stime now = Ok ts ->
  year ts = year now /\ month ts = month_number smonth
  /\ day ts = digits_val 0 sday.
Proof.
  intros Hwf Hy H. apply (strptime_well_formed _ _ _ _ _ Hwf Hy) in H. tauto.
Qed.

(** [strptime] on a well-formed date, as a match of the time alone. *)
Lemma strptime_time (sday smonth stime : string) (y : Z) :
  well_formed sday smonth -> (1000 <= y <= 9999)%Z ->
  strptime (format_fragment smonth sday y stime)
  = if day_ok sday then
      match rmatch TIME_RE (" " ++ stime ++ " UTC")
              (date_groups sday smonth (py_str_int y)) accept with
      | Some (EmptyString, g) => of_groups g
      | _ => Raise ValueError
      end
    else Raise ValueError.
Proof.
  intros Hwf Hy. destruct (year_text y Hy) as [Y4 _].
  unfold strptime, re_match, FORMAT_RE, format_fragment.
  rewrite rmatch_Seq, date_matches by assumption.
  destruct (day_ok sday); [|reflexivity].
  destruct (rmatch TIME_RE _ _ accept) as [[[|c rest] g]|]; reflexivity.
Qed.

(** A time of day written [HH:MM]. *)
Definition hh_mm (h1 h2 m1 m2 : ascii) : string :=
  String h1 (String h2 (String ":" (String m1 (String m2 EmptyString)))).

(** After the minutes of such a time the pattern wants a colon, and
    finds a digit or white space. *)
Lemma minutes_then_colon (m1 m2 : ascii) (s : string) (g : groups) (k : cont) :
  is_digit m1 = true -> is_digit m2 = true ->
  rmatch re_M (String m1 (String m2 (String " " s))) g
    (fun s' g' => rmatch (lit ":") s' g' k) = None.
Proof.
  intros H1%digit_cases H2%digit_cases. simpl in H1, H2.
  repeat (destruct H1 as [<-|H1];
    [repeat (destruct H2 as [<-|H2]; [vm_compute; reflexivity|]);
     destruct H2|]).
  destruct H1.
Qed.

Lemma hours_then (h1 h2 : ascii) (s : string) (g : groups) (k : cont) :
  is_digit h1 = true -> is_digit h2 = true ->
  (forall g', k s g' = None) ->
  rmatch re_H (String h1 (String h2 (String ":" s))) g
    (fun s' g' => rmatch (lit ":") s' g' k) = None.
Proof.
  intros H1%digit_cases H2%digit_cases Hk. simpl in H1, H2.
  repeat (destruct H1 as [<-|H1];
    [repeat (destruct H2 as [<-|H2];
       [vm_compute; rewrite ?Hk; reflexivity|]);
     destruct H2|]).
  destruct H1.
Qed.

Lemma time_without_seconds (h1 h2 m1 m2 : ascii) (g : groups) :
  is_digit h1 = true -> is_digit h2 = true ->
  is_digit m1 = true -> is_digit m2 = true ->
  rmatch TIME_RE (" " ++ hh_mm h1 h2 m1 m2 ++ " UTC") g accept = None.
Proof.
  intros H1 H2 M1 M2. unfold TIME_RE, cat. simpl fold_right.
  set (rest := Seq re_S (Seq ws re_Z)).
  change (" " ++ hh_mm h1 h2 m1 m2 ++ " UTC")
    with (String " " (String h1 (String h2 (String ":"
            (String m1 (String m2 (String " " "UTC"))))))).
  rewrite rmatch_Seq, ws_one by (apply digit_not_space, H1).
  change (rmatch re_H
            (String h1 (String h2 (String ":"
               (String m1 (String m2 (String " " "UTC")))))) g
            (fun s1 g1 => rmatch (lit ":") s1 g1
               (fun s2 g2 => rmatch re_M s2 g2
                  (fun s3 g3 => rmatch (lit ":") s3 g3
                     (fun s4 g4 => rmatch rest s4 g4 accept)))) = None).
  apply hours_then; [exact H1 | exact H2 |].
  intros g'. apply minutes_then_colon; assumption.
Qed.

(** C6: a time without seconds is refused.  For every well-formed day
    and month, every clock in a year of four digits and every anchor,
    a time written [HH:MM] makes [_make_timestamp] raise [ValueError];
    the time 21:00:00, with its seconds, is read. *)
Theorem seconds_required (sday smonth : string) (now : datetime)
    (anchor : option datetime) (h1 h2 m1 m2 : ascii) :
  well_formed sday smonth -> (1000 <= year now <= 9999)%Z ->
  is_digit h1 = true -> is_digit h2 = true ->
  is_digit m1 = true -> is_digit m2 = true ->
  _make_timestamp sday smonth (hh_mm h1 h2 m1 m2) anchor now
  = Raise ValueError
  /\ (constructed sday smonth "21:00:00" now
      = datetime_new (year now) (month_number smonth) (digits_val 0 sday)
          21 0 0 0
      \/ day_ok sday = false).
Proof.
  intros Hwf Hy H1 H2 M1 M2. unfold _make_timestamp, constructed.
  rewrite !strptime_time by assumption.
  destruct (year_text _ Hy) as [_ Yint]. destruct Hwf as [Hm Hd].
  destruct (day_ok sday); [|split; [reflexivity | right; reflexivity]].
  split.
  - rewrite time_without_seconds by assumption. reflexivity.
  - left.
    assert (E : forall g,
               rmatch TIME_RE (" " ++ "21:00:00" ++ " UTC") g accept
               = Some (EmptyString,
                       [("Z", "UTC"); ("S", "00"); ("M", "00"); ("H", "21")]
                         ++ g)%list).
    { intros g. unfold TIME_RE, cat. simpl fold_right.
      rewrite !rmatch_Seq. reflexivity. }
    rewrite E. unfold of_groups, int_group, date_groups.
    cbn [app group String.eqb Ascii.eqb Bool.eqb].
    rewrite Yint, (numeral_int _ Hd), (month_number_index _ Hm). reflexivity.
Qed.

(** The time 21:00 on 15 June under the clock 2024-06-10T00:00:00. *)
Lemma seconds_required_witness :
  _make_timestamp "15" "Jun" "21:00" None Example.now = Raise ValueError
  /\ (constructed "15" "Jun" "21:00:00" Example.now
      = datetime_new (year Example.now) (month_number "Jun")
          (digits_val 0 "15") 21 0 0 0
      \/ day_ok "15" = false).
Proof.
  apply (seconds_required "15" "Jun" Example.now None "2" "1" "0" "0");
    [ split; [simpl; tauto | reflexivity]
    | vm_compute; split; discriminate
    | reflexivity | reflexivity | reflexivity | reflexivity ].
Defined.

(** ** The chain of a summary row *)

(** [_make_timestamp] once the timestamp is constructed. *)
Lemma make_timestamp_eq (sday smonth stime : string)
    (newer_than : option datetime) (now ts yesterday : datetime) :
  constructed sday smonth stime now = Ok ts ->
  sub_one_day now = Ok yesterday ->
  _make_timestamp sday smonth stime newer_than now
  = if match newer_than with
       | Some anchor => dt_ltb ts anchor
       | None => false
       end
    then add_one_day ts
    else if dt_ltb ts yesterday then replace_year ts (year ts + 1)
    else Ok ts.
Proof. intros H1 H2. unfold _make_timestamp. rewrite H1, H2. reflexivity. Qed.

(** The part of the day that has gone by, in microseconds. *)
Definition time_of_day_us (t : datetime) : Z :=
  (((hour t * 60 + minute t) * 60 + second t) * 1000000 + microsecond t)%Z.

Lemma since_epoch_us_split (t : datetime) :
  since_epoch_us t = ((toordinal t - 1) * US_PER_DAY + time_of_day_us t)%Z.
Proof. unfold since_epoch_us, time_of_day_us. lia. Qed.

Lemma time_of_day_bounds (t : datetime) :
  valid_dt t = true -> (0 <= time_of_day_us t < US_PER_DAY)%Z.
Proof.
  intros (_ & H)%valid_dt_iff. unfold time_of_day_us, US_PER_DAY. lia.
Qed.

Definition same_date (a b : datetime) : Prop :=
  year a = year b /\ month a = month b /\ day a = day b.

Lemma same_date_ordinal (a b : datetime) :
  same_date a b -> toordinal a = toordinal b.
Proof. intros (Ey & Em & Ed). unfold toordinal. rewrite Ey, Em, Ed. reflexivity. Qed.


Lemma dt_ltb_us (a b : datetime) :
  valid_dt a = true -> valid_dt b = true ->
  dt_ltb a b = (since_epoch_us a <? since_epoch_us b)%Z.
Proof.
  intros Va Vb. pose proof (since_epoch_us_lt a b Va Vb) as H.
  unfold dt_lt in H. destruct (Z.ltb_spec (since_epoch_us a) (since_epoch_us b)) as [L|L].
  - apply H, L.
  - destruct (dt_ltb a b); [|reflexivity]. assert (T : true = true) by reflexivity.
    apply H in T. lia.
Qed.

(** The chain on three timestamps constructed on one date, when the
    first is not rolled into the following year. *)
Lemma chain_on_one_date (sday smonth start_t highest_t end_t : string)
    (now yesterday ts_s ts_h ts_e : datetime) :
  constructed sday smonth start_t now = Ok ts_s ->
  constructed sday smonth highest_t now = Ok ts_h ->
  constructed sday smonth end_t now = Ok ts_e ->
  sub_one_day now = Ok yesterday ->
  same_date ts_h ts_s -> same_date ts_e ts_s ->
  (year ts_s < MAXYEAR)%Z ->
  yesterday ≼ ts_s ->
  exists starts highest ends,
    _make_timestamp sday smonth start_t None now = Ok starts
    /\ _make_timestamp sday smonth highest_t (Some starts) now = Ok highest
    /\ _make_timestamp sday smonth end_t (Some highest) now = Ok ends
    /\ starts = ts_s
    /\ starts ≼ highest
    /\ (highest ≼ ends <-> ~ (ts_h ≺ ts_s /\ ts_e ≺ ts_h))
    /\ (ts_h ≺ ts_s ->
        toordinal highest = (toordinal starts + 1)%Z
        /\ toordinal ends = (toordinal starts + 1)%Z).
Proof.
  intros Cs Ch Ce Hy Dh De Hmax Hroll.
  pose proof (constructed_valid _ _ _ _ _ Cs) as [Vs _].
  pose proof (constructed_valid _ _ _ _ _ Ch) as [Vh _].
  pose proof (constructed_valid _ _ _ _ _ Ce) as [Ve _].
  pose proof (same_date_ordinal _ _ Dh) as Oh.
  pose proof (same_date_ordinal _ _ De) as Oe.
  assert (Hmaxh : (year ts_h < MAXYEAR)%Z) by (destruct Dh as [-> _]; exact Hmax).
  assert (Hmaxe : (year ts_e < MAXYEAR)%Z) by (destruct De as [-> _]; exact Hmax).
  pose proof (time_of_day_bounds _ Vs) as Bs.
  pose proof (time_of_day_bounds _ Vh) as Bh.
  pose proof (time_of_day_bounds _ Ve) as Be.
  pose proof (since_epoch_us_split ts_s) as Us.
  pose proof (since_epoch_us_split ts_h) as Uh.
  pose proof (since_epoch_us_split ts_e) as Ue.
  rewrite Oh in Uh. rewrite Oe in Ue.
  exists ts_s.
  (* the start *)
  rewrite (make_timestamp_eq _ _ _ None _ _ _ Cs Hy).
  assert (Rs : dt_ltb ts_s yesterday = false)
    by (unfold dt_le, dt_leb in Hroll; destruct (dt_ltb ts_s yesterday);
        [discriminate | reflexivity]).
  rewrite Rs.
  (* the highest point *)
  rewrite (make_timestamp_eq _ _ _ (Some ts_s) _ _ _ Ch Hy).
  destruct (dt_ltb ts_h ts_s) eqn:Ehs.
  - (* it is moved to the next day, and the end with it *)
    pose proof Ehs as Ehs'. rewrite dt_ltb_us, Z.ltb_lt in Ehs' by assumption.
    destruct (add_one_day_ok ts_h Vh Hmaxh) as [hi Hhi].
    destruct (add_one_day_spec _ _ Vh Hhi) as (Vhi & Ohi & _).
    pose proof (add_one_day_us _ _ Vh Hhi) as Uhi.
    exists hi.
    rewrite (make_timestamp_eq _ _ _ (Some hi) _ _ _ Ce Hy).
    assert (Lehi : dt_ltb ts_e hi = true).
    { rewrite dt_ltb_us, Z.ltb_lt by assumption. unfold US_PER_DAY in *. lia. }
    rewrite Lehi.
    destruct (add_one_day_ok ts_e Ve Hmaxe) as [en Hen].
    destruct (add_one_day_spec _ _ Ve Hen) as (Ven & Oen & _).
    pose proof (add_one_day_us _ _ Ve Hen) as Uen.
    exists en. split_and!; try reflexivity; try assumption.
    + apply (since_epoch_us_le ts_s hi Vs Vhi). unfold US_PER_DAY in *. lia.
    + rewrite (since_epoch_us_le hi en Vhi Ven). unfold dt_lt.
      rewrite !dt_ltb_us, !Z.ltb_lt by assumption. unfold US_PER_DAY in *. lia.
    + intros _. rewrite Ohi, Oen. lia.
  - (* it stays on the date of the start *)
    pose proof Ehs as Ehs'. rewrite dt_ltb_us, Z.ltb_ge in Ehs' by assumption.
    assert (Rh : dt_ltb ts_h yesterday = false).
    { apply dt_not_lt_le, (dt_le_trans _ ts_s); [exact Hroll|].
      apply dt_not_lt_le, Ehs. }
    rewrite Rh. exists ts_h.
    rewrite (make_timestamp_eq _ _ _ (Some ts_h) _ _ _ Ce Hy).
    destruct (dt_ltb ts_e ts_h) eqn:Eeh.
    + pose proof Eeh as Eeh'. rewrite dt_ltb_us, Z.ltb_lt in Eeh' by assumption.
      destruct (add_one_day_ok ts_e Ve Hmaxe) as [en Hen].
      destruct (add_one_day_spec _ _ Ve Hen) as (Ven & Oen & _).
      pose proof (add_one_day_us _ _ Ve Hen) as Uen.
      exists en. split_and!; try reflexivity; try assumption.
      * apply (since_epoch_us_le ts_s ts_h Vs Vh). lia.
      * rewrite (since_epoch_us_le ts_h en Vh Ven). unfold dt_lt.
        rewrite !dt_ltb_us, !Z.ltb_lt by assumption. unfold US_PER_DAY in *. lia.
      * unfold dt_lt. rewrite dt_ltb_us, Z.ltb_lt by assumption. lia.
    + pose proof Eeh as Eeh'. rewrite dt_ltb_us, Z.ltb_ge in Eeh' by assumption.
      assert (Re : dt_ltb ts_e yesterday = false).
      { apply dt_not_lt_le, (dt_le_trans _ ts_h); [|apply dt_not_lt_le, Eeh].
        apply dt_not_lt_le, Rh. }
      rewrite Re. exists ts_e. split_and!; try reflexivity; try assumption.
      * apply (since_epoch_us_le ts_s ts_h Vs Vh). lia.
      * rewrite (since_epoch_us_le ts_h ts_e Vh Ve). unfold dt_lt.
        rewrite !dt_ltb_us, !Z.ltb_lt by assumption. lia.
      * unfold dt_lt. rewrite dt_ltb_us, Z.ltb_lt by assumption. lia.
Qed.

(** C2, as amended.  For a well-formed day and month and a clock in a
    year of four digits, when the start is not rolled into the
    following year (its constructed timestamp is not earlier than the
    clock minus one day) the chain returns three timestamps with
    starts <= highest; highest <= ends holds unless both the highest
    point and the end go back in time of day (highest_t earlier than
    start_t and end_t earlier than highest_t); and when the highest
    point is earlier in the day than the start, the highest point and
    the end are dated one calendar day after the start. *)
Theorem chain_order (sday smonth start_t highest_t end_t : string)
    (now yesterday ts_s ts_h ts_e : datetime) :
  well_formed sday smonth -> (1000 <= year now < 9999)%Z ->
  constructed sday smonth start_t now = Ok ts_s ->
  constructed sday smonth highest_t now = Ok ts_h ->
  constructed sday smonth end_t now = Ok ts_e ->
  sub_one_day now = Ok yesterday ->
  yesterday ≼ ts_s ->
  exists starts highest ends,
    _make_timestamp sday smonth start_t None now = Ok starts
    /\ _make_timestamp sday smonth highest_t (Some starts) now = Ok highest
    /\ _make_timestamp sday smonth end_t (Some highest) now = Ok ends
    /\ starts = ts_s
    /\ starts ≼ highest
    /\ (highest ≼ ends <-> ~ (ts_h ≺ ts_s /\ ts_e ≺ ts_h))
    /\ (ts_h ≺ ts_s ->
        toordinal highest = (toordinal starts + 1)%Z
        /\ toordinal ends = (toordinal starts + 1)%Z).
Proof.
  intros Hwf Hy Cs Ch Ce Hyest Hroll.
  assert (Hy' : (1000 <= year now <= 9999)%Z) by lia.
  destruct (constructed_date _ _ _ _ _ Hwf Hy' Cs) as (Ys & Ms & Ds).
  destruct (constructed_date _ _ _ _ _ Hwf Hy' Ch) as (Yh & Mh & Dh).
  destruct (constructed_date _ _ _ _ _ Hwf Hy' Ce) as (Ye & Me & De).
  apply (chain_on_one_date sday smonth start_t highest_t end_t now yesterday
           ts_s ts_h ts_e); try assumption.
  - unfold same_date. split_and!; congruence.
  - unfold same_date. split_and!; congruence.
  - unfold MAXYEAR. lia.
Qed.

(** The chain of the claim under the clock 2024-06-10T00:00:00: the
    highest point and the end fall on 16 June, the start on 15 June. *)
Lemma chain_order_witness :
  exists starts highest ends,
    _make_timestamp "15" "Jun" "23:58:00" None Example.now = Ok starts
    /\ _make_timestamp "15" "Jun" "00:02:00" (Some starts) Example.now
       = Ok highest
    /\ _make_timestamp "15" "Jun" "00:05:00" (Some highest) Example.now
       = Ok ends
    /\ starts = mkdt 2024 6 15 23 58 0 0
    /\ starts ≼ highest
    /\ (highest ≼ ends
        <-> ~ (mkdt 2024 6 15 0 2 0 0 ≺ mkdt 2024 6 15 23 58 0 0
               /\ mkdt 2024 6 15 0 5 0 0 ≺ mkdt 2024 6 15 0 2 0 0))
    /\ (mkdt 2024 6 15 0 2 0 0 ≺ mkdt 2024 6 15 23 58 0 0 ->
        toordinal highest = (toordinal starts + 1)%Z
        /\ toordinal ends = (toordinal starts + 1)%Z).
Proof.
  apply (chain_order "15" "Jun" "23:58:00" "00:02:00" "00:05:00" Example.now
           (mkdt 2024 6 9 0 0 0 0));
    [ split; [simpl; tauto | reflexivity]
    | vm_compute; split; [discriminate | reflexivity]
    | reflexivity | reflexivity | reflexivity | reflexivity | reflexivity ].
Defined.

(** C2 as stated fails, in two ways.  An end that is earlier in the day
    than a highest point already moved to the next day stays before it
    (a single day is added at each step); and a start that is rolled
    into the following year is left behind by the two other points. *)
Lemma chain_order_counterexample :
  (let now := mkdt 2024 6 10 0 0 0 0 in
   let starts := mkdt 2024 6 15 23 58 0 0 in
   let highest := mkdt 2024 6 16 0 2 0 0 in
   let ends := mkdt 2024 6 16 0 1 0 0 in
   _make_timestamp "15" "Jun" "23:58:00" None now = Ok starts
   /\ _make_timestamp "15" "Jun" "00:02:00" (Some starts) now = Ok highest
   /\ _make_timestamp "15" "Jun" "00:01:00" (Some highest) now = Ok ends
   /\ ~ highest ≼ ends)
  /\ (let now := mkdt 2024 12 31 12 0 0 0 in
      let starts := mkdt 2025 1 1 23 58 0 0 in
      let highest := mkdt 2024 1 2 0 2 0 0 in
      let ends := mkdt 2024 1 2 0 5 0 0 in
      _make_timestamp "01" "Jan" "23:58:00" None now = Ok starts
      /\ _make_timestamp "01" "Jan" "00:02:00" (Some starts) now = Ok highest
      /\ _make_timestamp "01" "Jan" "00:05:00" (Some highest) now = Ok ends
      /\ ~ starts ≼ highest
      /\ toordinal highest <> (toordinal starts + 1)%Z).
Proof.
  split; cbv zeta; split_and!; try reflexivity;
    vm_compute; intros H; discriminate H.
Qed.

(** The three timestamps of the pass that [Satellite.passes] makes of a
    row are those of the chain. *)
Lemma pass_of_row_chain (self : Satellite) (lat lon : pyfloat)
    (now : datetime) (row : summary_row) (h h' : store) (p : SatellitePass) :
  pass_of_row self lat lon now row h = (Ok p, h') ->
  exists td0 sday smonth start_t highest_t end_t starts highest ends,
    row_td row !! 0%nat = Some td0 /\ split " " td0 = [sday; smonth]
    /\ row_td row !! 2%nat = Some start_t
    /\ row_td row !! 5%nat = Some highest_t
    /\ row_td row !! 8%nat = Some end_t
    /\ _make_timestamp sday smonth start_t None now = Ok starts
    /\ _make_timestamp sday smonth highest_t (Some starts) now = Ok highest
    /\ _make_timestamp sday smonth end_t (Some highest) now = Ok ends
    /\ _timestamp <$> h' !! _starts p = Some starts
    /\ _timestamp <$> h' !! _highest p = Some highest
    /\ _timestamp <$> h' !! _ends p = Some ends.
Proof.
  unfold pass_of_row. intros H.
  apply run_bind_Ok in H as (td0 & ? & [E0 ->]%run_lift & H).
  apply run_bind_Ok in H as ([sday smonth] & ? & [Es ->]%run_lift & H).
  apply run_bind_Ok in H as (b & ? & [_ ->]%run_lift & H).
  apply run_bind_Ok in H as (start_t & ? & [E2 ->]%run_lift & H).
  apply run_bind_Ok in H as (sa & ? & [_ ->]%run_lift & H).
  apply run_bind_Ok in H as (saz & ? & [_ ->]%run_lift & H).
  apply run_bind_Ok in H as (starts & ? & [Ms ->]%run_lift & H).
  apply run_bind_Ok in H as (sa' & ? & [_ ->]%run_lift & H).
  apply run_bind_Ok in H as (r0 & h0 & A0 & H).
  apply run_bind_Ok in H as (highest_t & ? & [E5 ->]%run_lift & H).
  apply run_bind_Ok in H as (ha & ? & [_ ->]%run_lift & H).
  apply run_bind_Ok in H as (haz & ? & [_ ->]%run_lift & H).
  apply run_bind_Ok in H as (highest & ? & [Mh ->]%run_lift & H).
  apply run_bind_Ok in H as (ha' & ? & [_ ->]%run_lift & H).
  apply run_bind_Ok in H as (r1 & h1 & A1 & H).
  apply run_bind_Ok in H as (end_t & ? & [E8 ->]%run_lift & H).
  apply run_bind_Ok in H as (ea & ? & [_ ->]%run_lift & H).
  apply run_bind_Ok in H as (eaz & ? & [_ ->]%run_lift & H).
  apply run_bind_Ok in H as (ends & ? & [Me ->]%run_lift & H).
  apply run_bind_Ok in H as (ea' & ? & [_ ->]%run_lift & H).
  apply run_bind_Ok in H as (r2 & h2 & A2 & H).
  apply run_bind_Ok in H as (pt & ? & [_ ->]%run_lift & H).
  injection H as <- <-.
  unfold alloc in A0, A1, A2.
  injection A0 as <- <-. injection A1 as <- <-. injection A2 as <- <-.
  symmetry in E0, E2, E5, E8. apply item_Ok in E0, E2, E5, E8.
  exists td0, sday, smonth, start_t, highest_t, end_t, starts, highest, ends.
  assert (Es' : split " " td0 = [sday; smonth]).
  { destruct (split " " td0) as [|a [|b' [|c l]]]; try discriminate.
    injection Es as -> ->. reflexivity. }
  set (h0 := <[fresh (dom h) := _]> h).
  set (h1 := <[fresh (dom h0) := _]> h0).
  assert (N01 : fresh (dom h0) <> fresh (dom h)).
  { intros E. pose proof (fresh_not_in h0) as F. rewrite E in F.
    unfold h0 in F. rewrite lookup_insert_eq in F. discriminate. }
  assert (N12 : fresh (dom h1) <> fresh (dom h0)).
  { intros E. pose proof (fresh_not_in h1) as F. rewrite E in F.
    unfold h1 in F. rewrite lookup_insert_eq in F. discriminate. }
  assert (N02 : fresh (dom h1) <> fresh (dom h)).
  { intros E. pose proof (fresh_not_in h1) as F. rewrite E in F.
    unfold h1 in F. rewrite lookup_insert_ne in F by exact N01.
    unfold h0 in F. rewrite lookup_insert_eq in F. discriminate. }
  simpl. split_and!; try assumption; try congruence.
  - rewrite lookup_insert_ne by exact N02.
    unfold h1. rewrite lookup_insert_ne by exact N01.
    unfold h0. rewrite lookup_insert_eq. reflexivity.
  - rewrite lookup_insert_ne by exact N12.
    unfold h1. rewrite lookup_insert_eq. reflexivity.
  - rewrite lookup_insert_eq. reflexivity.
Qed.

(** * Further properties of the code *)

(** ** What [_make_timestamp] returns and raises *)

Lemma sub_one_day_year (t t' : datetime) :
  sub_one_day t = Ok t' -> (year t' <= year t)%Z.
Proof.
  unfold sub_one_day.
  destruct (1 <? day t)%Z; [|destruct (1 <? month t)%Z];
    match goal with |- context [if ?c then _ else _] => destruct c end;
    try discriminate; intros [= <-]; simpl; lia.
Qed.

Lemma add_one_day_year (t t' : datetime) :
  add_one_day t = Ok t' -> (year t <= year t' <= year t + 1)%Z.
Proof.
  unfold add_one_day.
  destruct (day t <? _)%Z; [|destruct (month t <? 12)%Z];
    match goal with |- context [if ?c then _ else _] => destruct c end;
    try discriminate; intros [= <-]; simpl; lia.
Qed.

(** X1.  Whatever the anchor, a timestamp that [_make_timestamp]
    returns is a valid date and time without microseconds, it has the
    time of day of the constructed timestamp and is not earlier than it:
    it is the constructed timestamp itself, or exactly one day later, or
    the same date and time in the following year. *)
Theorem resolved_timestamp (sday smonth stime : string)
    (anchor : option datetime) (now r : datetime) :
  _make_timestamp sday smonth stime anchor now = Ok r ->
  exists ts,
    constructed sday smonth stime now = Ok ts
    /\ valid_dt r = true /\ microsecond r = 0%Z
    /\ hour r = hour ts /\ minute r = minute ts /\ second r = second ts
    /\ ts ≼ r
    /\ (r = ts
        \/ since_epoch_us r = (since_epoch_us ts + US_PER_DAY)%Z
        \/ r = next_year ts).
Proof.
  unfold _make_timestamp. intros H.
  apply bind_Ok in H as (ts & Hts & H). apply bind_Ok in H as (y & _ & H).
  exists ts. split; [exact Hts|].
  apply constructed_valid in Hts as [Hv Hus].
  assert (A : forall t, add_one_day ts = Ok t ->
            valid_dt t = true /\ microsecond t = 0%Z
            /\ hour t = hour ts /\ minute t = minute ts /\ second t = second ts
            /\ ts ≼ t
            /\ (t = ts
                \/ since_epoch_us t = (since_epoch_us ts + US_PER_DAY)%Z
                \/ t = next_year ts)).
  { intros t Ht.
    destruct (add_one_day_spec _ _ Hv Ht) as (Hvt & _ & Eh & Em & Es & Eu).
    split_and!; try assumption; try congruence.
    - apply dt_lt_le, add_one_day_lt, Ht.
    - right; left. apply add_one_day_us; assumption. }
  assert (B : forall t, replace_year ts (year ts + 1) = Ok t ->
            valid_dt t = true /\ microsecond t = 0%Z
            /\ hour t = hour ts /\ minute t = minute ts /\ second t = second ts
            /\ ts ≼ t
            /\ (t = ts
                \/ since_epoch_us t = (since_epoch_us ts + US_PER_DAY)%Z
                \/ t = next_year ts)).
  { intros t Ht. pose proof (replace_year_next_lt _ _ Ht) as L.
    apply datetime_new_Ok in Ht as [-> Hvt].
    split_and!; try assumption; try reflexivity.
    - apply dt_lt_le, L.
    - right; right. reflexivity. }
  assert (C : valid_dt ts = true /\ microsecond ts = 0%Z
              /\ hour ts = hour ts /\ minute ts = minute ts
              /\ second ts = second ts /\ ts ≼ ts
              /\ (ts = ts
                  \/ since_epoch_us ts = (since_epoch_us ts + US_PER_DAY)%Z
                  \/ ts = next_year ts)).
  { split_and!; try assumption; try reflexivity; [apply dt_le_refl | left; reflexivity]. }
  destruct anchor as [a|].
  - destruct (dt_ltb ts a); [exact (A _ H)|].
    destruct (dt_ltb ts y); [exact (B _ H) | injection H as <-; exact C].
  - destruct (dt_ltb ts y); [exact (B _ H) | injection H as <-; exact C].
Qed.

Lemma resolved_timestamp_witness :
  exists ts,
    constructed "15" "Jun" "00:02:00" Example.now = Ok ts
    /\ valid_dt (mkdt 2024 6 16 0 2 0 0) = true
    /\ microsecond (mkdt 2024 6 16 0 2 0 0) = 0%Z
    /\ hour (mkdt 2024 6 16 0 2 0 0) = hour ts
    /\ minute (mkdt 2024 6 16 0 2 0 0) = minute ts
    /\ second (mkdt 2024 6 16 0 2 0 0) = second ts
    /\ ts ≼ mkdt 2024 6 16 0 2 0 0
    /\ (mkdt 2024 6 16 0 2 0 0 = ts
        \/ since_epoch_us (mkdt 2024 6 16 0 2 0 0)
           = (since_epoch_us ts + US_PER_DAY)%Z
        \/ mkdt 2024 6 16 0 2 0 0 = next_year ts).
Proof.
  apply (resolved_timestamp "15" "Jun" "00:02:00"
           (Some (mkdt 2024 6 15 23 58 0 0)) Example.now).
  vm_compute. reflexivity.
Defined.

(** X2.  For a well-formed day and month and a clock in a year of four
    digits, a resolved timestamp lies in the year of the clock or in the
    following one; resolved without an anchor, it is never earlier than
    the clock minus one day. *)
Theorem resolved_not_stale (sday smonth stime : string)
    (anchor : option datetime) (now yesterday r : datetime) :
  well_formed sday smonth -> (1000 <= year now <= 9999)%Z ->
  sub_one_day now = Ok yesterday ->
  _make_timestamp sday smonth stime anchor now = Ok r ->
  (year now <= year r <= year now + 1)%Z
  /\ (anchor = None -> yesterday ≼ r).
Proof.
  intros Hwf Hy Hyest H.
  apply make_timestamp_Ok in H as (ts & y' & Hts & Hy' & H).
  assert (y' = yesterday) as -> by congruence.
  destruct (constructed_date _ _ _ _ _ Hwf Hy Hts) as (Ey & _).
  pose proof (sub_one_day_year _ _ Hyest) as Ly.
  destruct anchor as [a|].
  - split; [|discriminate].
    destruct (dt_ltb ts a).
    + apply add_one_day_year in H. lia.
    + destruct (dt_ltb ts yesterday); subst r; simpl; lia.
  - destruct (dt_ltb ts yesterday) eqn:E; subst r.
    + unfold next_year. simpl. split; [lia | intros _; dt_arith].
    + split; [lia | intros _; apply dt_not_lt_le, E].
Qed.

Lemma resolved_not_stale_witness :
  (year Example.now <= year (mkdt 2025 6 1 0 0 0 0) <= year Example.now + 1)%Z
  /\ (@None datetime = None -> mkdt 2024 6 9 0 0 0 0 ≼ mkdt 2025 6 1 0 0 0 0).
Proof.
  apply (resolved_not_stale "01" "Jun" "00:00:00" None Example.now);
    [ split; [simpl; tauto | reflexivity]
    | vm_compute; split; discriminate
    | reflexivity | reflexivity ].
Defined.

(** The exceptions of the parts. *)
Lemma py_int_raises (s : string) (e : exn) :
  py_int s = Raise e -> e = ValueError.
Proof.
  unfold py_int. destruct (take_sign (strip s)) as [neg body].
  destruct (take_digitpart body) as [[|c ds] [|c' r]]; try congruence.
  destruct (_ <=? _)%N; congruence.
Qed.

Lemma datetime_new_raises (y m d h mi s us : Z) (e : exn) :
  datetime_new y m d h mi s us = Raise e -> e = ValueError.
Proof. unfold datetime_new. destruct (_ && _); congruence. Qed.

Lemma int_group_raises (name : string) (g : groups) (e : exn) :
  int_group name g = Raise e -> e = ValueError.
Proof.
  unfold int_group. destruct (group name g); [apply py_int_raises | congruence].
Qed.

Lemma strptime_raises (data : string) (e : exn) :
  strptime data = Raise e -> e = ValueError.
Proof.
  unfold strptime.
  destruct (re_match FORMAT_RE data) as [[[|c rest] g]|]; try congruence.
  unfold of_groups. intros H.
  apply bind_Raise in H as [H|(y & _ & H)]; [exact (int_group_raises _ _ _ H)|].
  apply bind_Raise in H as [H|(m & _ & H)].
  { destruct (group "b" g); [|congruence].
    destruct (index_from _ _ _); congruence. }
  apply bind_Raise in H as [H|(d & _ & H)]; [exact (int_group_raises _ _ _ H)|].
  apply bind_Raise in H as [H|(h & _ & H)]; [exact (int_group_raises _ _ _ H)|].
  apply bind_Raise in H as [H|(mi & _ & H)]; [exact (int_group_raises _ _ _ H)|].
  apply bind_Raise in H as [H|(s & _ & H)]; [exact (int_group_raises _ _ _ H)|].
  exact (datetime_new_raises _ _ _ _ _ _ _ _ H).
Qed.

Lemma add_one_day_raises (t : datetime) (e : exn) :
  add_one_day t = Raise e -> e = OverflowError.
Proof.
  unfold add_one_day.
  destruct (day t <? _)%Z; [|destruct (month t <? 12)%Z];
    match goal with |- context [if ?c then _ else _] => destruct c end;
    congruence.
Qed.

Lemma sub_one_day_raises (t : datetime) (e : exn) :
  sub_one_day t = Raise e -> e = OverflowError.
Proof.
  unfold sub_one_day.
  destruct (1 <? day t)%Z; [|destruct (1 <? month t)%Z];
    match goal with |- context [if ?c then _ else _] => destruct c end;
    congruence.
Qed.

(** X3.  [_make_timestamp] raises nothing but [ValueError] and
    [OverflowError]; with a valid clock after year 1 and no anchor, an
    [OverflowError] is impossible: every failure is a [ValueError]. *)
Theorem make_timestamp_raises (sday smonth stime : string)
    (anchor : option datetime) (now : datetime) (e : exn) :
  _make_timestamp sday smonth stime anchor now = Raise e ->
  (e = ValueError \/ e = OverflowError)
  /\ (valid_dt now = true -> (MINYEAR < year now)%Z -> anchor = None ->
      e = ValueError).
Proof.
  unfold _make_timestamp. intros H.
  apply bind_Raise in H as [H|(ts & Hts & H)].
  { apply strptime_raises in H. tauto. }
  apply bind_Raise in H as [H|(y & Hy & H)].
  { split; [apply sub_one_day_raises in H; tauto|].
    intros Hv Hmin _. destruct (sub_one_day_ok now Hv Hmin) as [t Ht].
    congruence. }
  destruct anchor as [a|].
  - split; [|discriminate].
    destruct (dt_ltb ts a); [apply add_one_day_raises in H; tauto|].
    destruct (dt_ltb ts y); [|discriminate].
    apply datetime_new_raises in H. tauto.
  - destruct (dt_ltb ts y); [|discriminate].
    apply datetime_new_raises in H. tauto.
Qed.

Lemma make_timestamp_raises_witness :
  (ValueError = ValueError \/ ValueError = OverflowError)
  /\ (valid_dt Example.now = true -> (MINYEAR < year Example.now)%Z ->
      @None datetime = None -> ValueError = ValueError).
Proof.
  apply (make_timestamp_raises "29" "Feb" "00:00:00" None Example.now ValueError).
  reflexivity.
Defined.

(** ** The time of day of a fragment *)

(** A time of day written [HH:MM:SS], and the number two digits denote. *)
Definition hh_mm_ss (h1 h2 m1 m2 s1 s2 : ascii) : string :=
  String h1 (String h2 (String ":" (String m1 (String m2
    (String ":" (String s1 (String s2 EmptyString))))))).

Definition two_digits (a b : ascii) : Z :=
  digits_val 0 (String a (String b EmptyString)).

(** What follows in the pattern starts with a colon. *)
Definition needs_colon (k : cont) : Prop :=
  forall c s g, Ascii.eqb ":" c = false -> k (String c s) g = None.

Lemma colon_needs_colon (k : cont) (f : string -> groups -> groups) :
  needs_colon (fun s g => rmatch (lit ":") s (f s g) k).
Proof. intros c s g H. unfold lit. cbn [rmatch]. rewrite H. reflexivity. Qed.

Ltac two_digit_cases H1 H2 tac :=
  apply digit_cases in H1; apply digit_cases in H2; simpl in H1, H2;
  repeat (destruct H1 as [<-|H1];
    [repeat (destruct H2 as [<-|H2]; [tac|]); destruct H2|]);
  destruct H1.

(** The alternatives of [%H] on two digits that a colon follows. *)
Lemma hour_alternatives (h1 h2 : ascii) (s : string) (g : groups) (k : cont) :
  is_digit h1 = true -> is_digit h2 = true -> needs_colon k ->
  rmatch (Alt (Seq (lit "2") (range "0" "3"))
         (Alt (Seq (range "0" "1") digit)
              digit))
    (String h1 (String h2 (String ":" s))) g k
  = if (two_digits h1 h2 <=? 23)%Z then k (String ":" s) g else None.
Proof.
  intros H1 H2 Hk.
  two_digit_cases H1 H2
    ltac:(vm_compute;
          repeat match goal with
                 | |- context [k (String ?x ?y) ?z] =>
                     rewrite (Hk x y z eq_refl)
                 end;
          try reflexivity; destruct (k _ g); reflexivity).
Qed.

(** The alternatives of [%M], likewise. *)
Lemma minute_alternatives (m1 m2 : ascii) (s : string) (g : groups) (k : cont) :
  is_digit m1 = true -> is_digit m2 = true -> needs_colon k ->
  rmatch (Alt (Seq (range "0" "5") digit) digit)
    (String m1 (String m2 (String ":" s))) g k
  = if (two_digits m1 m2 <=? 59)%Z then k (String ":" s) g else None.
Proof.
  intros H1 H2 Hk.
  two_digit_cases H1 H2
    ltac:(vm_compute;
          repeat match goal with
                 | |- context [k (String ?x ?y) ?z] =>
                     rewrite (Hk x y z eq_refl)
                 end;
          try reflexivity; destruct (k _ g); reflexivity).
Qed.

(** The alternatives of [%S] on two digits that white space follows:
    the pattern lets the leap seconds 60 and 61 through. *)
Lemma second_alternatives (s1 s2 : ascii) (s : string) (g : groups) (k : cont) :
  is_digit s1 = true -> is_digit s2 = true -> needs_space k ->
  rmatch (Alt (Seq (lit "6") (range "0" "1"))
         (Alt (Seq (range "0" "5") digit)
              digit))
    (String s1 (String s2 (String " " s))) g k
  = if (two_digits s1 s2 <=? 61)%Z then k (String " " s) g else None.
Proof.
  intros H1 H2 Hk.
  two_digit_cases H1 H2
    ltac:(vm_compute;
          repeat match goal with
                 | |- context [k (String ?x ?y) ?z] =>
                     rewrite (Hk x y z eq_refl)
                 end;
          try reflexivity; destruct (k _ g); reflexivity).
Qed.

Lemma consumed_two (a b : ascii) (s : string) :
  consumed (String a (String b s)) s = String a (String b EmptyString).
Proof.
  change (String a (String b s)) with (String a (String b EmptyString) ++ s).
  apply consumed_app.
Qed.

(** The groups that [" %H:%M:%S %Z"] adds for a time [HH:MM:SS]. *)
Definition time_groups (h1 h2 m1 m2 s1 s2 : ascii) : groups :=
  [("Z", "UTC"); ("S", String s1 (String s2 EmptyString));
   ("M", String m1 (String m2 EmptyString));
   ("H", String h1 (String h2 EmptyString))].

Definition time_ok (h1 h2 m1 m2 s1 s2 : ascii) : bool :=
  ((two_digits h1 h2 <=? 23) && (two_digits m1 m2 <=? 59)
   && (two_digits s1 s2 <=? 61))%Z.

Lemma time_matches (h1 h2 m1 m2 s1 s2 : ascii) (g : groups) :
  is_digit h1 = true -> is_digit h2 = true ->
  is_digit m1 = true -> is_digit m2 = true ->
  is_digit s1 = true -> is_digit s2 = true ->
  rmatch TIME_RE (" " ++ hh_mm_ss h1 h2 m1 m2 s1 s2 ++ " UTC") g accept
  = if time_ok h1 h2 m1 m2 s1 s2
    then Some (EmptyString, (time_groups h1 h2 m1 m2 s1 s2 ++ g)%list)
    else None.
Proof.
  intros H1 H2 M1 M2 S1 S2. unfold TIME_RE, cat, time_ok. simpl fold_right.
  change (" " ++ hh_mm_ss h1 h2 m1 m2 s1 s2 ++ " UTC")
    with (String " " (String h1 (String h2 (String ":"
            (String m1 (String m2 (String ":"
               (String s1 (String s2 (String " " "UTC")))))))))).
  rewrite rmatch_Seq, ws_one by (apply digit_not_space, H1).
  rewrite rmatch_Seq. unfold re_H. rewrite rmatch_Group.
  rewrite hour_alternatives;
    [ | exact H1 | exact H2
      | exact (colon_needs_colon _ (fun s' g' => ("H", consumed _ s') :: g')) ].
  destruct (two_digits h1 h2 <=? 23)%Z; [|reflexivity].
  cbv beta. rewrite rmatch_Seq.
  change (rmatch (lit ":") (String ":" ?s) ?g ?k) with (k s g). cbv beta.
  rewrite (consumed_two h1 h2).
  rewrite rmatch_Seq. unfold re_M. rewrite rmatch_Group.
  rewrite minute_alternatives;
    [ | exact M1 | exact M2
      | exact (colon_needs_colon _ (fun s' g' => ("M", consumed _ s') :: g')) ].
  destruct (two_digits m1 m2 <=? 59)%Z; [|reflexivity].
  cbv beta. rewrite rmatch_Seq.
  change (rmatch (lit ":") (String ":" ?s) ?g ?k) with (k s g). cbv beta.
  rewrite (consumed_two m1 m2).
  rewrite rmatch_Seq. unfold re_S. rewrite rmatch_Group.
  rewrite second_alternatives; [ | exact S1 | exact S2 | ].
  - destruct (two_digits s1 s2 <=? 61)%Z; [|reflexivity].
    cbv beta. rewrite (consumed_two s1 s2). reflexivity.
  - intros c s g' Hc. cbv beta. simpl. rewrite Hc. reflexivity.
Qed.

Lemma two_digits_int (a b : ascii) :
  is_digit a = true -> is_digit b = true ->
  py_int (String a (String b EmptyString)) = Ok (two_digits a b).
Proof.
  intros Ha Hb. apply numeral_int. unfold numeral. simpl.
  rewrite Ha, Hb. reflexivity.
Qed.

Lemma two_digits_bounds (a b : ascii) :
  is_digit a = true -> is_digit b = true -> (0 <= two_digits a b <= 99)%Z.
Proof.
  intros Ha%digit_val_bounds Hb%digit_val_bounds.
  unfold two_digits. simpl. lia.
Qed.

Lemma month_number_bounds (smonth : string) :
  In smonth MONTHS -> (1 <= month_number smonth <= 12)%Z.
Proof.
  intros H. simpl in H.
  repeat (destruct H as [<-|H]; [vm_compute; split; discriminate|]).
  destruct H.
Qed.

(** The constructed timestamp of a fragment whose time is written
    [HH:MM:SS]: the pattern and the constructor together. *)
Lemma constructed_hms (sday smonth : string) (now : datetime)
    (h1 h2 m1 m2 s1 s2 : ascii) :
  well_formed sday smonth -> (1000 <= year now <= 9999)%Z ->
  is_digit h1 = true -> is_digit h2 = true ->
  is_digit m1 = true -> is_digit m2 = true ->
  is_digit s1 = true -> is_digit s2 = true ->
  constructed sday smonth (hh_mm_ss h1 h2 m1 m2 s1 s2) now
  = datetime_new (year now) (month_number smonth) (digits_val 0 sday)
      (two_digits h1 h2) (two_digits m1 m2) (two_digits s1 s2) 0.
Proof.
  intros Hwf Hy H1 H2 M1 M2 S1 S2. unfold constructed.
  rewrite strptime_time by assumption.
  rewrite time_matches by assumption.
  destruct (year_text _ Hy) as [_ Yint]. destruct Hwf as [Hm Hd].
  pose proof (month_number_bounds _ Hm) as Bm.
  pose proof (two_digits_bounds _ _ H1 H2) as Bh.
  pose proof (two_digits_bounds _ _ M1 M2) as Bmi.
  pose proof (two_digits_bounds _ _ S1 S2) as Bs.
  destruct (day_ok sday) eqn:Ed.
  - unfold time_ok.
    destruct (Z.leb_spec (two_digits h1 h2) 23) as [Lh|Lh]; simpl.
    + destruct (Z.leb_spec (two_digits m1 m2) 59) as [Lm|Lm]; simpl.
      * destruct (Z.leb_spec (two_digits s1 s2) 61) as [Ls|Ls]; simpl.
        -- unfold of_groups, int_group, time_groups, date_groups.
           cbn [app group String.eqb Ascii.eqb Bool.eqb].
           rewrite Yint, (numeral_int _ Hd), (month_number_index _ Hm),
             !two_digits_int by assumption.
           reflexivity.
        -- unfold datetime_new.
           replace (valid_time _ _ _ _) with false; [rewrite andb_false_r; reflexivity|].
           symmetry. apply not_true_is_false. rewrite valid_time_iff. lia.
      * unfold datetime_new.
        replace (valid_time _ _ _ _) with false; [rewrite andb_false_r; reflexivity|].
        symmetry. apply not_true_is_false. rewrite valid_time_iff. lia.
    + unfold datetime_new.
      replace (valid_time _ _ _ _) with false; [rewrite andb_false_r; reflexivity|].
      symmetry. apply not_true_is_false. rewrite valid_time_iff. lia.
  - unfold datetime_new.
    replace (valid_date _ _ _) with false; [reflexivity|].
    symmetry. apply not_true_is_false. rewrite valid_date_iff.
    pose proof (days_in_month_bounds (year now) _ Bm).
    unfold day_ok in Ed. apply andb_false_iff in Ed.
    rewrite !Z.leb_gt in Ed. lia.
Qed.

(** X4.  The fragment is read as written.  For a well-formed day and
    month, a clock in a year of four digits and a time written
    [HH:MM:SS], the constructed timestamp is
    [datetime(year of the clock, month, day, HH, MM, SS)]: it exists
    exactly when these are a date of the calendar and a time of day, and
    in every other case (31 June, 29 February of a common year, 24:00:00,
    a second 60) the construction raises [ValueError]. *)
Theorem fragment_read_as_written (sday smonth : string) (now : datetime)
    (h1 h2 m1 m2 s1 s2 : ascii) :
  well_formed sday smonth -> (1000 <= year now <= 9999)%Z ->
  is_digit h1 = true -> is_digit h2 = true ->
  is_digit m1 = true -> is_digit m2 = true ->
  is_digit s1 = true -> is_digit s2 = true ->
  let y := year now in
  let m := month_number smonth in
  let d := digits_val 0 sday in
  let hh := two_digits h1 h2 in
  let mm := two_digits m1 m2 in
  let ss := two_digits s1 s2 in
  constructed sday smonth (hh_mm_ss h1 h2 m1 m2 s1 s2) now
  = if valid_date y m d && valid_time hh mm ss 0
    then Ok (mkdt y m d hh mm ss 0)
    else Raise ValueError.
Proof.
  intros. apply constructed_hms; assumption.
Qed.

Lemma fragment_read_as_written_witness :
  constructed "15" "Jun" (hh_mm_ss "2" "3" "5" "8" "0" "0") Example.now
  = Ok (mkdt 2024 6 15 23 58 0 0)
  /\ constructed "31" "Jun" (hh_mm_ss "2" "3" "5" "8" "0" "0") Example.now
     = Raise ValueError.
Proof.
  split.
  - apply (fragment_read_as_written "15" "Jun" Example.now "2" "3" "5" "8" "0" "0");
      [ split; [simpl; tauto | reflexivity]
      | vm_compute; split; discriminate
      | reflexivity .. ].
  - apply (fragment_read_as_written "31" "Jun" Example.now "2" "3" "5" "8" "0" "0");
      [ split; [simpl; tauto | reflexivity]
      | vm_compute; split; discriminate
      | reflexivity .. ].
Defined.

(** X5.  End to end, without an anchor: for a well-formed fragment
    that denotes a date of the clock's year and a time of day,
    [_make_timestamp] returns that date and time, moved to the following
    year exactly when it is earlier than the clock minus one day (a 29
    February, which has no following year, and the last year of the
    calendar apart). *)
Theorem make_timestamp_of_fragment (sday smonth : string)
    (now yesterday : datetime) (h1 h2 m1 m2 s1 s2 : ascii) :
  well_formed sday smonth -> (1000 <= year now < 9999)%Z ->
  is_digit h1 = true -> is_digit h2 = true ->
  is_digit m1 = true -> is_digit m2 = true ->
  is_digit s1 = true -> is_digit s2 = true ->
  sub_one_day now = Ok yesterday ->
  let ts := mkdt (year now) (month_number smonth) (digits_val 0 sday)
              (two_digits h1 h2) (two_digits m1 m2) (two_digits s1 s2) 0 in
  valid_dt ts = true ->
  ~ (month ts = 2 /\ day ts = 29)%Z ->
  _make_timestamp sday smonth (hh_mm_ss h1 h2 m1 m2 s1 s2) None now
  = Ok (if dt_ltb ts yesterday then next_year ts else ts).
Proof.
  intros Hwf Hy H1 H2 M1 M2 S1 S2 Hyest ts Hv Hn.
  assert (C : constructed sday smonth (hh_mm_ss h1 h2 m1 m2 s1 s2) now = Ok ts).
  { rewrite constructed_hms by (try assumption; lia).
    unfold datetime_new. unfold valid_dt in Hv. simpl in Hv. rewrite Hv.
    reflexivity. }
  rewrite (make_timestamp_eq _ _ _ None _ _ _ C Hyest).
  destruct (dt_ltb ts yesterday); [|reflexivity].
  apply replace_year_next_ok; [exact Hv | simpl; unfold MAXYEAR; lia | exact Hn].
Qed.

Lemma make_timestamp_of_fragment_witness :
  _make_timestamp "01" "Jun" (hh_mm_ss "2" "3" "5" "8" "0" "0") None Example.now
  = Ok (mkdt 2025 6 1 23 58 0 0).
Proof.
  apply (make_timestamp_of_fragment "01" "Jun" Example.now
           (mkdt 2024 6 9 0 0 0 0) "2" "3" "5" "8" "0" "0");
    [ split; [simpl; tauto | reflexivity]
    | vm_compute; split; [discriminate | reflexivity]
    | reflexivity | reflexivity | reflexivity | reflexivity
    | reflexivity | reflexivity | reflexivity | reflexivity
    | intros [H _]; vm_compute in H; discriminate H ].
Defined.

(** ** Runs of characters, and what [re.search(r'\d+', ...)] finds *)

(** The longest prefix of characters of a class, and what is left
    after it. *)
Fixpoint leading (p : ascii -> bool) (s : string) : string :=
  match s with
  | String c s' => if p c then String c (leading p s') else EmptyString
  | EmptyString => EmptyString
  end.

Fixpoint after (p : ascii -> bool) (s : string) : string :=
  match s with
  | String c s' => if p c then after p s' else s
  | EmptyString => EmptyString
  end.

Definition non_digit (c : ascii) : bool := negb (is_digit c).

(** The first run of digits of a text. *)
Definition first_digits (text : string) : string :=
  leading is_digit (after non_digit text).

Lemma leading_after (p : ascii -> bool) (s : string) :
  s = leading p s ++ after p s.
Proof.
  induction s as [|c s IH]; [reflexivity|]. simpl.
  destruct (p c); [|reflexivity].
  change (String c (leading p s) ++ after p s)
    with (String c (leading p s ++ after p s)).
  rewrite <- IH. reflexivity.
Qed.

Lemma leading_forall (p : ascii -> bool) (s : string) :
  str_forall p (leading p s) = true.
Proof.
  induction s as [|c s IH]; [reflexivity|]. simpl.
  destruct (p c) eqn:E; [|reflexivity]. simpl. rewrite E. exact IH.
Qed.

Lemma consumed_after (p : ascii -> bool) (s : string) :
  consumed s (after p s) = leading p s.
Proof.
  transitivity (consumed (leading p s ++ after p s) (after p s)).
  - rewrite <- leading_after. reflexivity.
  - apply consumed_app.
Qed.

Lemma after_length (p : ascii -> bool) (s : string) :
  (String.length (after p s) <= String.length s)%nat.
Proof.
  induction s as [|c s IH]; [apply Nat.le_refl|]. simpl.
  destruct (p c); [apply Nat.le_le_succ_r, IH | apply Nat.le_refl].
Qed.

(** A greedy run followed by something that always matches takes the
    whole run. *)
Lemma star_all (p : ascii -> bool) (s : string) (g : groups) (k : cont) :
  (forall s', k s' g <> None) ->
  star p s g k = k (after p s) g.
Proof.
  intros Hk. induction s as [|c s IH]; [reflexivity|]. simpl.
  destruct (p c); [|reflexivity]. rewrite IH.
  destruct (k (after p s) g) eqn:E; [reflexivity|].
  exfalso. exact (Hk _ E).
Qed.

Lemma digits_match (c : ascii) (s : string) :
  is_digit c = true ->
  re_match DIGITS_RE (String c s)
  = Some (after is_digit s, [("0", String c (leading is_digit s))]).
Proof.
  intros Hc. unfold re_match, DIGITS_RE. rewrite rmatch_Group.
  cbn [rmatch]. rewrite Hc. rewrite star_all by (unfold accept; discriminate).
  unfold accept. rewrite consumed_cons, consumed_after; [reflexivity|].
  apply after_length.
Qed.

Lemma digits_no_match (s : string) :
  match s with String c _ => is_digit c = false | EmptyString => True end ->
  re_match DIGITS_RE s = None.
Proof.
  unfold re_match, DIGITS_RE. rewrite rmatch_Group. cbn [rmatch].
  destruct s as [|c s]; [reflexivity|]. intros ->. reflexivity.
Qed.

Lemma search_digits (text : string) :
  re_search DIGITS_RE text
  = match after non_digit text with
    | String c s =>
        Some (after is_digit s, [("0", String c (leading is_digit s))])
    | EmptyString => None
    end.
Proof.
  induction text as [|c s IH].
  - reflexivity.
  - cbn [re_search after]. unfold non_digit at 1.
    destruct (is_digit c) eqn:E; cbn [negb].
    + rewrite digits_match by exact E. reflexivity.
    + rewrite digits_no_match by exact E. exact IH.
Qed.

Lemma after_non_digit_head (text : string) (c : ascii) (s : string) :
  after non_digit text = String c s -> is_digit c = true.
Proof.
  induction text as [|c' s' IH]; simpl; [discriminate|].
  unfold non_digit at 1. destruct (is_digit c') eqn:E; simpl.
  - intros [= -> _]. exact E.
  - exact IH.
Qed.

Lemma first_number_eq (text : string) :
  first_number text
  = match first_digits text with
    | EmptyString => Raise TypeError
    | v => Ok v
    end.
Proof.
  unfold first_number, first_digits. rewrite search_digits.
  destruct (after non_digit text) as [|c s] eqn:E; [reflexivity|].
  apply after_non_digit_head in E. cbn [leading]. rewrite E. reflexivity.
Qed.

(** X6.  The altitude read from a cell by [re.search(r'\d+', ...)[0]]
    is the first run of digits of the cell, whole; a cell without a
    digit gives the [TypeError] of subscripting [None]. *)
Theorem first_number_is_first_digits (text : string) :
  first_number text
  = match first_digits text with
    | EmptyString => Raise TypeError
    | v => Ok v
    end.
Proof. apply first_number_eq. Qed.

(** ** [int()] of a text of digits *)

Lemma str_rev_onto_rev (s acc acc' : string) :
  str_rev_onto (str_rev_onto s acc) acc' = str_rev_onto acc (s ++ acc').
Proof.
  revert acc acc'. induction s as [|c s IH]; intros acc acc'; [reflexivity|].
  cbn [str_rev_onto]. rewrite IH. reflexivity.
Qed.

Lemma append_empty (s : string) : s ++ EmptyString = s.
Proof.
  induction s as [|c s IH]; [reflexivity|].
  change (String c s ++ "") with (String c (s ++ "")). rewrite IH. reflexivity.
Qed.

Lemma str_rev_involutive (s : string) : str_rev (str_rev s) = s.
Proof. unfold str_rev. rewrite str_rev_onto_rev. apply append_empty. Qed.

Lemma str_rev_onto_forall (p : ascii -> bool) (s acc : string) :
  str_forall p s = true -> str_forall p acc = true ->
  str_forall p (str_rev_onto s acc) = true.
Proof.
  revert acc. induction s as [|c s IH]; intros acc Hs Hacc; [exact Hacc|].
  simpl in Hs. apply andb_true_iff in Hs as [Hc Hs].
  cbn [str_rev_onto]. apply IH; [exact Hs|]. simpl. rewrite Hc. exact Hacc.
Qed.

Lemma digit_not_c_space (c : ascii) : is_digit c = true -> is_c_space c = false.
Proof. intros H%digit_cases. simpl in H. intuition (subst; reflexivity). Qed.

Lemma digit_not_underscore (c : ascii) :
  is_digit c = true -> Ascii.eqb c "_" = false.
Proof. intros H%digit_cases. simpl in H. intuition (subst; reflexivity). Qed.

Lemma lstrip_digits (s : string) :
  str_forall is_digit s = true -> lstrip s = s.
Proof.
  destruct s as [|c s]; [reflexivity|]. simpl.
  intros [Hc _]%andb_true_iff. rewrite (digit_not_c_space _ Hc). reflexivity.
Qed.

Lemma strip_digits (s : string) :
  str_forall is_digit s = true -> strip s = s.
Proof.
  intros H. unfold strip. rewrite (lstrip_digits s H).
  rewrite lstrip_digits; [apply str_rev_involutive|].
  apply str_rev_onto_forall; [exact H | reflexivity].
Qed.

Lemma take_sign_digit (c : ascii) (s : string) :
  is_digit c = true -> take_sign (String c s) = (false, String c s).
Proof. intros H%digit_cases. simpl in H. intuition (subst; reflexivity). Qed.

Lemma take_digitpart_digits (s : string) :
  str_forall is_digit s = true -> take_digitpart s = (s, EmptyString).
Proof.
  induction s as [|c s IH]; [reflexivity|].
  intros H. simpl in H. apply andb_true_iff in H as [Hc Hs].
  specialize (IH Hs). cbn [take_digitpart]. rewrite Hc.
  destruct s as [|u [|c2 s2]].
  - reflexivity.
  - rewrite IH. reflexivity.
  - simpl in Hs. apply andb_true_iff in Hs as [Hu _].
    rewrite (digit_not_underscore _ Hu). cbn [andb]. rewrite IH. reflexivity.
Qed.

Lemma digits_int (v : string) :
  str_forall is_digit v = true -> v <> EmptyString ->
  py_int v = if (digit_count v <=? INT_MAX_STR_DIGITS)%N
             then Ok (digits_val 0 v) else Raise ValueError.
Proof.
  intros H Hn. unfold py_int. rewrite (strip_digits v H).
  destruct v as [|c v]; [congruence|].
  pose proof H as H'. simpl in H'. apply andb_true_iff in H' as [Hc _].
  rewrite (take_sign_digit _ _ Hc), (take_digitpart_digits _ H). reflexivity.
Qed.

(** The integer of a text of digits, when [int()] gives one. *)
Lemma digits_int_Ok (v : string) (n : Z) :
  str_forall is_digit v = true -> v <> EmptyString -> py_int v = Ok n ->
  n = digits_val 0 v /\ (digit_count v <= INT_MAX_STR_DIGITS)%N.
Proof.
  intros H Hn. rewrite (digits_int v H Hn).
  destruct (N.leb_spec (digit_count v) INT_MAX_STR_DIGITS) as [L|L];
    [|discriminate].
  intros [= <-]. split; [reflexivity | exact L].
Qed.

Lemma first_number_Ok (text v : string) :
  first_number text = Ok v ->
  v = first_digits text /\ v <> EmptyString
  /\ str_forall is_digit v = true.
Proof.
  rewrite first_number_eq.
  destruct (first_digits text) as [|c s] eqn:E; [discriminate|].
  intros [= <-].
  assert (F : str_forall is_digit (String c s) = true)
    by (rewrite <- E; apply leading_forall).
  split_and!; [reflexivity | discriminate | exact F].
Qed.

(** X7.  What [re.search(r'\d+', ...)[0]] returns is a non-empty text
    of digits.  [int()] refuses it only when it has more than 4300
    digits, with a [ValueError]; otherwise its integer is the
    non-negative number that these digits denote in base ten. *)
Theorem altitude_is_a_number (text v : string) :
  first_number text = Ok v ->
  v <> EmptyString /\ str_forall is_digit v = true
  /\ py_int v = (if (digit_count v <=? INT_MAX_STR_DIGITS)%N
                 then Ok (digits_val 0 v) else Raise ValueError)
  /\ (0 <= digits_val 0 v)%Z.
Proof.
  intros (_ & Hn & F)%first_number_Ok.
  split_and!; try assumption.
  - apply digits_int; assumption.
  - apply digits_val_nonneg; [exact F | lia].
Qed.

Lemma altitude_is_a_number_witness :
  "45" <> EmptyString /\ str_forall is_digit "45" = true
  /\ py_int "45" = (if (digit_count "45" <=? INT_MAX_STR_DIGITS)%N
                    then Ok (digits_val 0 "45") else Raise ValueError)
  /\ (0 <= digits_val 0 "45")%Z.
Proof.
  apply (altitude_is_a_number (Example.degrees "45") "45"). reflexivity.
Defined.

(** ** The pass that [Satellite.passes] makes of a row *)

(** The positions of a pass after [__init__]. *)
Definition pass_refs (p : SatellitePass) : list ref :=
  [_starts p; _highest p; _ends p].

(** A position whose four detail attributes are still [None]. *)
Definition unfilled (q : Position) : Prop :=
  _direction_degrees q = None /\ _distance q = None
  /\ _brightness q = None /\ _sun_altitude q = None.

(** The three cells of a position in the summary table, from cell [i]
    on: the time, the altitude, the azimuth. *)
Definition position_of_cells (c : position_class) (ts : datetime)
    (alt az : string) : Position :=
  Position_init c ts (digits_val 0 (first_digits alt)) az.

Lemma item_first_number (td : list string) (i : nat) (v : string) :
  item td i ≫= first_number = Ok v ->
  exists cell, td !! i = Some cell /\ first_number cell = Ok v.
Proof.
  intros (cell & E%item_Ok & H)%bind_Ok. exists cell. tauto.
Qed.

Lemma alloc_run (q : Position) (h : store) :
  alloc q h = (Ok (fresh (dom h)), <[fresh (dom h) := q]> h).
Proof. reflexivity. Qed.

(** Every step of a successful run of the loop body. *)
Lemma pass_of_row_Ok (self : Satellite) (lat lon : pyfloat)
    (now : datetime) (row : summary_row) (h h' : store) (p : SatellitePass) :
  pass_of_row self lat lon now row h = (Ok p, h') ->
  exists td0 sday smonth b t2 c3 c4 t5 c6 c7 t8 c9 c10 c11 starts highest ends,
    row_td row !! 0%nat = Some td0 /\ split " " td0 = [sday; smonth]
    /\ row_td row !! 1%nat = Some b
    /\ row_td row !! 2%nat = Some t2 /\ row_td row !! 3%nat = Some c3
    /\ row_td row !! 4%nat = Some c4
    /\ row_td row !! 5%nat = Some t5 /\ row_td row !! 6%nat = Some c6
    /\ row_td row !! 7%nat = Some c7
    /\ row_td row !! 8%nat = Some t8 /\ row_td row !! 9%nat = Some c9
    /\ row_td row !! 10%nat = Some c10
    /\ row_td row !! 11%nat = Some c11
    /\ first_digits c3 <> EmptyString /\ first_digits c6 <> EmptyString
    /\ first_digits c9 <> EmptyString
    /\ _make_timestamp sday smonth t2 None now = Ok starts
    /\ _make_timestamp sday smonth t5 (Some starts) now = Ok highest
    /\ _make_timestamp sday smonth t8 (Some highest) now = Ok ends
    /\ let r0 := fresh (dom h) in
       let h0 := <[r0 := position_of_cells StartsPosition starts c3 c4]> h in
       let r1 := fresh (dom h0) in
       let h1 := <[r1 := position_of_cells HighestPosition highest c6 c7]> h0 in
       let r2 := fresh (dom h1) in
       let h2 := <[r2 := position_of_cells EndsPosition ends c9 c10]> h1 in
       h' = h2
       /\ p = mkSatellitePass self lat lon
                (if String.eqb b "-" then None else Some b)
                None r0 r1 r2 None c11 (row_href row).
Proof.
  unfold pass_of_row. intros H.
  apply run_bind_Ok in H as (td0 & ? & [E0 ->]%run_lift & H).
  apply run_bind_Ok in H as ([sday smonth] & ? & [Es ->]%run_lift & H).
  apply run_bind_Ok in H as (b & ? & [E1 ->]%run_lift & H).
  apply run_bind_Ok in H as (t2 & ? & [E2 ->]%run_lift & H).
  apply run_bind_Ok in H as (sa & ? & [E3 ->]%run_lift & H).
  apply run_bind_Ok in H as (c4 & ? & [E4 ->]%run_lift & H).
  apply run_bind_Ok in H as (starts & ? & [Ms ->]%run_lift & H).
  apply run_bind_Ok in H as (sa' & ? & [Is ->]%run_lift & H).
  rewrite run_bind, alloc_run in H.
  apply run_bind_Ok in H as (t5 & ? & [E5 ->]%run_lift & H).
  apply run_bind_Ok in H as (ha & ? & [E6 ->]%run_lift & H).
  apply run_bind_Ok in H as (c7 & ? & [E7 ->]%run_lift & H).
  apply run_bind_Ok in H as (highest & ? & [Mh ->]%run_lift & H).
  apply run_bind_Ok in H as (ha' & ? & [Ih ->]%run_lift & H).
  rewrite run_bind, alloc_run in H.
  apply run_bind_Ok in H as (t8 & ? & [E8 ->]%run_lift & H).
  apply run_bind_Ok in H as (ea & ? & [E9 ->]%run_lift & H).
  apply run_bind_Ok in H as (c10 & ? & [E10 ->]%run_lift & H).
  apply run_bind_Ok in H as (ends & ? & [Me ->]%run_lift & H).
  apply run_bind_Ok in H as (ea' & ? & [Ie ->]%run_lift & H).
  rewrite run_bind, alloc_run in H.
  apply run_bind_Ok in H as (c11 & ? & [E11 ->]%run_lift & H).
  injection H as <- <-.
  symmetry in E0, E1, E2, E3, E4, E5, E6, E7, E8, E9, E10, E11.
  apply item_Ok in E0, E1, E2, E4, E5, E7, E8, E10, E11.
  apply item_first_number in E3 as (c3 & E3 & (-> & N3 & F3)%first_number_Ok).
  apply item_first_number in E6 as (c6 & E6 & (-> & N6 & F6)%first_number_Ok).
  apply item_first_number in E9 as (c9 & E9 & (-> & N9 & F9)%first_number_Ok).
  symmetry in Is, Ih, Ie.
  apply (digits_int_Ok _ _ F3 N3) in Is as [-> _].
  apply (digits_int_Ok _ _ F6 N6) in Ih as [-> _].
  apply (digits_int_Ok _ _ F9 N9) in Ie as [-> _].
  assert (Es' : split " " td0 = [sday; smonth]).
  { destruct (split " " td0) as [|a [|b' [|c l]]]; try discriminate.
    injection Es as -> ->. reflexivity. }
  exists td0, sday, smonth, b, t2, c3, c4, t5, c6, c7, t8, c9, c10, c11,
    starts, highest, ends.
  split_and!; try assumption; try congruence; reflexivity.
Qed.

(** A reference that was free is the reference of no object. *)
Lemma fresh_insert_ne (h : store) (r : ref) (q : Position) :
  is_Some (h !! r) -> fresh (dom (<[fresh (dom h) := q]> h)) <> r
                      /\ fresh (dom h) <> r.
Proof.
  intros [x Hx]. split.
  - intros E. pose proof (fresh_not_in (<[fresh (dom h) := q]> h)) as F.
    rewrite E in F. destruct (decide (fresh (dom h) = r)) as [<-|N].
    + rewrite lookup_insert_eq in F. discriminate.
    + rewrite lookup_insert_ne in F by exact N. congruence.
  - intros E. pose proof (fresh_not_in h) as F. rewrite E in F. congruence.
Qed.

Lemma fresh_fresh_ne (h : store) (q : Position) :
  fresh (dom (<[fresh (dom h) := q]> h)) <> fresh (dom h).
Proof.
  intros E. pose proof (fresh_not_in (<[fresh (dom h) := q]> h)) as F.
  rewrite E, lookup_insert_eq in F. discriminate.
Qed.

(** The store after three allocations. *)
Lemma three_allocations (h : store) (q0 q1 q2 : Position) :
  let r0 := fresh (dom h) in
  let h0 := <[r0 := q0]> h in
  let r1 := fresh (dom h0) in
  let h1 := <[r1 := q1]> h0 in
  let r2 := fresh (dom h1) in
  let h2 := <[r2 := q2]> h1 in
  NoDup [r0; r1; r2]
  /\ h !! r0 = None /\ h !! r1 = None /\ h !! r2 = None
  /\ h2 !! r0 = Some q0 /\ h2 !! r1 = Some q1 /\ h2 !! r2 = Some q2
  /\ (forall r, r <> r0 -> r <> r1 -> r <> r2 -> h2 !! r = h !! r).
Proof.
  intros r0 h0 r1 h1 r2 h2.
  assert (N01 : r1 <> r0) by apply fresh_fresh_ne.
  assert (N12 : r2 <> r1) by apply fresh_fresh_ne.
  assert (N02 : r2 <> r0).
  { intros E. pose proof (fresh_not_in h1) as F. fold r2 in F. rewrite E in F.
    unfold h1 in F. rewrite lookup_insert_ne in F by exact N01.
    unfold h0 in F. rewrite lookup_insert_eq in F. discriminate. }
  assert (F0 : h !! r0 = None) by apply fresh_not_in.
  assert (F1 : h !! r1 = None).
  { pose proof (fresh_not_in h0) as F. fold r1 in F. unfold h0 in F.
    rewrite lookup_insert_ne in F by congruence.
    exact F. }
  assert (F2 : h !! r2 = None).
  { pose proof (fresh_not_in h1) as F. fold r2 in F. unfold h1, h0 in F.
    rewrite !lookup_insert_ne in F by congruence.
    exact F. }
  split_and!; try assumption.
  - apply NoDup_cons. split.
    + rewrite !not_elem_of_cons. split_and!; [congruence | congruence | apply not_elem_of_nil].
    + apply NoDup_cons. split; [|apply NoDup_singleton].
      rewrite not_elem_of_cons. split; [congruence | apply not_elem_of_nil].
  - unfold h2, h1, h0. rewrite !lookup_insert_ne by congruence.
    apply lookup_insert_eq.
  - unfold h2, h1. rewrite lookup_insert_ne by congruence.
    apply lookup_insert_eq.
  - unfold h2. apply lookup_insert_eq.
  - intros r A B C. unfold h2, h1, h0.
    rewrite !lookup_insert_ne by congruence. reflexivity.
Qed.

(** X8.  The pass made of a row of the summary table.  Its starts,
    highest and ends positions carry the classes of these names, the
    timestamps of the chain (that of the start resolved without an
    anchor, that of the highest point anchored at the start, that of the
    end anchored at the highest point), as altitude the integer of the
    first run of digits of the cell, and as direction the text of the
    azimuth cell as it is; none of them has its direction in degrees,
    distance, brightness or sun altitude yet, and the pass has no rises
    and no sets.  The brightness of the pass is the second cell unless
    it reads ["-"], its type the twelfth cell, its link that of the
    row. *)
Theorem summary_pass (self : Satellite) (lat lon : pyfloat)
    (now : datetime) (row : summary_row) (h h' : store) (p : SatellitePass) :
  pass_of_row self lat lon now row h = (Ok p, h') ->
  exists td0 sday smonth b t2 c3 c4 t5 c6 c7 t8 c9 c10 c11 ps ph pe,
    row_td row = ([td0; b; t2; c3; c4; t5; c6; c7; t8; c9; c10; c11]
                    ++ drop 12 (row_td row))%list
    /\ split " " td0 = [sday; smonth]
    /\ h' !! _starts p = Some ps /\ h' !! _highest p = Some ph
    /\ h' !! _ends p = Some pe
    /\ _class ps = StartsPosition /\ _class ph = HighestPosition
    /\ _class pe = EndsPosition
    /\ _make_timestamp sday smonth t2 None now = Ok (_timestamp ps)
    /\ _make_timestamp sday smonth t5 (Some (_timestamp ps)) now
       = Ok (_timestamp ph)
    /\ _make_timestamp sday smonth t8 (Some (_timestamp ph)) now
       = Ok (_timestamp pe)
    /\ _altitude ps = digits_val 0 (first_digits c3) /\ _direction ps = c4
    /\ _altitude ph = digits_val 0 (first_digits c6) /\ _direction ph = c7
    /\ _altitude pe = digits_val 0 (first_digits c9) /\ _direction pe = c10
    /\ unfilled ps /\ unfilled ph /\ unfilled pe
    /\ _rises p = None /\ _sets p = None
    /\ _pass_brightness p = (if String.eqb b "-" then None else Some b)
    /\ _pass_type p = c11 /\ _link p = row_href row
    /\ _satellite p = self /\ _latitude p = lat /\ _longitude p = lon.
Proof.
  intros H. apply pass_of_row_Ok in H
    as (td0 & sday & smonth & b & t2 & c3 & c4 & t5 & c6 & c7 & t8 & c9 & c10
        & c11 & starts & highest & ends & E0 & Es & E1 & E2 & E3 & E4 & E5 & E6
        & E7 & E8 & E9 & E10 & E11 & N3 & N6 & N9 & Ms & Mh & Me & -> & ->).
  destruct (three_allocations h
              (position_of_cells StartsPosition starts c3 c4)
              (position_of_cells HighestPosition highest c6 c7)
              (position_of_cells EndsPosition ends c9 c10))
    as (_ & _ & _ & _ & L0 & L1 & L2 & _).
  eexists td0, sday, smonth, b, t2, c3, c4, t5, c6, c7, t8, c9, c10, c11, _, _, _.
  cbn [_starts _highest _ends].
  split_and!; try eassumption; try reflexivity;
    [ | unfold unfilled; simpl; tauto ..].
  revert E0 E1 E2 E3 E4 E5 E6 E7 E8 E9 E10 E11.
  destruct (row_td row) as [|x0 [|x1 [|x2 [|x3 [|x4 [|x5 [|x6 [|x7 [|x8 [|x9
                             [|x10 [|x11 rest]]]]]]]]]]]]; cbn;
    intros; try discriminate.
  rewrite drop_0. congruence.
Qed.

Lemma summary_pass_witness :
  exists td0 sday smonth b t2 c3 c4 t5 c6 c7 t8 c9 c10 c11 ps ph pe,
    row_td Example.row
    = ([td0; b; t2; c3; c4; t5; c6; c7; t8; c9; c10; c11]
         ++ drop 12 (row_td Example.row))%list
    /\ split " " td0 = [sday; smonth]
    /\ heap Example.summary !! _starts (this Example.summary) = Some ps
    /\ heap Example.summary !! _highest (this Example.summary) = Some ph
    /\ heap Example.summary !! _ends (this Example.summary) = Some pe
    /\ _class ps = StartsPosition /\ _class ph = HighestPosition
    /\ _class pe = EndsPosition
    /\ _make_timestamp sday smonth t2 None Example.now = Ok (_timestamp ps)
    /\ _make_timestamp sday smonth t5 (Some (_timestamp ps)) Example.now
       = Ok (_timestamp ph)
    /\ _make_timestamp sday smonth t8 (Some (_timestamp ph)) Example.now
       = Ok (_timestamp pe)
    /\ _altitude ps = digits_val 0 (first_digits c3) /\ _direction ps = c4
    /\ _altitude ph = digits_val 0 (first_digits c6) /\ _direction ph = c7
    /\ _altitude pe = digits_val 0 (first_digits c9) /\ _direction pe = c10
    /\ unfilled ps /\ unfilled ph /\ unfilled pe
    /\ _rises (this Example.summary) = None
    /\ _sets (this Example.summary) = None
    /\ _pass_brightness (this Example.summary)
       = (if String.eqb b "-" then None else Some b)
    /\ _pass_type (this Example.summary) = c11
    /\ _link (this Example.summary) = row_href Example.row
    /\ _satellite (this Example.summary) = Example.iss
    /\ _latitude (this Example.summary) = Example.here
    /\ _longitude (this Example.summary) = Example.here.
Proof.
  apply (summary_pass Example.iss Example.here Example.here Example.now
           Example.row ∅).
  vm_compute. reflexivity.
Defined.

(** What every run of the loop body does to the store, whether it
    raises or not: the objects that were there stay as they are. *)
Lemma alloc_grows (q : Position) : respects (⊆) (alloc q).
Proof.
  intros h r h'. rewrite alloc_run. intros [= _ <-].
  apply insert_subseteq, fresh_not_in.
Qed.

Lemma pass_of_row_grows (self : Satellite) (lat lon : pyfloat)
    (now : datetime) (row : summary_row) :
  respects (⊆) (pass_of_row self lat lon now row).
Proof.
  unfold pass_of_row.
  repeat first [ apply respects_lift; apply _
               | apply respects_ret; apply _
               | apply alloc_grows
               | apply respects_bind; try apply _; [ | intros ?] ];
    try match goal with
        | |- respects _ (let '(_, _) := ?x in _) => destruct x
        end;
  repeat first [ apply respects_lift; apply _
               | apply respects_ret; apply _
               | apply alloc_grows
               | apply respects_bind; try apply _; [ | intros ?] ].
Qed.

Lemma pass_of_row_refs (self : Satellite) (lat lon : pyfloat)
    (now : datetime) (row : summary_row) (h h' : store) (p : SatellitePass) :
  pass_of_row self lat lon now row h = (Ok p, h') ->
  NoDup (pass_refs p)
  /\ (forall r, r ∈ pass_refs p -> h !! r = None /\ is_Some (h' !! r))
  /\ (forall r, r ∉ pass_refs p -> h' !! r = h !! r).
Proof.
  intros H. apply pass_of_row_Ok in H
    as (td0 & sday & smonth & b & t2 & c3 & c4 & t5 & c6 & c7 & t8 & c9 & c10
        & c11 & starts & highest & ends & _ & _ & _ & _ & _ & _ & _ & _
        & _ & _ & _ & _ & _ & _ & _ & _ & _ & _ & _ & -> & ->).
  destruct (three_allocations h
              (position_of_cells StartsPosition starts c3 c4)
              (position_of_cells HighestPosition highest c6 c7)
              (position_of_cells EndsPosition ends c9 c10))
    as (ND & F0 & F1 & F2 & L0 & L1 & L2 & Hother).
  unfold pass_refs. cbn [_starts _highest _ends].
  split_and!.
  - exact ND.
  - intros r Hr. rewrite !elem_of_cons, elem_of_nil in Hr.
    destruct Hr as [->|[->|[->|[]]]]; eauto.
  - intros r Hr. rewrite !not_elem_of_cons in Hr.
    apply Hother; tauto.
Qed.

(** X9.  The positions of a pass are new objects.  Whether it raises
    or not, a run of the loop body leaves every object that existed as
    it was.  When it returns a pass, it has created exactly three
    objects, pairwise distinct, under references that were free, and
    the pass refers to them; every other reference holds what it
    held. *)
Theorem summary_positions_are_new (self : Satellite) (lat lon : pyfloat)
    (now : datetime) (row : summary_row) (h h' : store)
    (x : result SatellitePass) :
  pass_of_row self lat lon now row h = (x, h') ->
  (forall r q, h !! r = Some q -> h' !! r = Some q)
  /\ (forall p, x = Ok p ->
        NoDup (pass_refs p)
        /\ (forall r, r ∈ pass_refs p -> h !! r = None /\ is_Some (h' !! r))
        /\ (forall r, r ∉ pass_refs p -> h' !! r = h !! r)).
Proof.
  intros H. split.
  - intros r q Hq. apply pass_of_row_grows in H.
    exact (lookup_weaken _ _ _ _ Hq H).
  - intros p ->. exact (pass_of_row_refs _ _ _ _ _ _ _ _ H).
Qed.

Lemma summary_positions_are_new_witness :
  (forall r q, (∅ : store) !! r = Some q -> heap Example.summary !! r = Some q)
  /\ (forall p, Ok (this Example.summary) = Ok p ->
        NoDup (pass_refs p)
        /\ (forall r, r ∈ pass_refs p ->
              (∅ : store) !! r = None /\ is_Some (heap Example.summary !! r))
        /\ (forall r, r ∉ pass_refs p ->
              heap Example.summary !! r = (∅ : store) !! r)).
Proof.
  apply (summary_positions_are_new Example.iss Example.here Example.here
           Example.now Example.row ∅ (heap Example.summary)
           (Ok (this Example.summary))).
  vm_compute. reflexivity.
Defined.

(** ** The list that [Satellite.passes] returns *)

Lemma passes_of_rows_cons (self : Satellite) (lat lon : pyfloat)
    (now : datetime) (row : summary_row) (rows : list summary_row)
    (h h' : store) (ps : list SatellitePass) :
  passes_of_rows self lat lon now (row :: rows) h = (Ok ps, h') ->
  exists p ps' h1,
    pass_of_row self lat lon now row h = (Ok p, h1)
    /\ passes_of_rows self lat lon now rows h1 = (Ok ps', h')
    /\ ps = p :: ps'.
Proof.
  cbn [passes_of_rows]. intros H.
  apply run_bind_Ok in H as (p & h1 & Hp & H).
  apply run_bind_Ok in H as (ps' & h2 & Hps & H).
  injection H as <- <-. exists p, ps', h1. tauto.
Qed.

(** The pass of each row, in the order of the rows. *)
Lemma passes_of_rows_each (self : Satellite) (lat lon : pyfloat)
    (now : datetime) (rows : list summary_row) :
  forall (h h' : store) (ps : list SatellitePass),
    passes_of_rows self lat lon now rows h = (Ok ps, h') ->
    Forall2 (fun row p =>
               exists h0 h1, pass_of_row self lat lon now row h0 = (Ok p, h1)
                             /\ h ⊆ h0 /\ h1 ⊆ h')
            rows ps.
Proof.
  induction rows as [|row rows IH]; intros h h' ps H.
  - injection H as <- _. constructor.
  - apply passes_of_rows_cons in H as (p & ps' & h1 & Hp & Hps & ->).
    pose proof (pass_of_row_grows _ _ _ _ _ _ _ _ Hp) as G1.
    assert (G2 : h1 ⊆ h').
    { clear IH Hp G1. revert h1 h' ps' Hps.
      induction rows as [|row' rows IH]; intros h1 h' ps' H.
      - injection H as _ <-. reflexivity.
      - apply passes_of_rows_cons in H as (p' & ps'' & h2 & Hp' & Hps' & _).
        transitivity h2; [exact (pass_of_row_grows _ _ _ _ _ _ _ _ Hp')|].
        exact (IH _ _ _ Hps'). }
    constructor.
    + exists h, h1. split_and!; [exact Hp | reflexivity | exact G2].
    + eapply Forall2_impl; [exact (IH _ _ _ Hps)|].
      intros row' p' (h0 & h1' & E & A & B). exists h0, h1'.
      split_and!; [exact E | transitivity h1; assumption | exact B].
Qed.

Lemma pass_of_row_link (self : Satellite) (lat lon : pyfloat)
    (now : datetime) (row : summary_row) (h h' : store) (p : SatellitePass) :
  pass_of_row self lat lon now row h = (Ok p, h') ->
  _link p = row_href row /\ row_td row !! 11%nat = Some (_pass_type p).
Proof.
  intros H. apply pass_of_row_Ok in H
    as (td0 & sday & smonth & b & t2 & c3 & c4 & t5 & c6 & c7 & t8 & c9 & c10
        & c11 & starts & highest & ends & _ & _ & _ & _ & _ & _ & _ & _
        & _ & _ & _ & _ & E11 & _ & _ & _ & _ & _ & _ & _ & ->).
  split; [reflexivity | exact E11].
Qed.

(** X10.  [Satellite.passes] returns one pass for each clickable row,
    in the order of the rows: the list has the length of the table, the
    pass at each place is the one that the loop body makes of the row
    at that place, and it carries the link and the type of that row.
    In particular no list is returned unless every row can be read. *)
Theorem passes_follow_rows (self : Satellite) (lat lon : pyfloat)
    (now : datetime) (rows : list summary_row) (h h' : store)
    (ps : list SatellitePass) :
  passes_of_rows self lat lon now rows h = (Ok ps, h') ->
  length ps = length rows
  /\ Forall2 (fun row p =>
                (exists h0 h1, pass_of_row self lat lon now row h0 = (Ok p, h1))
                /\ _link p = row_href row
                /\ row_td row !! 11%nat = Some (_pass_type p))
             rows ps.
Proof.
  intros H. apply passes_of_rows_each in H.
  split; [symmetry; exact (Forall2_length _ _ _ H)|].
  eapply Forall2_impl; [exact H|].
  intros row p (h0 & h1 & E & _ & _).
  destruct (pass_of_row_link _ _ _ _ _ _ _ _ E) as [L T].
  split_and!; [exists h0, h1; exact E | exact L | exact T].
Qed.

Lemma passes_follow_rows_witness :
  length [this Example.summary] = length [Example.row]
  /\ Forall2 (fun row p =>
                (exists h0 h1, pass_of_row Example.iss Example.here Example.here
                                 Example.now row h0 = (Ok p, h1))
                /\ _link p = row_href row
                /\ row_td row !! 11%nat = Some (_pass_type p))
             [Example.row] [this Example.summary].
Proof.
  apply (passes_follow_rows Example.iss Example.here Example.here Example.now
           [Example.row] ∅ (heap Example.summary)).
  vm_compute. reflexivity.
Defined.

(** The references of all the passes of a list. *)
Definition all_refs (ps : list SatellitePass) : list ref :=
  concat (map pass_refs ps).

Lemma passes_of_rows_refs (self : Satellite) (lat lon : pyfloat)
    (now : datetime) (rows : list summary_row) :
  forall (h h' : store) (ps : list SatellitePass),
    passes_of_rows self lat lon now rows h = (Ok ps, h') ->
    NoDup (all_refs ps)
    /\ h ⊆ h'
    /\ (forall r, r ∈ all_refs ps -> h !! r = None /\ is_Some (h' !! r)).
Proof.
  induction rows as [|row rows IH]; intros h h' ps H.
  - injection H as <- <-. split_and!; [constructor | reflexivity |].
    intros r Hr. apply elem_of_nil in Hr. destruct Hr.
  - apply passes_of_rows_cons in H as (p & ps' & h1 & Hp & Hps & ->).
    pose proof (pass_of_row_grows _ _ _ _ _ _ _ _ Hp) as G1.
    apply pass_of_row_refs in Hp as (ND & Hnew & _).
    apply IH in Hps as (ND' & G2 & Hnew').
    unfold all_refs. cbn [map concat]. split_and!.
    + apply NoDup_app. split_and!; [exact ND | | exact ND'].
      intros r Hr Hr'. destruct (Hnew _ Hr) as [_ [q Hq]].
      destruct (Hnew' _ Hr') as [N _]. congruence.
    + transitivity h1; assumption.
    + intros r [Hr|Hr]%elem_of_app.
      * destruct (Hnew _ Hr) as [N [q Hq]]. split; [exact N|].
        exists q. exact (lookup_weaken _ _ _ _ Hq G2).
      * destruct (Hnew' _ Hr) as [N S]. split; [|exact S].
        destruct (h !! r) as [q|] eqn:E; [|reflexivity].
        rewrite (lookup_weaken _ _ _ _ E G1) in N. discriminate.
Qed.

(** X11.  No two passes of the list share a position, and no pass
    uses one object twice: the references of the starts, highest and
    ends positions of all the passes returned are pairwise distinct,
    they were free before the call and hold an object after it, and the
    objects that existed before the call are as they were. *)
Theorem passes_share_nothing (self : Satellite) (lat lon : pyfloat)
    (now : datetime) (rows : list summary_row) (h h' : store)
    (ps : list SatellitePass) :
  passes_of_rows self lat lon now rows h = (Ok ps, h') ->
  NoDup (all_refs ps)
  /\ (forall r, r ∈ all_refs ps -> h !! r = None /\ is_Some (h' !! r))
  /\ (forall r q, h !! r = Some q -> h' !! r = Some q).
Proof.
  intros (ND & G & Hnew)%passes_of_rows_refs.
  split_and!; [exact ND | exact Hnew |].
  intros r q Hq. exact (lookup_weaken _ _ _ _ Hq G).
Qed.

Lemma passes_share_nothing_witness :
  let rows := [Example.row; Example.row] in
  let ps := [this Example.summary;
             mkSatellitePass Example.iss Example.here Example.here
               (Some "-2.3") None 3%nat 4%nat 5%nat None "visible"
               "PassDetails.aspx?satid=25544"] in
  let h' := snd (passes_of_rows Example.iss Example.here Example.here
                   Example.now rows ∅) in
  NoDup (all_refs ps)
  /\ (forall r, r ∈ all_refs ps ->
        (∅ : store) !! r = None /\ is_Some (h' !! r))
  /\ (forall r q, (∅ : store) !! r = Some q -> h' !! r = Some q).
Proof.
  intros rows ps h'.
  apply (passes_share_nothing Example.iss Example.here Example.here Example.now
           rows ∅ h' ps).
  vm_compute. reflexivity.
Defined.

(** ** What a successful enrichment puts where *)

(** Every step of a successful run of [get_details]. *)
Lemma get_details_steps (table : list (list string)) (w w' : world) :
  get_details table w = (Ok tt, w') ->
  exists rises starts highest ends sets rises_ts sets_ts d0 d1 d2 d3 d4
         w2 w3 w4,
    table !! 0%nat = Some rises /\ table !! 1%nat = Some starts
    /\ table !! 2%nat = Some highest /\ table !! 3%nat = Some ends
    /\ table !! 4%nat = Some sets
    /\ rise_set_timestamps rises sets w = (Ok (rises_ts, sets_ts), w)
    /\ parse_detail rises = Ok d0 /\ parse_detail starts = Ok d1
    /\ parse_detail highest = Ok d2 /\ parse_detail ends = Ok d3
    /\ parse_detail sets = Ok d4
    /\ fill _starts d1 (snd (create RisesPosition rises_ts d0 set_rises w))
       = (Ok tt, w2)
    /\ fill _highest d2 w2 = (Ok tt, w3)
    /\ fill _ends d3 w3 = (Ok tt, w4)
    /\ w' = snd (create SetsPosition sets_ts d4 set_sets w4).
Proof.
  unfold get_details. intros H.
  apply run_bind_Ok in H as (rises & ? & [E0 ->]%run_lift & H).
  apply run_bind_Ok in H as (starts & ? & [E1 ->]%run_lift & H).
  apply run_bind_Ok in H as (highest & ? & [E2 ->]%run_lift & H).
  apply run_bind_Ok in H as (ends & ? & [E3 ->]%run_lift & H).
  apply run_bind_Ok in H as (sets & ? & [E4 ->]%run_lift & H).
  apply run_bind_Ok in H as ([rises_ts sets_ts] & w0 & Hts & H).
  pose proof (rise_set_timestamps_pure _ _ _ _ _ Hts) as <-.
  apply run_bind_Ok in H as (d0 & ? & [P0 ->]%run_lift & H).
  apply run_bind_Ok in H as ([] & w1 & C1 & H).
  apply run_bind_Ok in H as (d1 & ? & [P1 ->]%run_lift & H).
  apply run_bind_Ok in H as ([] & w2 & F1 & H).
  apply run_bind_Ok in H as (d2 & ? & [P2 ->]%run_lift & H).
  apply run_bind_Ok in H as ([] & w3 & F2 & H).
  apply run_bind_Ok in H as (d3 & ? & [P3 ->]%run_lift & H).
  apply run_bind_Ok in H as ([] & w4 & F3 & H).
  apply run_bind_Ok in H as (d4 & ? & [P4 ->]%run_lift & H).
  exists rises, starts, highest, ends, sets, rises_ts, sets_ts,
    d0, d1, d2, d3, d4, w2, w3, w4.
  symmetry in E0, E1, E2, E3, E4. apply item_Ok in E0, E1, E2, E3, E4.
  split_and!; try assumption; try congruence.
  - rewrite C1. exact F1.
  - rewrite H. reflexivity.
Qed.

(** The new position that [create] makes. *)
Definition created (c : position_class) (ts : datetime) (d : detail)
  : Position :=
  set_detail d (Position_init c ts 0 (d_direction d)).

(** The store after a successful enrichment of a pass whose three
    positions are distinct objects. *)
Definition enriched_heap (h : store) (s hi e : ref)
    (pr ps ph pe pt : Position) : store :=
  let h4 := <[e := pe]> (<[hi := ph]> (<[s := ps]> (<[fresh (dom h) := pr]> h))) in
  <[fresh (dom h4) := pt]> h4.

Lemma enriched_heap_lookups (h : store) (s hi e : ref)
    (pr ps ph pe pt : Position) :
  NoDup [s; hi; e] ->
  is_Some (h !! s) -> is_Some (h !! hi) -> is_Some (h !! e) ->
  let r := fresh (dom h) in
  let h4 := <[e := pe]> (<[hi := ph]> (<[s := ps]> (<[r := pr]> h))) in
  let r' := fresh (dom h4) in
  let h' := enriched_heap h s hi e pr ps ph pe pt in
  h !! r = None /\ h !! r' = None /\ r <> r'
  /\ (r ∉ [s; hi; e]) /\ (r' ∉ [s; hi; e])
  /\ h' !! r = Some pr /\ h' !! s = Some ps /\ h' !! hi = Some ph
  /\ h' !! e = Some pe /\ h' !! r' = Some pt
  /\ (forall x, x ∉ [s; hi; e] -> x <> r -> x <> r' -> h' !! x = h !! x).
Proof.
  intros ND [qs Hs] [qh Hh] [qe He] r h4 r' h'.
  apply NoDup_cons in ND as [N1 ND]. apply NoDup_cons in ND as [N2 _].
  rewrite !not_elem_of_cons in N1. rewrite !not_elem_of_cons in N2.
  destruct N1 as (Nsh & Nse & _). destruct N2 as (Nhe & _).
  assert (Fr : h !! r = None) by apply fresh_not_in.
  assert (Rs : r <> s) by (intros E; rewrite E in Fr; congruence).
  assert (Rh : r <> hi) by (intros E; rewrite E in Fr; congruence).
  assert (Re : r <> e) by (intros E; rewrite E in Fr; congruence).
  assert (L4r : h4 !! r = Some pr).
  { unfold h4. rewrite !lookup_insert_ne by congruence. apply lookup_insert_eq. }
  assert (L4s : h4 !! s = Some ps).
  { unfold h4. rewrite !lookup_insert_ne by congruence. apply lookup_insert_eq. }
  assert (L4h : h4 !! hi = Some ph).
  { unfold h4. rewrite lookup_insert_ne by congruence. apply lookup_insert_eq. }
  assert (L4e : h4 !! e = Some pe) by (unfold h4; apply lookup_insert_eq).
  assert (Fr' : h4 !! r' = None) by apply fresh_not_in.
  assert (R'r : r' <> r) by (intros E; rewrite E in Fr'; congruence).
  assert (R's : r' <> s) by (intros E; rewrite E in Fr'; congruence).
  assert (R'h : r' <> hi) by (intros E; rewrite E in Fr'; congruence).
  assert (R'e : r' <> e) by (intros E; rewrite E in Fr'; congruence).
  assert (Fr'0 : h !! r' = None).
  { unfold h4 in Fr'. rewrite !lookup_insert_ne in Fr' by congruence. exact Fr'. }
  unfold h', enriched_heap. fold r h4 r'.
  split_and!; try assumption; try congruence.
  - rewrite !not_elem_of_cons. split_and!; [assumption .. | apply not_elem_of_nil].
  - rewrite !not_elem_of_cons. split_and!; [assumption .. | apply not_elem_of_nil].
  - rewrite lookup_insert_ne by congruence. exact L4r.
  - rewrite lookup_insert_ne by congruence. exact L4s.
  - rewrite lookup_insert_ne by congruence. exact L4h.
  - rewrite lookup_insert_ne by congruence. exact L4e.
  - apply lookup_insert_eq.
  - intros x Hx Xr Xr'. rewrite !not_elem_of_cons in Hx.
    destruct Hx as (Xs & Xh & Xe & _).
    rewrite lookup_insert_ne by congruence. unfold h4.
    rewrite !lookup_insert_ne by congruence. reflexivity.
Qed.

(** The pass is well formed: its starts, highest and ends are three
    objects of the store. *)
Definition separate (w : world) : Prop :=
  NoDup (pass_refs (this w))
  /\ forall r, r ∈ pass_refs (this w) -> is_Some (heap w !! r).

Lemma separate_lookups (w : world) :
  separate w ->
  exists ps ph pe,
    heap w !! _starts (this w) = Some ps
    /\ heap w !! _highest (this w) = Some ph
    /\ heap w !! _ends (this w) = Some pe.
Proof.
  intros [_ H]. unfold pass_refs in H.
  destruct (H (_starts (this w))) as [ps Hs]; [set_solver|].
  destruct (H (_highest (this w))) as [ph Hh]; [set_solver|].
  destruct (H (_ends (this w))) as [pe He]; [set_solver|].
  exists ps, ph, pe. tauto.
Qed.

(** [get_details] on a well-formed pass, once the table is read: the
    five rows go to the five positions, one each. *)
Lemma get_details_run (table : list (list string)) (w : world)
    (rises starts highest ends sets : list string)
    (rises_ts sets_ts : datetime) (d0 d1 d2 d3 d4 : detail)
    (ps ph pe : Position) :
  separate w ->
  heap w !! _starts (this w) = Some ps ->
  heap w !! _highest (this w) = Some ph ->
  heap w !! _ends (this w) = Some pe ->
  table !! 0%nat = Some rises -> table !! 1%nat = Some starts ->
  table !! 2%nat = Some highest -> table !! 3%nat = Some ends ->
  table !! 4%nat = Some sets ->
  rise_set_timestamps rises sets w = (Ok (rises_ts, sets_ts), w) ->
  parse_detail rises = Ok d0 -> parse_detail starts = Ok d1 ->
  parse_detail highest = Ok d2 -> parse_detail ends = Ok d3 ->
  parse_detail sets = Ok d4 ->
  let h := heap w in
  let s := _starts (this w) in
  let hi := _highest (this w) in
  let e := _ends (this w) in
  let pr := created RisesPosition rises_ts d0 in
  let pt := created SetsPosition sets_ts d4 in
  let ps' := set_detail d1 ps in
  let ph' := set_detail d2 ph in
  let pe' := set_detail d3 pe in
  let r := fresh (dom h) in
  let r' := fresh (dom (<[e := pe']> (<[hi := ph']> (<[s := ps']> (<[r := pr]> h))))) in
  get_details table w
  = (Ok tt, mkWorld (enriched_heap h s hi e pr ps' ph' pe' pt)
              (set_sets r' (set_rises r (this w)))).
Proof.
  intros [ND Hin] Hs Hh He T0 T1 T2 T3 T4 Hts P0 P1 P2 P3 P4. cbv zeta.
  apply NoDup_cons in ND as [N1 ND]. apply NoDup_cons in ND as [N2 _].
  rewrite !not_elem_of_cons in N1. rewrite !not_elem_of_cons in N2.
  destruct N1 as (Nsh & Nse & _). destruct N2 as (Nhe & _).
  pose proof (fresh_not_in (heap w)) as Fr.
  assert (Rs : fresh (dom (heap w)) <> _starts (this w))
    by (intros E; rewrite E in Fr; congruence).
  assert (Rh : fresh (dom (heap w)) <> _highest (this w))
    by (intros E; rewrite E in Fr; congruence).
  assert (Re : fresh (dom (heap w)) <> _ends (this w))
    by (intros E; rewrite E in Fr; congruence).
  apply item_Ok in T0, T1, T2, T3, T4.
  unfold get_details.
  rewrite run_bind. unfold lift at 1. rewrite T0.
  rewrite run_bind. unfold lift at 1. rewrite T1.
  rewrite run_bind. unfold lift at 1. rewrite T2.
  rewrite run_bind. unfold lift at 1. rewrite T3.
  rewrite run_bind. unfold lift at 1. rewrite T4.
  rewrite run_bind, Hts.
  rewrite run_bind. unfold lift at 1. rewrite P0.
  rewrite run_bind, create_run. cbv zeta.
  rewrite run_bind. unfold lift at 1. rewrite P1.
  rewrite run_bind, fill_run. cbn [heap this set_rises _starts].
  rewrite lookup_insert_ne by exact Rs. rewrite Hs.
  rewrite run_bind. unfold lift at 1. rewrite P2.
  rewrite run_bind, fill_run. cbn [heap this set_rises _highest].
  rewrite !lookup_insert_ne by congruence. rewrite Hh.
  rewrite run_bind. unfold lift at 1. rewrite P3.
  rewrite run_bind, fill_run. cbn [heap this set_rises _ends].
  rewrite !lookup_insert_ne by congruence. rewrite He.
  rewrite run_bind. unfold lift at 1. rewrite P4.
  rewrite create_run. reflexivity.
Qed.

(** The other direction: a successful run on a well-formed pass is the
    run above. *)
Lemma get_details_exact (table : list (list string)) (w w' : world) :
  get_details table w = (Ok tt, w') -> separate w ->
  exists rises starts highest ends sets rises_ts sets_ts d0 d1 d2 d3 d4
         ps ph pe,
    table !! 0%nat = Some rises /\ table !! 1%nat = Some starts
    /\ table !! 2%nat = Some highest /\ table !! 3%nat = Some ends
    /\ table !! 4%nat = Some sets
    /\ rise_set_timestamps rises sets w = (Ok (rises_ts, sets_ts), w)
    /\ parse_detail rises = Ok d0 /\ parse_detail starts = Ok d1
    /\ parse_detail highest = Ok d2 /\ parse_detail ends = Ok d3
    /\ parse_detail sets = Ok d4
    /\ heap w !! _starts (this w) = Some ps
    /\ heap w !! _highest (this w) = Some ph
    /\ heap w !! _ends (this w) = Some pe
    /\ let h := heap w in
       let s := _starts (this w) in
       let hi := _highest (this w) in
       let e := _ends (this w) in
       let pr := created RisesPosition rises_ts d0 in
       let pt := created SetsPosition sets_ts d4 in
       let ps' := set_detail d1 ps in
       let ph' := set_detail d2 ph in
       let pe' := set_detail d3 pe in
       let r := fresh (dom h) in
       let r' := fresh (dom (<[e := pe']> (<[hi := ph']> (<[s := ps']> (<[r := pr]> h))))) in
       w' = mkWorld (enriched_heap h s hi e pr ps' ph' pe' pt)
              (set_sets r' (set_rises r (this w))).
Proof.
  intros H Hsep. pose proof H as H0.
  apply get_details_steps in H
    as (rises & starts & highest & ends & sets & rises_ts & sets_ts
        & d0 & d1 & d2 & d3 & d4 & w2 & w3 & w4
        & T0 & T1 & T2 & T3 & T4 & Hts & P0 & P1 & P2 & P3 & P4 & _).
  destruct (separate_lookups w Hsep) as (ps & ph & pe & Hs & Hh & He).
  exists rises, starts, highest, ends, sets, rises_ts, sets_ts,
    d0, d1, d2, d3, d4, ps, ph, pe.
  split_and!; try assumption.
  pose proof (get_details_run table w rises starts highest ends sets
                rises_ts sets_ts d0 d1 d2 d3 d4 ps ph pe
                Hsep Hs Hh He T0 T1 T2 T3 T4 Hts P0 P1 P2 P3 P4) as R.
  cbv zeta in R |- *. rewrite R in H0. injection H0 as <-. reflexivity.
Qed.

(** X12.  A successful enrichment of a pass whose starts, highest and
    ends are three objects of the store gives each of the five positions
    the details of its own row of the table: rises those of the first
    row, starts of the second, highest of the third, ends of the fourth
    and sets of the fifth.  The starts, highest and ends records are
    otherwise as they were; the rises and sets records are new objects
    of classes [RisesPosition] and [SetsPosition] with altitude 0, whose
    direction is the word in parentheses of the azimuth cell. *)
Theorem enrichment_row_by_row (table : list (list string)) (w w' : world) :
  get_details table w = (Ok tt, w') -> separate w ->
  exists rises starts highest ends sets d0 d1 d2 d3 d4 ps ph pe tr tt',
    table !! 0%nat = Some rises /\ table !! 1%nat = Some starts
    /\ table !! 2%nat = Some highest /\ table !! 3%nat = Some ends
    /\ table !! 4%nat = Some sets
    /\ parse_detail rises = Ok d0 /\ parse_detail starts = Ok d1
    /\ parse_detail highest = Ok d2 /\ parse_detail ends = Ok d3
    /\ parse_detail sets = Ok d4
    /\ pass.starts w = Some ps /\ pass.highest w = Some ph
    /\ pass.ends w = Some pe
    /\ pass.rises w'
       = Some (set_detail d0 (Position_init RisesPosition tr 0 (d_direction d0)))
    /\ pass.starts w' = Some (set_detail d1 ps)
    /\ pass.highest w' = Some (set_detail d2 ph)
    /\ pass.ends w' = Some (set_detail d3 pe)
    /\ pass.sets w'
       = Some (set_detail d4 (Position_init SetsPosition tt' 0 (d_direction d4))).
Proof.
  intros H Hsep. pose proof Hsep as [ND Hin].
  apply (get_details_exact _ _ _ H) in Hsep
    as (rises & starts & highest & ends & sets & rises_ts & sets_ts
        & d0 & d1 & d2 & d3 & d4 & ps & ph & pe
        & T0 & T1 & T2 & T3 & T4 & Hts & P0 & P1 & P2 & P3 & P4
        & Hs & Hh & He & E).
  cbv zeta in E.
  destruct (enriched_heap_lookups (heap w) (_starts (this w))
              (_highest (this w)) (_ends (this w))
              (created RisesPosition rises_ts d0) (set_detail d1 ps)
              (set_detail d2 ph) (set_detail d3 pe)
              (created SetsPosition sets_ts d4) ND)
    as (_ & _ & _ & _ & _ & Lr & Ls & Lh & Le & Lt & _); eauto.
  cbv zeta in Lr, Ls, Lh, Le, Lt.
  exists rises, starts, highest, ends, sets, d0, d1, d2, d3, d4, ps, ph, pe,
    rises_ts, sets_ts.
  unfold pass.rises, pass.starts, pass.highest, pass.ends, pass.sets,
    pass_position.
  rewrite E. cbn [this heap set_sets set_rises _rises _sets _starts _highest
                  _ends mbind option_bind].
  split_and!; assumption.
Qed.

Lemma separate_summary : separate Example.summary.
Proof.
  split.
  - vm_compute. repeat constructor; rewrite ?elem_of_cons, ?elem_of_nil;
      intuition discriminate.
  - intros r Hr. unfold pass_refs in Hr. cbn in Hr.
    rewrite !elem_of_cons, elem_of_nil in Hr.
    destruct Hr as [->|[->|[->|[]]]]; vm_compute; eauto.
Qed.

Lemma enrichment_row_by_row_witness :
  exists rises starts highest ends sets d0 d1 d2 d3 d4 ps ph pe tr tt',
    Example.table !! 0%nat = Some rises /\ Example.table !! 1%nat = Some starts
    /\ Example.table !! 2%nat = Some highest
    /\ Example.table !! 3%nat = Some ends
    /\ Example.table !! 4%nat = Some sets
    /\ parse_detail rises = Ok d0 /\ parse_detail starts = Ok d1
    /\ parse_detail highest = Ok d2 /\ parse_detail ends = Ok d3
    /\ parse_detail sets = Ok d4
    /\ pass.starts Example.summary = Some ps
    /\ pass.highest Example.summary = Some ph
    /\ pass.ends Example.summary = Some pe
    /\ pass.rises Example.enriched
       = Some (set_detail d0 (Position_init RisesPosition tr 0 (d_direction d0)))
    /\ pass.starts Example.enriched = Some (set_detail d1 ps)
    /\ pass.highest Example.enriched = Some (set_detail d2 ph)
    /\ pass.ends Example.enriched = Some (set_detail d3 pe)
    /\ pass.sets Example.enriched
       = Some (set_detail d4 (Position_init SetsPosition tt' 0 (d_direction d4))).
Proof.
  apply (enrichment_row_by_row Example.table Example.summary Example.enriched);
    [vm_compute; reflexivity | exact separate_summary].
Defined.

(** ** What enrichment cannot reach *)

(** The pass refers to the same starts, highest and ends, and every
    other object of the store is exactly as it was. *)
Definition local (w w' : world) : Prop :=
  pass_refs (this w') = pass_refs (this w)
  /\ forall r q, heap w !! r = Some q -> r ∉ pass_refs (this w) ->
                 heap w' !! r = Some q.

Global Instance local_refl : Reflexive local.
Proof. intros w. split; [reflexivity | tauto]. Qed.

Global Instance local_trans : Transitive local.
Proof.
  intros w1 w2 w3 [E1 H1] [E2 H2]. split; [congruence|].
  intros r q Hq Hr. apply H2; [apply H1; assumption | rewrite E1; exact Hr].
Qed.

Lemma local_fill (field : SatellitePass -> ref) (d : detail) :
  (forall p, field p ∈ pass_refs p) -> respects local (fill field d).
Proof.
  intros Hf w r w'. rewrite fill_run.
  destruct (heap w !! field (this w)) as [p|]; intros [= _ <-]; [|reflexivity].
  split; [reflexivity|]. cbn [heap this]. intros r0 q Hq Hr.
  rewrite lookup_insert_ne; [exact Hq|].
  intros E. apply Hr. rewrite <- E. apply Hf.
Qed.

Lemma local_create (c : position_class) (ts : datetime) (d : detail)
    (set : ref -> SatellitePass -> SatellitePass) :
  (forall r p, pass_refs (set r p) = pass_refs p) ->
  respects local (create c ts d set).
Proof.
  intros Hset w r w'. rewrite create_run. intros [= _ <-].
  split; [apply Hset|]. cbn [heap this]. intros r0 q Hq _.
  rewrite lookup_insert_ne; [exact Hq|].
  intros E. rewrite <- E, fresh_not_in in Hq. discriminate.
Qed.

Lemma local_get_details (table : list (list string)) :
  respects local (get_details table).
Proof.
  unfold get_details.
  repeat (first [ apply respects_lift; apply _
                | apply respects_ret; apply _
                | apply local_fill; intros p; unfold pass_refs; set_solver
                | apply local_create; intros; reflexivity
                | intros w r w' ->%rise_set_timestamps_pure; reflexivity
                | apply respects_bind; try apply _; [ | intros ?] ];
          try match goal with
              | |- respects _ (let '(_, _) := ?x in _) => destruct x
              end).
Qed.

(** X13.  Enrichment is local to the pass.  Whether it raises or not,
    [get_details] changes no object of the store other than the starts,
    highest and ends positions of the pass it is called on: every other
    object is afterwards exactly what it was, attribute for attribute. *)
Theorem enrichment_is_local (table : list (list string)) (w w' : world)
    (x : result unit) (r : ref) (q : Position) :
  get_details table w = (x, w') ->
  heap w !! r = Some q -> r ∉ pass_refs (this w) ->
  heap w' !! r = Some q.
Proof.
  intros H Hq Hr. destruct (local_get_details _ _ _ _ H) as [_ L].
  exact (L _ _ Hq Hr).
Qed.

(** A bystander: an object of the store that the pass does not refer to. *)
Lemma enrichment_is_local_witness :
  let bystander := Position_init EndsPosition Example.now 10 "S" in
  let w := mkWorld (<[7%nat := bystander]> (heap Example.summary))
             (this Example.summary) in
  heap (snd (get_details Example.table w)) !! 7%nat = Some bystander.
Proof.
  intros bystander w.
  apply (enrichment_is_local Example.table w (snd (get_details Example.table w))
           (Ok tt) 7%nat bystander).
  - vm_compute. reflexivity.
  - vm_compute. reflexivity.
  - unfold w, pass_refs. cbn. rewrite !elem_of_cons, elem_of_nil.
    intuition discriminate.
Defined.

Lemma all_refs_lookup (ps : list SatellitePass) :
  forall (k : nat) (p : SatellitePass) (x : ref),
    ps !! k = Some p -> x ∈ pass_refs p -> x ∈ all_refs ps.
Proof.
  induction ps as [|p0 ps IH]; intros k p x Hk Hx;
    [rewrite lookup_nil in Hk; discriminate|].
  unfold all_refs. cbn [map concat]. apply elem_of_app.
  destruct k as [|k]; cbn in Hk.
  - injection Hk as ->. left. exact Hx.
  - right. exact (IH _ _ _ Hk Hx).
Qed.

Lemma all_refs_apart (ps : list SatellitePass) :
  NoDup (all_refs ps) ->
  forall (i j : nat) (p p' : SatellitePass) (r : ref),
    ps !! i = Some p -> ps !! j = Some p' -> i <> j ->
    r ∈ pass_refs p -> r ∉ pass_refs p'.
Proof.
  induction ps as [|p0 ps IH]; intros ND i j p p' r Hi Hj Hij Hr Hr';
    [rewrite lookup_nil in Hi; discriminate|].
  unfold all_refs in ND. cbn [map concat] in ND.
  apply NoDup_app in ND as (_ & Hdis & ND).
  pose proof (all_refs_lookup ps) as In_all. unfold all_refs in In_all.
  destruct i as [|i], j as [|j]; cbn in Hi, Hj.
  - congruence.
  - injection Hi as <-. exact (Hdis _ Hr (In_all _ _ _ Hj Hr')).
  - injection Hj as <-. exact (Hdis _ Hr' (In_all _ _ _ Hi Hr)).
  - exact (IH ND i j p p' r Hi Hj ltac:(congruence) Hr Hr').
Qed.

(** X14.  The passes of one call are independent.  Of two different
    passes of the list that [Satellite.passes] returned, the enrichment
    of one, at any later time and whether it fails or not, leaves every
    position of the other exactly as it was. *)
Theorem passes_are_independent (self : Satellite) (lat lon : pyfloat)
    (now : datetime) (rows : list summary_row) (h h' : store)
    (ps : list SatellitePass) (i j : nat) (p p' : SatellitePass)
    (table : list (list string)) (w w' : world) (x : result unit) :
  passes_of_rows self lat lon now rows h = (Ok ps, h') ->
  ps !! i = Some p -> ps !! j = Some p' -> i <> j ->
  pass_refs (this w) = pass_refs p ->
  get_details table w = (x, w') ->
  forall r q, r ∈ pass_refs p' -> heap w !! r = Some q -> heap w' !! r = Some q.
Proof.
  intros (ND & _ & _)%passes_of_rows_refs Hi Hj Hij Erefs H r q Hr Hq.
  destruct (local_get_details _ _ _ _ H) as [_ L].
  apply L; [exact Hq|]. rewrite Erefs. intros Hr'.
  exact (all_refs_apart ps ND j i p' p r Hj Hi ltac:(congruence) Hr Hr').
Qed.

(** Two passes made of the same row, the first of which is enriched:
    the start of the second is as it was. *)
Lemma passes_are_independent_witness :
  let rows := [Example.row; Example.row] in
  let first := this Example.summary in
  let second := mkSatellitePass Example.iss Example.here Example.here
                  (Some "-2.3") None 3%nat 4%nat 5%nat None "visible"
                  "PassDetails.aspx?satid=25544" in
  let h' := snd (passes_of_rows Example.iss Example.here Example.here
                   Example.now rows ∅) in
  let w := mkWorld h' first in
  let w' := snd (get_details Example.table w) in
  heap w' !! 3%nat
  = Some (Position_init StartsPosition (mkdt 2024 6 15 23 58 0 0) 10 "NW").
Proof.
  intros rows first second h' w w'.
  apply (passes_are_independent Example.iss Example.here Example.here
           Example.now rows ∅ h' [first; second] 0 1 first second
           Example.table w w' (Ok tt));
    [ vm_compute; reflexivity | reflexivity | reflexivity | discriminate
    | reflexivity | vm_compute; reflexivity
    | unfold second, pass_refs; cbn; rewrite elem_of_cons; left; reflexivity
    | vm_compute; reflexivity ].
Defined.

(** ** Enriching twice *)

(** Lines 512-534 as a function of the two timestamps they read. *)
Definition rise_set_of (rises sets : list string) (starts_ts ends_ts : datetime)
  : result (datetime * datetime) :=
  rises_1 ← item rises 1;
  sets_1 ← item sets 1;
  rises_ts ← replace_time starts_ts (split ":" rises_1);
  sets_ts ← replace_time starts_ts (split ":" sets_1);
  rises_ts ← (if dt_gtb rises_ts starts_ts
              then add_one_day rises_ts else Ok rises_ts);
  sets_ts ← (if dt_ltb sets_ts ends_ts
             then sub_one_day sets_ts else Ok sets_ts);
  Ok (rises_ts, sets_ts).

Lemma timestamp_of_lookup (field : SatellitePass -> ref) (w : world)
    (p : Position) :
  heap w !! field (this w) = Some p ->
  timestamp_of field w = (Ok (_timestamp p), w).
Proof.
  intros H. destruct (timestamp_of field w) as [r w'] eqn:E.
  apply timestamp_of_run in E as [-> ->]. rewrite H. reflexivity.
Qed.

Lemma rise_set_timestamps_eq (rises sets : list string) (w : world)
    (ps pe : Position) :
  heap w !! _starts (this w) = Some ps ->
  heap w !! _ends (this w) = Some pe ->
  rise_set_timestamps rises sets w
  = (rise_set_of rises sets (_timestamp ps) (_timestamp pe), w).
Proof.
  intros Hs He. unfold rise_set_timestamps, rise_set_of.
  rewrite run_bind. unfold lift at 1.
  destruct (item rises 1) as [rises_1|]; [|reflexivity].
  rewrite run_bind. unfold lift at 1. cbn [mbind result_bind].
  destruct (item sets 1) as [sets_1|]; [|reflexivity].
  rewrite run_bind, (timestamp_of_lookup _ _ _ Hs).
  rewrite run_bind. unfold lift at 1. cbn [mbind result_bind].
  destruct (replace_time (_timestamp ps) (split ":" rises_1)) as [cr|];
    [|reflexivity].
  rewrite run_bind, (timestamp_of_lookup _ _ _ Hs).
  rewrite run_bind. unfold lift at 1. cbn [mbind result_bind].
  destruct (replace_time (_timestamp ps) (split ":" sets_1)) as [cs|];
    [|reflexivity].
  rewrite run_bind, (timestamp_of_lookup _ _ _ Hs).
  rewrite run_bind. unfold lift at 1. cbn [mbind result_bind].
  destruct (if dt_gtb cr (_timestamp ps) then add_one_day cr else Ok cr)
    as [tr|]; [|reflexivity].
  rewrite run_bind, (timestamp_of_lookup _ _ _ He).
  rewrite run_bind. unfold lift at 1. cbn [mbind result_bind].
  destruct (if dt_ltb cs (_timestamp pe) then sub_one_day cs else Ok cs)
    as [ts|]; reflexivity.
Qed.

(** X15.  Enriching twice is harmless.  After a successful enrichment
    of a pass whose starts, highest and ends are three objects of the
    store, an enrichment from the same table succeeds again and gives
    the five positions exactly the values they have: the records of
    starts, highest and ends are rewritten with what they hold, and new
    rises and sets records equal to the old ones take their place. *)
Theorem enrichment_twice (table : list (list string)) (w w' : world) :
  get_details table w = (Ok tt, w') -> separate w ->
  exists w'',
    get_details table w' = (Ok tt, w'')
    /\ pass.rises w'' = pass.rises w' /\ pass.starts w'' = pass.starts w'
    /\ pass.highest w'' = pass.highest w' /\ pass.ends w'' = pass.ends w'
    /\ pass.sets w'' = pass.sets w'
    /\ is_Some (pass.rises w') /\ is_Some (pass.sets w').
Proof.
  intros H Hsep. pose proof Hsep as [ND Hin].
  apply (get_details_exact _ _ _ H) in Hsep
    as (rises & starts & highest & ends & sets & rises_ts & sets_ts
        & d0 & d1 & d2 & d3 & d4 & ps & ph & pe
        & T0 & T1 & T2 & T3 & T4 & Hts & P0 & P1 & P2 & P3 & P4
        & Hs & Hh & He & E).
  cbv zeta in E.
  destruct (enriched_heap_lookups (heap w) (_starts (this w))
              (_highest (this w)) (_ends (this w))
              (created RisesPosition rises_ts d0) (set_detail d1 ps)
              (set_detail d2 ph) (set_detail d3 pe)
              (created SetsPosition sets_ts d4) ND)
    as (_ & _ & _ & _ & _ & Lr & Ls & Lh & Le & Lt & _); eauto.
  cbv zeta in Lr, Ls, Lh, Le, Lt.
  (* the pass after the first run is as well formed as before it *)
  assert (Erefs : pass_refs (this w') = pass_refs (this w))
    by (rewrite E; reflexivity).
  assert (Es : _starts (this w') = _starts (this w)) by (rewrite E; reflexivity).
  assert (Eh : _highest (this w') = _highest (this w)) by (rewrite E; reflexivity).
  assert (Ee : _ends (this w') = _ends (this w)) by (rewrite E; reflexivity).
  assert (Ls' : heap w' !! _starts (this w') = Some (set_detail d1 ps))
    by (rewrite Es, E; exact Ls).
  assert (Lh' : heap w' !! _highest (this w') = Some (set_detail d2 ph))
    by (rewrite Eh, E; exact Lh).
  assert (Le' : heap w' !! _ends (this w') = Some (set_detail d3 pe))
    by (rewrite Ee, E; exact Le).
  assert (Hsep' : separate w').
  { split; [rewrite Erefs; exact ND|]. rewrite Erefs. unfold pass_refs.
    intros r Hr. rewrite !elem_of_cons, elem_of_nil in Hr.
    destruct Hr as [->|[->|[->|[]]]]; rewrite <- ?Es, <- ?Eh, <- ?Ee; eauto. }
  (* the timestamps of the rise and of the set are found again *)
  assert (Hts' : rise_set_timestamps rises sets w' = (Ok (rises_ts, sets_ts), w')).
  { rewrite (rise_set_timestamps_eq _ _ _ _ _ Ls' Le').
    rewrite (rise_set_timestamps_eq _ _ _ _ _ Hs He) in Hts.
    injection Hts as Hts. cbn [set_detail _timestamp]. rewrite Hts. reflexivity. }
  pose proof (get_details_run table w' rises starts highest ends sets
                rises_ts sets_ts d0 d1 d2 d3 d4 _ _ _
                Hsep' Ls' Lh' Le' T0 T1 T2 T3 T4 Hts' P0 P1 P2 P3 P4) as R.
  cbv zeta in R.
  destruct Hsep' as [ND' Hin'].
  destruct (enriched_heap_lookups (heap w') (_starts (this w'))
              (_highest (this w')) (_ends (this w'))
              (created RisesPosition rises_ts d0)
              (set_detail d1 (set_detail d1 ps))
              (set_detail d2 (set_detail d2 ph))
              (set_detail d3 (set_detail d3 pe))
              (created SetsPosition sets_ts d4) ND')
    as (_ & _ & _ & _ & _ & Mr & Ms & Mh & Me & Mt & _); eauto.
  cbv zeta in Mr, Ms, Mh, Me, Mt.
  eexists. split; [exact R|].
  unfold pass.rises, pass.starts, pass.highest, pass.ends, pass.sets,
    pass_position.
  cbn [this heap set_sets set_rises _rises _sets _starts _highest _ends
       mbind option_bind].
  rewrite Mr, Ms, Mh, Me, Mt, Ls', Lh', Le'.
  rewrite E. cbn [this heap set_sets set_rises _rises _sets _starts _highest
                  _ends mbind option_bind].
  rewrite Lr, Lt. split_and!; try reflexivity; eauto.
Qed.

Lemma enrichment_twice_witness :
  exists w'',
    get_details Example.table Example.enriched = (Ok tt, w'')
    /\ pass.rises w'' = pass.rises Example.enriched
    /\ pass.starts w'' = pass.starts Example.enriched
    /\ pass.highest w'' = pass.highest Example.enriched
    /\ pass.ends w'' = pass.ends Example.enriched
    /\ pass.sets w'' = pass.sets Example.enriched
    /\ is_Some (pass.rises Example.enriched)
    /\ is_Some (pass.sets Example.enriched).
Proof.
  apply (enrichment_twice Example.table Example.summary Example.enriched);
    [vm_compute; reflexivity | exact separate_summary].
Defined.

(** ** Tables that are too short *)

Lemma parse_detail_length (row : list string) (d : detail) :
  parse_detail row = Ok d -> (7 <= length row)%nat.
Proof.
  intros (c3 & c4 & c5 & c6 & _ & _ & _ & E6 & _)%parse_detail_Ok.
  apply lookup_lt_Some in E6. lia.
Qed.

(** X16.  [get_details] needs five rows of seven cells.  On a table of
    fewer than five rows it raises [IndexError] and changes nothing;
    and it succeeds only if the table has five rows and each of the
    first five has at least seven cells. *)
Theorem table_shape (table : list (list string)) (w w' : world)
    (x : result unit) :
  get_details table w = (x, w') ->
  ((length table < 5)%nat -> x = Raise IndexError /\ w' = w)
  /\ (x = Ok tt ->
        (5 <= length table)%nat
        /\ forall (i : nat) (row : list string),
             (i < 5)%nat -> table !! i = Some row -> (7 <= length row)%nat).
Proof.
  intros H. split.
  - intros L.
    assert (E : get_details table w = (Raise IndexError, w)).
    { destruct table as [|r0 [|r1 [|r2 [|r3 [|r4 t]]]]]; simpl in L; try lia;
        reflexivity. }
    rewrite E in H. injection H as <- <-. split; reflexivity.
  - intros ->. apply get_details_steps in H
      as (rises & starts & highest & ends & sets & rises_ts & sets_ts
          & d0 & d1 & d2 & d3 & d4 & w2 & w3 & w4
          & T0 & T1 & T2 & T3 & T4 & _ & P0 & P1 & P2 & P3 & P4 & _).
    split; [apply lookup_lt_Some in T4; lia|].
    intros i row Hi Hrow.
    destruct i as [|[|[|[|[|i]]]]]; [ | | | | | lia].
    + assert (row = rises) as -> by congruence.
      exact (parse_detail_length _ _ P0).
    + assert (row = starts) as -> by congruence.
      exact (parse_detail_length _ _ P1).
    + assert (row = highest) as -> by congruence.
      exact (parse_detail_length _ _ P2).
    + assert (row = ends) as -> by congruence.
      exact (parse_detail_length _ _ P3).
    + assert (row = sets) as -> by congruence.
      exact (parse_detail_length _ _ P4).
Qed.

(** The table of the example without its last row. *)
Lemma table_shape_witness :
  let short := take 4 Example.table in
  ((length short < 5)%nat ->
   @Raise unit IndexError = Raise IndexError
   /\ Example.summary = Example.summary)
  /\ (@Raise unit IndexError = Ok tt ->
        (5 <= length short)%nat
        /\ forall (i : nat) (row : list string),
             (i < 5)%nat -> short !! i = Some row -> (7 <= length row)%nat).
Proof.
  intros short.
  apply (table_shape short Example.summary Example.summary (Raise IndexError)).
  reflexivity.
Defined.

(** ** The azimuth cell *)

(** The text of an azimuth: digits, the degree sign, a space, and a
    word in parentheses. *)
Definition azimuth_text (degrees direction : string) : string :=
  degrees ++ DEGREE ++ " (" ++ direction ++ ")".

Lemma append_assoc (a b c : string) : (a ++ b) ++ c = a ++ b ++ c.
Proof.
  induction a as [|x a IH]; [reflexivity|].
  change ((String x a ++ b) ++ c) with (String x ((a ++ b) ++ c)).
  rewrite IH. reflexivity.
Qed.

(** What a greedy run took when the match went through. *)
Lemma star_took (p : ascii -> bool) (s : string) (g : groups) (k : cont)
    (res : string * groups) :
  star p s g k = Some res ->
  exists m s', s = m ++ s' /\ str_forall p m = true /\ k s' g = Some res.
Proof.
  induction s as [|c s IH]; simpl.
  - intros H. exists EmptyString, EmptyString. tauto.
  - destruct (p c) eqn:E.
    + destruct (star p s g k) eqn:E'.
      * intros [= <-]. destruct (IH eq_refl) as (m & s' & -> & Hm & Hk).
        exists (String c m), s'. simpl. rewrite E. tauto.
      * intros H. exists EmptyString, (String c s). tauto.
    + intros H. exists EmptyString, (String c s). tauto.
Qed.

Lemma plus_took (p : ascii -> bool) (s : string) (g : groups) (k : cont)
    (res : string * groups) :
  rmatch (Plus p) s g k = Some res ->
  exists m s', s = m ++ s' /\ m <> EmptyString /\ str_forall p m = true
               /\ k s' g = Some res.
Proof.
  cbn [rmatch]. destruct s as [|c s]; [discriminate|].
  destruct (p c) eqn:E; [|discriminate].
  intros (m & s' & -> & Hm & Hk)%star_took.
  exists (String c m), s'. simpl. rewrite E. split_and!; try tauto. discriminate.
Qed.

Lemma group_plus_took (name : string) (p : ascii -> bool) (s : string)
    (g : groups) (k : cont) (res : string * groups) :
  rmatch (Group name (Plus p)) s g k = Some res ->
  exists m s', s = m ++ s' /\ m <> EmptyString /\ str_forall p m = true
               /\ k s' ((name, m) :: g) = Some res.
Proof.
  rewrite rmatch_Group. intros (m & s' & -> & Hn & Hm & Hk)%plus_took.
  rewrite consumed_app in Hk. exists m, s'. tauto.
Qed.

Lemma lit_took (c : ascii) (s : string) (g : groups) (k : cont)
    (res : string * groups) :
  rmatch (lit c) s g k = Some res ->
  exists s', s = String c s' /\ k s' g = Some res.
Proof.
  unfold lit. cbn [rmatch]. destruct s as [|x s]; [discriminate|].
  destruct (Ascii.eqb_spec c x) as [->|]; [|discriminate].
  intros H. exists s. tauto.
Qed.

Lemma word_took (w : string) :
  w <> EmptyString ->
  forall (s : string) (g : groups) (k : cont) (res : string * groups),
    rmatch (word lit w) s g k = Some res ->
    exists s', s = w ++ s' /\ k s' g = Some res.
Proof.
  induction w as [|c w IH]; [congruence|]. intros _ s g k res.
  destruct w as [|c' w].
  - cbn [word]. intros (s' & -> & Hk)%lit_took. exists s'. tauto.
  - change (word lit (String c (String c' w)))
      with (Seq (lit c) (word lit (String c' w))).
    rewrite rmatch_Seq. intros (s1 & -> & H)%lit_took.
    apply IH in H as (s' & -> & Hk); [|discriminate].
    exists s'. tauto.
Qed.

Lemma search_found (r : regex) (text : string) (res : string * groups) :
  re_search r text = Some res ->
  exists pre s, text = pre ++ s /\ re_match r s = Some res.
Proof.
  induction text as [|c text IH].
  - cbn [re_search]. destruct (re_match r "") eqn:E; [|discriminate].
    intros [= <-]. exists EmptyString, EmptyString. tauto.
  - cbn [re_search]. destruct (re_match r (String c text)) eqn:E.
    + intros [= <-]. exists EmptyString, (String c text). tauto.
    + intros (pre & s & -> & H)%IH. exists (String c pre), s. tauto.
Qed.

Lemma azimuth_match (s rest : string) (g : groups) :
  re_match AZIMUTH_RE s = Some (rest, g) ->
  exists degrees direction,
    s = azimuth_text degrees direction ++ rest
    /\ g = [("2", direction); ("1", degrees)]
    /\ degrees <> EmptyString /\ str_forall is_digit degrees = true
    /\ direction <> EmptyString /\ str_forall is_word direction = true.
Proof.
  unfold re_match, AZIMUTH_RE, cat. cbn [fold_right].
  rewrite rmatch_Seq. intros (m1 & s1 & -> & N1 & D1 & H)%group_plus_took.
  rewrite rmatch_Seq in H.
  apply word_took in H as (s2 & -> & H); [|discriminate].
  rewrite rmatch_Seq in H.
  apply group_plus_took in H as (m2 & s3 & -> & N2 & D2 & H).
  apply lit_took in H as (s4 & -> & [= <- <-]).
  exists m1, m2. split_and!; try assumption; try reflexivity.
  unfold azimuth_text. rewrite !append_assoc. reflexivity.
Qed.

(** X17.  What is read from an azimuth cell.  When the pattern
    [(\d+)° \((\w+)\)] is found, the cell contains the text
    [<degrees>° (<direction>)], the degrees are a non-empty text of
    digits and the direction a non-empty text of letters, digits and
    underscores: these are the two values kept. *)
Theorem azimuth_parts (text degrees direction : string) :
  azimuth_groups text = Ok (degrees, direction) ->
  exists pre post,
    text = pre ++ azimuth_text degrees direction ++ post
    /\ degrees <> EmptyString /\ str_forall is_digit degrees = true
    /\ direction <> EmptyString /\ str_forall is_word direction = true.
Proof.
  unfold azimuth_groups.
  destruct (re_search AZIMUTH_RE text) as [[rest g]|] eqn:E; [|discriminate].
  apply search_found in E as (pre & s & -> & E).
  apply azimuth_match in E as (deg & dir & -> & -> & N1 & D1 & N2 & D2).
  cbn. intros [= <- <-]. exists pre, rest. tauto.
Qed.

Lemma azimuth_parts_witness :
  exists pre post,
    Example.azimuth "300" "WNW" = pre ++ azimuth_text "300" "WNW" ++ post
    /\ "300" <> EmptyString /\ str_forall is_digit "300" = true
    /\ "WNW" <> EmptyString /\ str_forall is_word "WNW" = true.
Proof.
  apply (azimuth_parts (Example.azimuth "300" "WNW") "300" "WNW").
  vm_compute. reflexivity.
Defined.

(** A greedy run takes a whole run of the class when what follows
    matches right after it. *)
Definition stops (p : ascii -> bool) (s : string) : Prop :=
  match s with
  | String c _ => p c = false
  | EmptyString => True
  end.

Lemma star_greedy (p : ascii -> bool) (m s : string) (g : groups) (k : cont)
    (res : string * groups) :
  str_forall p m = true -> stops p s -> k s g = Some res ->
  star p (m ++ s) g k = Some res.
Proof.
  intros Hm Hs Hk. induction m as [|c m IH].
  - change ("" ++ s) with s. destruct s as [|c s]; [exact Hk|].
    simpl in Hs. simpl. rewrite Hs. exact Hk.
  - simpl in Hm. apply andb_true_iff in Hm as [Hc Hm].
    change (String c m ++ s) with (String c (m ++ s)). simpl.
    rewrite Hc, (IH Hm). reflexivity.
Qed.

Lemma group_plus_greedy (name : string) (p : ascii -> bool) (m s : string)
    (g : groups) (k : cont) (res : string * groups) :
  m <> EmptyString -> str_forall p m = true -> stops p s ->
  k s ((name, m) :: g) = Some res ->
  rmatch (Group name (Plus p)) (m ++ s) g k = Some res.
Proof.
  intros Hn Hm Hs Hk. rewrite rmatch_Group.
  destruct m as [|c m]; [congruence|].
  pose proof Hm as Hm'. simpl in Hm'. apply andb_true_iff in Hm' as [Hc Hm'].
  change (String c m ++ s) with (String c (m ++ s)). cbn [rmatch]. rewrite Hc.
  apply star_greedy; [exact Hm' | exact Hs |].
  change (String c (m ++ s)) with (String c m ++ s).
  rewrite consumed_app. exact Hk.
Qed.

Lemma azimuth_at_start (degrees direction post : string) :
  degrees <> EmptyString -> str_forall is_digit degrees = true ->
  direction <> EmptyString -> str_forall is_word direction = true ->
  re_match AZIMUTH_RE (azimuth_text degrees direction ++ post)
  = Some (post, [("2", direction); ("1", degrees)]).
Proof.
  intros N1 D1 N2 D2. unfold re_match, AZIMUTH_RE, cat, azimuth_text.
  cbn [fold_right]. rewrite !append_assoc, rmatch_Seq.
  apply group_plus_greedy; [exact N1 | exact D1 | reflexivity |].
  rewrite rmatch_Seq.
  change (rmatch (word lit (DEGREE ++ " ("))
            (DEGREE ++ " (" ++ direction ++ ")" ++ post) ?g ?k)
    with (k (direction ++ ")" ++ post) g).
  cbv beta. rewrite rmatch_Seq.
  apply group_plus_greedy; [exact N2 | exact D2 | reflexivity |].
  reflexivity.
Qed.

Lemma azimuth_not_here (c : ascii) (s : string) :
  is_digit c = false -> re_match AZIMUTH_RE (String c s) = None.
Proof.
  intros H. unfold re_match, AZIMUTH_RE, cat. cbn [fold_right].
  rewrite rmatch_Seq, rmatch_Group. cbn [rmatch]. rewrite H. reflexivity.
Qed.

Lemma azimuth_search (pre degrees direction post : string) :
  str_forall non_digit pre = true ->
  degrees <> EmptyString -> str_forall is_digit degrees = true ->
  direction <> EmptyString -> str_forall is_word direction = true ->
  re_search AZIMUTH_RE (pre ++ azimuth_text degrees direction ++ post)
  = Some (post, [("2", direction); ("1", degrees)]).
Proof.
  intros Hpre N1 D1 N2 D2. induction pre as [|c pre IH].
  - change ("" ++ ?s) with s.
    pose proof (azimuth_at_start degrees direction post N1 D1 N2 D2) as M.
    destruct (azimuth_text degrees direction ++ post);
      cbn [re_search]; rewrite M; reflexivity.
  - simpl in Hpre. apply andb_true_iff in Hpre as [Hc Hpre].
    change (String c pre ++ ?s) with (String c (pre ++ s)).
    cbn [re_search]. rewrite azimuth_not_here; [exact (IH Hpre)|].
    unfold non_digit in Hc. destruct (is_digit c); [discriminate | reflexivity].
Qed.

(** X18.  An azimuth written [<degrees>° (<direction>)] is read back:
    for a non-empty text of digits and a non-empty word, whatever
    follows, and whatever text without a digit comes before, the two
    values returned are these degrees and this direction. *)
Theorem azimuth_read_back (pre degrees direction post : string) :
  str_forall non_digit pre = true ->
  degrees <> EmptyString -> str_forall is_digit degrees = true ->
  direction <> EmptyString -> str_forall is_word direction = true ->
  azimuth_groups (pre ++ azimuth_text degrees direction ++ post)
  = Ok (degrees, direction).
Proof.
  intros Hpre N1 D1 N2 D2. unfold azimuth_groups.
  rewrite azimuth_search by assumption. reflexivity.
Qed.

Lemma azimuth_read_back_witness :
  azimuth_groups ("az. " ++ azimuth_text "300" "WNW" ++ " approx.")
  = Ok ("300", "WNW").
Proof.
  apply (azimuth_read_back "az. " "300" "WNW" " approx.");
    [reflexivity | discriminate | reflexivity | discriminate | reflexivity].
Defined.

(** ** The numbers of a detail row *)

(** A decimal number as the site writes it: an optional minus sign,
    digits, a point, digits. *)
Definition decimal (neg : bool) (ip fp : string) : string :=
  (if neg then "-" else "") ++ ip ++ "." ++ fp.

Definition no_c_space (c : ascii) : bool := negb (is_c_space c).

Lemma lstrip_no_space (s : string) :
  str_forall no_c_space s = true -> lstrip s = s.
Proof.
  destruct s as [|c s]; [reflexivity|]. simpl. unfold no_c_space at 1.
  intros [Hc _]%andb_true_iff. destruct (is_c_space c); [discriminate | reflexivity].
Qed.

Lemma strip_no_space (s : string) :
  str_forall no_c_space s = true -> strip s = s.
Proof.
  intros H. unfold strip. rewrite (lstrip_no_space s H).
  rewrite lstrip_no_space; [apply str_rev_involutive|].
  apply str_rev_onto_forall; [exact H | reflexivity].
Qed.

Lemma str_forall_app (p : ascii -> bool) (a b : string) :
  str_forall p (a ++ b) = str_forall p a && str_forall p b.
Proof.
  induction a as [|c a IH]; [reflexivity|].
  change (String c a ++ b) with (String c (a ++ b)). simpl.
  rewrite IH, andb_assoc. reflexivity.
Qed.

Lemma str_forall_weaken (p q : ascii -> bool) (s : string) :
  (forall c, p c = true -> q c = true) ->
  str_forall p s = true -> str_forall q s = true.
Proof.
  intros Hpq. induction s as [|c s IH]; [reflexivity|]. simpl.
  intros [Hc Hs]%andb_true_iff. rewrite (Hpq _ Hc), (IH Hs). reflexivity.
Qed.

Lemma digit_no_c_space (c : ascii) : is_digit c = true -> no_c_space c = true.
Proof. intros H. unfold no_c_space. rewrite (digit_not_c_space _ H). reflexivity. Qed.

Lemma decimal_no_space (neg : bool) (ip fp : string) :
  str_forall is_digit ip = true -> str_forall is_digit fp = true ->
  str_forall no_c_space (decimal neg ip fp) = true.
Proof.
  intros Hi Hf. unfold decimal. rewrite !str_forall_app.
  rewrite (str_forall_weaken _ _ _ digit_no_c_space Hi).
  rewrite (str_forall_weaken _ _ _ digit_no_c_space Hf).
  destruct neg; reflexivity.
Qed.

(** Digits up to something that is neither a digit nor an underscore. *)
Lemma take_digitpart_app (ds rest : string) :
  str_forall is_digit ds = true ->
  match rest with
  | String c _ => is_digit c = false /\ Ascii.eqb c "_" = false
  | EmptyString => True
  end ->
  take_digitpart (ds ++ rest) = (ds, rest).
Proof.
  intros Hd Hr. induction ds as [|c ds IH].
  - change ("" ++ rest) with rest. destruct rest as [|x rest]; [reflexivity|].
    destruct Hr as [Hx _]. cbn [take_digitpart]. rewrite Hx. reflexivity.
  - simpl in Hd. apply andb_true_iff in Hd as [Hc Hd]. specialize (IH Hd).
    change (String c ds ++ rest) with (String c (ds ++ rest)).
    cbn [take_digitpart]. rewrite Hc.
    destruct (ds ++ rest) as [|u [|c2 s2]] eqn:E.
    + rewrite IH. reflexivity.
    + rewrite IH. reflexivity.
    + assert (Hu : Ascii.eqb u "_" = false).
      { destruct ds as [|d ds].
        - change ("" ++ rest) with rest in E. subst rest. tauto.
        - change (String d ds ++ rest) with (String d (ds ++ rest)) in E.
          injection E as <- _. simpl in Hd. apply andb_true_iff in Hd as [Hd' _].
          exact (digit_not_underscore _ Hd'). }
      rewrite Hu. cbn [andb]. rewrite IH. reflexivity.
Qed.

Lemma not_a_name (c : ascii) (s name : string) :
  is_digit c = true -> name <> EmptyString ->
  str_forall is_lower name = true ->
  String.eqb (str_lower (String c s)) name = false.
Proof.
  intros Hc Hn Hl. destruct name as [|x name]; [congruence|].
  simpl in Hl. apply andb_true_iff in Hl as [Hx _].
  cbn [str_lower String.eqb].
  destruct (Ascii.eqb_spec (lower c) x) as [<-|]; [|reflexivity].
  exfalso. apply digit_cases in Hc. simpl in Hc.
  intuition (subst; discriminate).
Qed.

Lemma float_number_decimal (neg : bool) (ip fp : string) :
  ip <> EmptyString -> str_forall is_digit ip = true ->
  fp <> EmptyString -> str_forall is_digit fp = true ->
  float_number neg (ip ++ "." ++ fp)
  = Ok (FNum (signed neg (digits_val 0 (ip ++ fp)))
             (- Z.of_nat (String.length fp))).
Proof.
  intros Ni Hi Nf Hf. unfold float_number.
  rewrite (take_digitpart_app ip ("." ++ fp) Hi)
    by (split; reflexivity).
  change ("." ++ fp) with (String "." fp). cbv iota.
  rewrite (take_digitpart_digits fp Hf).
  destruct ip as [|c ip]; [congruence|].
  change (String c ip ++ fp) with (String c (ip ++ fp)). cbn [take_exponent].
  reflexivity.
Qed.

(** [float()] of a decimal is the number it denotes: its digits as an
    integer, scaled by the number of digits after the point. *)
Lemma py_float_decimal (neg : bool) (ip fp : string) :
  ip <> EmptyString -> str_forall is_digit ip = true ->
  fp <> EmptyString -> str_forall is_digit fp = true ->
  py_float (decimal neg ip fp)
  = Ok (FNum (signed neg (digits_val 0 (ip ++ fp)))
             (- Z.of_nat (String.length fp))).
Proof.
  intros Ni Hi Nf Hf. unfold py_float.
  rewrite (strip_no_space _ (decimal_no_space neg ip fp Hi Hf)).
  destruct ip as [|c ip]; [congruence|].
  pose proof Hi as Hi'. simpl in Hi'. apply andb_true_iff in Hi' as [Hc _].
  assert (S : take_sign (decimal neg (String c ip) fp)
              = (neg, String c ip ++ "." ++ fp)).
  { unfold decimal. destruct neg; [reflexivity|].
    change ("" ++ String c ip ++ "." ++ fp)
      with (String c (ip ++ "." ++ fp)).
    rewrite (take_sign_digit _ _ Hc). reflexivity. }
  rewrite S.
  change (String c ip ++ "." ++ fp) with (String c (ip ++ "." ++ fp)).
  rewrite !(not_a_name c _ _ Hc) by (discriminate || reflexivity).
  cbn [orb].
  change (String c (ip ++ "." ++ fp)) with (String c ip ++ "." ++ fp).
  apply float_number_decimal; assumption.
Qed.

Lemma str_filter_app (p : ascii -> bool) (a b : string) :
  str_filter p (a ++ b) = str_filter p a ++ str_filter p b.
Proof.
  induction a as [|c a IH]; [reflexivity|].
  change (String c a ++ b) with (String c (a ++ b)). simpl.
  destruct (p c); rewrite IH; reflexivity.
Qed.

Lemma str_filter_all (p : ascii -> bool) (s : string) :
  str_forall p s = true -> str_filter p s = s.
Proof.
  induction s as [|c s IH]; [reflexivity|]. simpl.
  intros [Hc Hs]%andb_true_iff. rewrite Hc, (IH Hs). reflexivity.
Qed.

Lemma decimal_kept (neg : bool) (ip fp : string) :
  str_forall is_digit ip = true -> str_forall is_digit fp = true ->
  str_forall sun_altitude_char (decimal neg ip fp) = true.
Proof.
  intros Hi Hf. unfold decimal. rewrite !str_forall_app.
  assert (W : forall c, is_digit c = true -> sun_altitude_char c = true)
    by (intros c Hc; unfold sun_altitude_char; rewrite Hc; reflexivity).
  rewrite (str_forall_weaken _ _ _ W Hi), (str_forall_weaken _ _ _ W Hf).
  destruct neg; reflexivity.
Qed.

(** X19.  The sun altitude of an enriched position.  The seventh cell
    of the row is stripped of every character that is not a digit, a
    minus sign or a point, and the [sun_altitude] property is [float()]
    of what is left.  So a cell that reads a decimal followed by text
    without such characters (the degree sign, say) gives the number the
    decimal denotes; and a cell without any such character gives
    [None]: the empty text is false, and [float()] is not called. *)
Theorem sun_altitude_of_cell (row : list string) (d : detail) (cell : string)
    (p : Position) :
  parse_detail row = Ok d -> row !! 6%nat = Some cell ->
  (forall neg ip fp unit_text,
      cell = decimal neg ip fp ++ unit_text ->
      ip <> EmptyString -> str_forall is_digit ip = true ->
      fp <> EmptyString -> str_forall is_digit fp = true ->
      str_filter sun_altitude_char unit_text = EmptyString ->
      position.sun_altitude (set_detail d p)
      = Ok (Some (FNum (signed neg (digits_val 0 (ip ++ fp)))
                       (- Z.of_nat (String.length fp)))))
  /\ (str_filter sun_altitude_char cell = EmptyString ->
      position.sun_altitude (set_detail d p) = Ok None).
Proof.
  intros (c3 & c4 & c5 & c6 & _ & _ & _ & E6 & _ & _ & _ & Es)%parse_detail_Ok Hc.
  assert (c6 = cell) as -> by congruence.
  unfold position.sun_altitude. cbn [set_detail _sun_altitude]. rewrite Es.
  split.
  - intros neg ip fp unit_text -> Ni Hi Nf Hf Hu.
    rewrite str_filter_app, Hu, append_empty.
    rewrite (str_filter_all _ _ (decimal_kept neg ip fp Hi Hf)).
    unfold float_if_set.
    assert (T : truthy (decimal neg ip fp) = true).
    { unfold decimal. destruct neg; [reflexivity|].
      destruct ip as [|c ip]; [congruence | reflexivity]. }
    rewrite T, py_float_decimal by assumption. reflexivity.
  - intros ->. reflexivity.
Qed.

Lemma sun_altitude_of_cell_witness :
  let row := ["Maximum altitude"; "00:02:00"; Example.degrees "45";
              Example.azimuth "20" "NNE"; "1,234 km"; "-2.3";
              Example.degrees "-5.9"] in
  let d := mkDetail "20" "NNE" "1234" "-2.3" "-5.9" in
  let p := Position_init HighestPosition Example.now 45 "NE" in
  (forall neg ip fp unit_text,
      Example.degrees "-5.9" = decimal neg ip fp ++ unit_text ->
      ip <> EmptyString -> str_forall is_digit ip = true ->
      fp <> EmptyString -> str_forall is_digit fp = true ->
      str_filter sun_altitude_char unit_text = EmptyString ->
      position.sun_altitude (set_detail d p)
      = Ok (Some (FNum (signed neg (digits_val 0 (ip ++ fp)))
                       (- Z.of_nat (String.length fp)))))
  /\ (str_filter sun_altitude_char (Example.degrees "-5.9") = EmptyString ->
      position.sun_altitude (set_detail d p) = Ok None).
Proof.
  intros row d p.
  apply (sun_altitude_of_cell row d (Example.degrees "-5.9") p);
    vm_compute; reflexivity.
Defined.

(** ** Months that are not months *)

Lemma lit_i_took (c : ascii) (s : string) (g : groups) (k : cont)
    (res : string * groups) :
  rmatch (lit_i c) s g k = Some res ->
  exists x s', s = String x s' /\ lower x = lower c /\ k s' g = Some res.
Proof.
  unfold lit_i. cbn [rmatch]. destruct s as [|x s]; [discriminate|].
  destruct (Ascii.eqb_spec (lower x) (lower c)) as [E|]; [|discriminate].
  intros H. exists x, s. tauto.
Qed.

(** The text that a word matched under [re.IGNORECASE] is the word, up
    to the case of its letters. *)
Lemma word_i_took (w : string) :
  w <> EmptyString ->
  forall (s : string) (g : groups) (k : cont) (res : string * groups),
    rmatch (word lit_i w) s g k = Some res ->
    str_lower (substring 0 (String.length w) s) = str_lower w.
Proof.
  induction w as [|c w IH]; [congruence|]. intros _ s g k res.
  destruct w as [|c' w].
  - cbn [word]. intros (x & s' & -> & E & _)%lit_i_took.
    cbn. rewrite E. destruct s'; reflexivity.
  - change (word lit_i (String c (String c' w)))
      with (Seq (lit_i c) (word lit_i (String c' w))).
    rewrite rmatch_Seq. intros (x & s1 & -> & E & H)%lit_i_took.
    apply IH in H; [|discriminate].
    change (String.length (String c (String c' w)))
      with (S (String.length (String c' w))).
    cbn [substring str_lower]. rewrite E, H. reflexivity.
Qed.

Lemma any_word_i_took (ws : list string) :
  Forall (fun w => String.length w = 3%nat) ws ->
  forall (s : string) (g : groups) (k : cont) (res : string * groups),
    rmatch (any_word lit_i ws) s g k = Some res ->
    In (str_lower (substring 0 3 s)) (map str_lower ws).
Proof.
  induction 1 as [|w ws Hw Hws IH]; intros s g k res; [destruct s; discriminate|].
  assert (Hne : w <> EmptyString) by (destruct w; [discriminate Hw | discriminate]).
  destruct ws as [|w' ws].
  - cbn [any_word]. intros H%word_i_took; [|exact Hne].
    rewrite Hw in H. left. symmetry. exact H.
  - change (any_word lit_i (w :: w' :: ws))
      with (Alt (word lit_i w) (any_word lit_i (w' :: ws))).
    cbn [rmatch]. destruct (rmatch (word lit_i w) s g k) eqn:E.
    + intros _. apply word_i_took in E; [|exact Hne].
      rewrite Hw in E. left. symmetry. exact E.
    + intros H. right. exact (IH _ _ _ _ H).
Qed.

Lemma unknown_month_data (data : string) :
  ~ In (str_lower (substring 0 3 data)) a_month ->
  strptime data = Raise ValueError.
Proof.
  intros Hn. unfold strptime, re_match.
  destruct (rmatch FORMAT_RE data [] accept) as [res|] eqn:E; [|reflexivity].
  exfalso. apply Hn. unfold FORMAT_RE, DATE_RE, cat in E. cbn [fold_right] in E.
  rewrite !rmatch_Seq in E. unfold re_b in E. rewrite rmatch_Group in E.
  apply any_word_i_took in E; [exact E|].
  repeat constructor.
Qed.

Lemma substring_app (n : nat) (a b : string) :
  (n <= String.length a)%nat -> substring 0 n (a ++ b) = substring 0 n a.
Proof.
  revert a. induction n as [|n IH]; intros a H.
  - destruct a, b; reflexivity.
  - destruct a as [|c a]; [simpl in H; lia|].
    change (String c a ++ b) with (String c (a ++ b)). cbn [substring].
    rewrite IH by (simpl in H; lia). reflexivity.
Qed.

(** X20.  A month whose first three letters are not, in any case of
    the letters, one of [jan] ... [dec] makes [_make_timestamp] raise
    [ValueError], whatever the day, the time, the anchor and the
    clock. *)
Theorem unknown_month (sday smonth stime : string)
    (anchor : option datetime) (now : datetime) :
  (3 <= String.length smonth)%nat ->
  ~ In (str_lower (substring 0 3 smonth)) a_month ->
  _make_timestamp sday smonth stime anchor now = Raise ValueError.
Proof.
  intros Hl Hn. unfold _make_timestamp, constructed, format_fragment.
  rewrite unknown_month_data; [reflexivity|].
  rewrite substring_app by exact Hl. exact Hn.
Qed.

Lemma unknown_month_witness :
  _make_timestamp "15" "Mai" "21:00:00" None Example.now = Raise ValueError.
Proof.
  apply (unknown_month "15" "Mai" "21:00:00" None Example.now).
  - simpl. lia.
  - vm_compute. intuition discriminate.
Defined.

(** ** The first cell of a row: the day and the month *)

Fixpoint count_char (x : ascii) (s : string) : nat :=
  match s with
  | String c s' => (if Ascii.eqb c x then 1 else 0) + count_char x s'
  | EmptyString => 0
  end.

Definition without (x : ascii) (s : string) : Prop := count_char x s = 0%nat.

Lemma split_not_nil (sep : ascii) (s : string) : split sep s <> [].
Proof.
  destruct s as [|c s]; cbn [split]; [discriminate|].
  destruct (Ascii.eqb c sep); [discriminate|].
  destruct (split sep s); discriminate.
Qed.

(** [split] gives one piece more than there are separators. *)
Lemma split_length (sep : ascii) (s : string) :
  length (split sep s) = S (count_char sep s).
Proof.
  induction s as [|c s IH]; [reflexivity|]. cbn [split count_char].
  destruct (Ascii.eqb c sep).
  - cbn [length]. rewrite IH. reflexivity.
  - pose proof (split_not_nil sep s) as N.
    destruct (split sep s) as [|p ps]; [congruence|].
    cbn [length] in *. rewrite IH. reflexivity.
Qed.

Lemma split_one (sep : ascii) (s b : string) :
  split sep s = [b] -> s = b /\ without sep b.
Proof.
  revert b. induction s as [|c s IH]; intros b; cbn [split].
  - intros [= <-]. split; reflexivity.
  - destruct (Ascii.eqb c sep) eqn:E.
    + intros [= _ H]. exfalso. exact (split_not_nil _ _ H).
    + pose proof (split_not_nil sep s) as N.
      destruct (split sep s) as [|p ps]; [congruence|].
      intros [= <- ->]. destruct (IH p eq_refl) as [-> W].
      split; [reflexivity|]. unfold without. cbn [count_char]. rewrite E. exact W.
Qed.

Lemma split_two (sep : ascii) (s a b : string) :
  split sep s = [a; b] ->
  s = a ++ String sep b /\ without sep a /\ without sep b.
Proof.
  revert a. induction s as [|c s IH]; intros a; cbn [split].
  - discriminate.
  - destruct (Ascii.eqb_spec c sep) as [->|Hc].
    + intros [= <- H]. apply split_one in H as [-> W].
      split_and!; [reflexivity | reflexivity | exact W].
    + pose proof (split_not_nil sep s) as N.
      destruct (split sep s) as [|p ps]; [congruence|].
      intros [= <- ->]. destruct (IH p eq_refl) as (-> & Wa & Wb).
      split_and!; [reflexivity | | exact Wb].
      unfold without. cbn [count_char].
      destruct (Ascii.eqb_spec c sep); [contradiction | exact Wa].
Qed.

(** X21.  The first cell of a row must read [<day> <month>], with one
    space.  A first cell with no space or with more than one makes the
    loop body raise the [ValueError] of the tuple assignment before
    anything is created; and when a pass is returned, the day and the
    month given to [_make_timestamp] are the text before that space
    and the text after it. *)
Theorem date_cell (self : Satellite) (lat lon : pyfloat)
    (now : datetime) (row : summary_row) (h h' : store)
    (x : result SatellitePass) (td0 : string) :
  pass_of_row self lat lon now row h = (x, h') ->
  row_td row !! 0%nat = Some td0 ->
  (count_char " " td0 <> 1%nat -> x = Raise ValueError /\ h' = h)
  /\ (forall p, x = Ok p ->
        exists sday smonth,
          td0 = sday ++ " " ++ smonth
          /\ without " " sday /\ without " " smonth
          /\ exists t2, row_td row !! 2%nat = Some t2
                        /\ is_ok (_make_timestamp sday smonth t2 None now) = true).
Proof.
  intros H E0. split.
  - intros Hn. unfold pass_of_row in H.
    rewrite run_bind in H. unfold lift at 1 in H.
    apply item_Ok in E0. rewrite E0 in H.
    rewrite run_bind in H. unfold lift at 1 in H.
    pose proof (split_length " " td0) as L.
    destruct (split " " td0) as [|a [|b [|c l]]]; cbn [length] in L;
      try (injection H as <- <-; split; reflexivity).
    exfalso. apply Hn. lia.
  - intros p ->. apply pass_of_row_Ok in H
      as (td0' & sday & smonth & b & t2 & c3 & c4 & t5 & c6 & c7 & t8 & c9
          & c10 & c11 & starts & highest & ends & E0' & Es & _ & E2 & _ & _ & _
          & _ & _ & _ & _ & _ & _ & _ & _ & _ & Ms & _).
    assert (td0' = td0) as -> by congruence.
    apply split_two in Es as (-> & Wa & Wb).
    exists sday, smonth. split_and!; try assumption; [reflexivity|].
    exists t2. split; [exact E2|]. rewrite Ms. reflexivity.
Qed.

(** A first cell with two spaces. *)
Lemma date_cell_witness :
  let row := mkRow "PassDetails.aspx" ["15  Jun"; "-2.3"] in
  (count_char " " "15  Jun" <> 1%nat ->
   @Raise SatellitePass ValueError = Raise ValueError
   /\ (∅ : store) = ∅)
  /\ (forall p : SatellitePass, Raise ValueError = Ok p ->
        exists sday smonth,
          "15  Jun" = sday ++ " " ++ smonth
          /\ without " " sday /\ without " " smonth
          /\ exists t2, row_td row !! 2%nat = Some t2
                        /\ is_ok (_make_timestamp sday smonth t2 None
                                    Example.now) = true).
Proof.
  intros row.
  apply (date_cell Example.iss Example.here Example.here Example.now row ∅ ∅
           (Raise ValueError) "15  Jun");
    reflexivity.
Defined.

(** ** Brightness, on the pass and on its positions *)

Lemma decimal_truthy (neg : bool) (ip fp : string) :
  ip <> EmptyString -> truthy (decimal neg ip fp) = true.
Proof.
  intros Ni. unfold decimal. destruct neg; [reflexivity|].
  destruct ip as [|c ip]; [congruence | reflexivity].
Qed.

Lemma decimal_not_dash (neg : bool) (ip fp : string) :
  ip <> EmptyString -> String.eqb (decimal neg ip fp) "-" = false.
Proof.
  intros Ni. unfold decimal. destruct ip as [|c ip]; [congruence|].
  destruct neg.
  - change ("-" ++ String c ip ++ "." ++ fp)
      with (String "-" (String c (ip ++ "." ++ fp))). reflexivity.
  - change ("" ++ String c ip ++ "." ++ fp)
      with (String c (ip ++ "." ++ fp)).
    cbn [String.eqb]. destruct (Ascii.eqb c "-"); [|reflexivity].
    destruct ip; reflexivity.
Qed.

Lemma float_if_set_decimal (neg : bool) (ip fp : string) :
  ip <> EmptyString -> str_forall is_digit ip = true ->
  fp <> EmptyString -> str_forall is_digit fp = true ->
  float_if_set (Some (decimal neg ip fp))
  = Ok (Some (FNum (signed neg (digits_val 0 (ip ++ fp)))
                   (- Z.of_nat (String.length fp)))).
Proof.
  intros Ni Hi Nf Hf. unfold float_if_set.
  rewrite (decimal_truthy neg ip fp Ni), py_float_decimal by assumption.
  reflexivity.
Qed.

(** X22.  The two [brightness] properties agree on a magnitude.  A
    brightness cell that reads a decimal (an optional minus sign,
    digits, a point, digits) gives the number it denotes, both as the
    brightness of the pass made of a summary row (second cell) and as
    the brightness of a position filled from a detail row (sixth
    cell). *)
Theorem brightness_of_decimal (neg : bool) (ip fp : string) :
  ip <> EmptyString -> str_forall is_digit ip = true ->
  fp <> EmptyString -> str_forall is_digit fp = true ->
  let value := FNum (signed neg (digits_val 0 (ip ++ fp)))
                    (- Z.of_nat (String.length fp)) in
  (forall self lat lon now row h p h',
      pass_of_row self lat lon now row h = (Ok p, h') ->
      row_td row !! 1%nat = Some (decimal neg ip fp) ->
      pass_brightness p = Ok (Some value))
  /\ (forall row d q,
        parse_detail row = Ok d ->
        row !! 5%nat = Some (decimal neg ip fp) ->
        position.brightness (set_detail d q) = Ok (Some value)).
Proof.
  intros Ni Hi Nf Hf value. split.
  - intros self lat lon now row h p h' H E.
    apply pass_of_row_Ok in H
      as (td0 & sday & smonth & b & t2 & c3 & c4 & t5 & c6 & c7 & t8 & c9 & c10
          & c11 & starts & highest & ends & _ & _ & E1 & _ & _ & _ & _ & _
          & _ & _ & _ & _ & _ & _ & _ & _ & _ & _ & _ & _ & ->).
    assert (b = decimal neg ip fp) as -> by congruence.
    unfold pass_brightness. cbn [_pass_brightness].
    rewrite (decimal_not_dash neg ip fp Ni).
    apply float_if_set_decimal; assumption.
  - intros row d q (c3 & c4 & c5 & c6 & _ & _ & E5 & _ & _ & _ & Eb & _)%parse_detail_Ok E.
    assert (c5 = decimal neg ip fp) as -> by congruence.
    unfold position.brightness. cbn [set_detail _brightness]. rewrite Eb.
    apply float_if_set_decimal; assumption.
Qed.

Lemma brightness_of_decimal_witness :
  let value := FNum (-23) (-1) in
  (forall self lat lon now row h p h',
      pass_of_row self lat lon now row h = (Ok p, h') ->
      row_td row !! 1%nat = Some "-2.3" ->
      pass_brightness p = Ok (Some value))
  /\ (forall row d q,
        parse_detail row = Ok d ->
        row !! 5%nat = Some "-2.3" ->
        position.brightness (set_detail d q) = Ok (Some value)).
Proof.
  apply (brightness_of_decimal true "2" "3");
    [discriminate | reflexivity | discriminate | reflexivity].
Defined.

(** ** The exceptions of [get_details] *)

Section RaisesOnly.
Context {S : Type} (E : exn -> Prop).

(** Every exception that a program raises is one of [E]. *)
Definition raises_only {A : Type} (m : prog S A) : Prop :=
  forall s e s', m s = (Raise e, s') -> E e.

Lemma raises_only_bind {A B : Type} (m : prog S A) (f : A -> prog S B) :
  raises_only m -> (forall a, raises_only (f a)) -> raises_only (m ≫= f).
Proof.
  intros Hm Hf s e s' [H|(a & s1 & _ & H)]%run_bind_Raise.
  - exact (Hm _ _ _ H).
  - exact (Hf _ _ _ _ H).
Qed.

Lemma raises_only_lift {A : Type} (m : result A) :
  (forall e, m = Raise e -> E e) -> raises_only (lift m).
Proof. intros H s e s' [He _]%run_lift. apply H. symmetry. exact He. Qed.

Lemma raises_only_ret {A : Type} (a : A) : raises_only (mret a).
Proof. intros s e s'. discriminate. Qed.

End RaisesOnly.

(** What [get_details] can raise. *)
Definition enrichment_error (e : exn) : Prop :=
  e = IndexError \/ e = AttributeError \/ e = ValueError \/ e = OverflowError.

Lemma item_error {A : Type} (l : list A) (i : nat) (e : exn) :
  item l i = Raise e -> e = IndexError.
Proof. unfold item. destruct (l !! i); congruence. Qed.

Lemma replace_time_error (t : datetime) (x : list string) (e : exn) :
  replace_time t x = Raise e ->
  e = IndexError \/ e = ValueError \/ e = OverflowError.
Proof.
  unfold replace_time. intros H.
  assert (P : forall i e', item x i ≫= py_int = Raise e' ->
                           e' = IndexError \/ e' = ValueError).
  { intros i e' [H'|(v & _ & H')]%bind_Raise;
      [left; exact (item_error _ _ _ H') | right; exact (py_int_raises _ _ H')]. }
  apply bind_Raise in H as [H|(h & _ & H)]; [specialize (P _ _ H); tauto|].
  apply bind_Raise in H as [H|(mi & _ & H)]; [specialize (P _ _ H); tauto|].
  apply bind_Raise in H as [H|(s & _ & H)]; [specialize (P _ _ H); tauto|].
  unfold replace_hms in H. destruct (c_int h && c_int mi && c_int s).
  - right; left. exact (datetime_new_raises _ _ _ _ _ _ _ _ H).
  - right; right. congruence.
Qed.

Lemma azimuth_groups_error (text : string) (e : exn) :
  azimuth_groups text = Raise e -> e = AttributeError.
Proof.
  unfold azimuth_groups.
  destruct (re_search AZIMUTH_RE text) as [[rest g]|]; [|congruence].
  destruct (group "1" g), (group "2" g); congruence.
Qed.

Lemma parse_detail_error (row : list string) (e : exn) :
  parse_detail row = Raise e -> e = IndexError \/ e = AttributeError.
Proof.
  unfold parse_detail. intros H.
  apply bind_Raise in H as [H|([deg dir] & _ & H)].
  { apply bind_Raise in H as [H|(c & _ & H)];
      [left; exact (item_error _ _ _ H) | right; exact (azimuth_groups_error _ _ H)]. }
  apply bind_Raise in H as [H|(c4 & _ & H)]; [left; exact (item_error _ _ _ H)|].
  apply bind_Raise in H as [H|(c5 & _ & H)]; [left; exact (item_error _ _ _ H)|].
  apply bind_Raise in H as [H|(c6 & _ & H)]; [left; exact (item_error _ _ _ H)|].
  discriminate.
Qed.

Lemma timestamp_of_error (field : SatellitePass -> ref) :
  raises_only enrichment_error (timestamp_of field).
Proof.
  intros w e w' [_ H]%timestamp_of_run.
  destruct (heap w !! field (this w)); [discriminate|].
  injection H as ->. right; left; reflexivity.
Qed.

Lemma fill_error (field : SatellitePass -> ref) (d : detail) :
  raises_only enrichment_error (fill field d).
Proof.
  intros w e w'. rewrite fill_run.
  destruct (heap w !! field (this w)); [discriminate|].
  intros [= <- _]. right; left; reflexivity.
Qed.

Lemma create_error (c : position_class) (ts : datetime) (d : detail)
    (set : ref -> SatellitePass -> SatellitePass) :
  raises_only enrichment_error (create c ts d set).
Proof. intros w e w'. rewrite create_run. discriminate. Qed.

Ltac error_step :=
  first
    [ apply raises_only_ret
    | apply timestamp_of_error
    | apply fill_error
    | apply create_error
    | apply raises_only_lift; intros e He; unfold enrichment_error;
      first
        [ apply item_error in He; tauto
        | apply replace_time_error in He; tauto
        | apply parse_detail_error in He; tauto
        | match type of He with
          | (if ?c then _ else _) = _ =>
              destruct c;
              first [ discriminate He
                    | apply add_one_day_raises in He; tauto
                    | apply sub_one_day_raises in He; tauto ]
          end ]
    | apply raises_only_bind; [ | intros ?] ];
  try match goal with
      | |- raises_only _ (let '(_, _) := ?x in _) => destruct x
      end.

Lemma get_details_errors (table : list (list string)) :
  raises_only enrichment_error (get_details table).
Proof.
  unfold get_details, rise_set_timestamps. repeat error_step.
Qed.

(** X23.  The exceptions of [get_details], from the parsed table on:
    an [IndexError] (a row or a cell is missing), an [AttributeError]
    (an azimuth that is not found, a position that is not there), a
    [ValueError] (a time that is not three integers in range) or an
    [OverflowError] (a day added or subtracted at the end of the
    calendar, a piece of a time beyond a C int); never a [TypeError]. *)
Theorem enrichment_errors (table : list (list string)) (w w' : world)
    (e : exn) :
  get_details table w = (Raise e, w') ->
  (e = IndexError \/ e = AttributeError \/ e = ValueError \/ e = OverflowError)
  /\ e <> TypeError.
Proof.
  intros H. pose proof (get_details_errors table _ _ _ H) as He.
  split; [exact He|]. unfold enrichment_error in He. intros ->.
  intuition discriminate.
Qed.

Lemma enrichment_errors_witness :
  (AttributeError = IndexError \/ AttributeError = AttributeError
   \/ AttributeError = ValueError \/ AttributeError = OverflowError)
  /\ AttributeError <> TypeError.
Proof.
  apply (enrichment_errors Example.broken_table Example.summary
           Example.half_enriched AttributeError).
  vm_compute. reflexivity.
Defined.

(** ** The times of the rise and of the set *)





